(** * RoyavaletBackend: contact intake, e-mail subscriptions, list queries
      and statistics

    A shallow embedding of [controllers/contactController.js],
    [controllers/emailController.js], [models/Contact.js] and
    [models/EmailSubscription.js].

    Conventions of the embedding:
    - a collection of the document store is the list of its documents in
      insertion order;
    - a [Date] is its number of milliseconds since the epoch ([Z]); the clock
      read by [new Date()] / [Date.now()] is an argument [now] of the handler;
    - a JavaScript [Number] that holds a counter, a page number or a length
      is an exact integer ([Z]); the two agree below 2^53;
    - a quotient or a product of Numbers that need not be an integer is the
      binary64 result: the exact value rounded to the nearest number with a
      53-bit mantissa ([JS.round53]);
    - [null] and [undefined] are [None];
    - a handler [async (req, res) => ...] becomes a function from the request
      and the collection to the response it sends and the collection it
      leaves behind. *)

From Stdlib Require Import ZArith QArith Qcanon Qround Lqa Ascii Lia.
From stdpp Require Import base numbers option list strings gmap sorting.

Local Open Scope string_scope.
Local Open Scope list_scope.
Local Open Scope Z_scope.

(** ** JavaScript helpers *)

Module JS.

(** White space skipped by [parseInt] (the ASCII part of StrWhiteSpaceChar). *)
Definition isWhiteSpace (c : ascii) : bool :=
  let n := nat_of_ascii c in
  ((9 <=? n) && (n <=? 13))%nat || (n =? 32)%nat.

Fixpoint trimStart (s : string) : string :=
  match s with
  | String c r => if isWhiteSpace c then trimStart r else s
  | EmptyString => s
  end.

(** Value of a character as a digit in the given radix, if it is one. *)
Definition digitValue (radix : Z) (c : ascii) : option Z :=
  let n := Z.of_nat (nat_of_ascii c) in
  let v := if (48 <=? n) && (n <=? 57) then Some (n - 48)
           else if (97 <=? n) && (n <=? 122) then Some (n - 87)
           else if (65 <=? n) && (n <=? 90) then Some (n - 55)
           else None in
  match v with
  | Some d => if d <? radix then Some d else None
  | None => None
  end.

(** The longest prefix of digits, read in [radix]; [acc] is [None] until a
    first digit has been seen. *)
Fixpoint parseDigits (radix : Z) (s : string) (acc : option Z) : option Z :=
  match s with
  | String c r =>
      match digitValue radix c with
      | Some d => parseDigits radix r (Some (default 0 acc * radix + d))
      | None => acc
      end
  | EmptyString => acc
  end.

(** [parseInt(string)] with no radix argument; [None] is [NaN]. *)
Definition parseInt (s : string) : option Z :=
  let s1 := trimStart s in
  let '(sign, s2) :=
    match s1 with
    | String "-" r => (-1, r)
    | String "+" r => (1, r)
    | _ => (1, s1)
    end in
  let '(radix, s3) :=
    match s2 with
    | String "0" (String "x" r) => (16, r)
    | String "0" (String "X" r) => (16, r)
    | _ => (10, s2)
    end in
  match parseDigits radix s3 None with
  | Some v => Some (sign * v)
  | None => None
  end.

(** [parseInt(x) || d] on a query parameter that is a string or absent:
    [parseInt(undefined)] is [NaN], and both [NaN] and [0] are falsy. *)
Definition parseIntOr (x : option string) (d : Z) : Z :=
  match x with
  | Some s =>
      match parseInt s with
      | Some v => if v =? 0 then d else v
      | None => d
      end
  | None => d
  end.

(** [if (x)] on a query parameter that is a string or absent: the empty
    string and [undefined] are falsy. *)
Definition truthy (x : option string) : option string :=
  match x with
  | Some "" => None
  | _ => x
  end.

(** [Math.ceil(a / b)] for integers [a], [b] with [b <> 0]. *)
Definition ceilDiv (a b : Z) : Z := - ((- a) / b).

(** *** Arithmetic on doubles

    The value of a Number is a rational ([Q]). The operators [/] and [*]
    compute the exact result and round it to the nearest number with a
    mantissa of 53 bits, a tie going to the even mantissa. The exponent is
    not bounded here: the results are those of binary64 as long as they are
    neither below 2^-1022 nor above 2^1023 in magnitude, which holds for the
    quotients and products of counters. *)

(** The integer nearest to [n / d] for [0 < d], a tie going to the even
    one. *)
Definition rne (n d : Z) : Z :=
  let q := n / d in
  let r := n mod d in
  if 2 * r <? d then q
  else if d <? 2 * r then q + 1
  else if Z.even q then q else q + 1.

(** The number [m * 2^e] nearest to [q], with [2^52 <= |m| <= 2^53]: [e] is
    the exponent for which [|q| / 2^e] lies between 2^52 and 2^53. *)
Definition round53 (q : Q) : Q :=
  let n := Qnum q in
  let d := Z.pos (Qden q) in
  if n =? 0 then 0%Q
  else
    let k := Z.log2 (Z.abs n) - Z.log2 d in
    let e := if Z.abs n * 2 ^ Z.max 0 (- k) <? d * 2 ^ Z.max 0 k
             then k - 53 else k - 52 in
    Qmake (rne (n * 2 ^ Z.max 0 (- e)) (d * 2 ^ Z.max 0 e) * 2 ^ Z.max 0 e)
          (Z.to_pos (2 ^ Z.max 0 (- e))).

(** [x / y] for [y <> 0], and [x * y]. *)
Definition divide (x y : Q) : Q := round53 (x / y)%Q.

Definition times (x y : Q) : Q := round53 (x * y)%Q.

(** [Math.round(x)]: the integer [floor(x + 1/2)], computed exactly. *)
Definition mathRound (x : Q) : Z := Qfloor (x + (1 # 2))%Q.

(** [Math.round((a / b) * 100)] for integers [a] and [b], [b <> 0]. *)
Definition roundPercent (a b : Z) : Z :=
  mathRound (times (divide (inject_Z a) (inject_Z b)) (inject_Z 100)).

Definition toLower (c : ascii) : ascii :=
  let n := nat_of_ascii c in
  if ((65 <=? n) && (n <=? 90))%nat then ascii_of_nat (n + 32) else c.

(** [String.prototype.toLowerCase] on ASCII letters. *)
Fixpoint toLowerCase (s : string) : string :=
  match s with
  | String c r => String (toLower c) (toLowerCase r)
  | EmptyString => EmptyString
  end.

Fixpoint trimEnd (s : string) : string :=
  match s with
  | String c r =>
      match trimEnd r with
      | EmptyString => if isWhiteSpace c then EmptyString else String c EmptyString
      | r' => String c r'
      end
  | EmptyString => EmptyString
  end.

(** [String.prototype.trim]. *)
Definition trim (s : string) : string := trimEnd (trimStart s).

(** [a || b] where [a] is a string, [null] or [undefined]. *)
Definition orElse (a : option string) (b : string) : string :=
  match truthy a with
  | Some s => s
  | None => b
  end.

End JS.

(** ** models/Contact.js *)

Module Contact.

Inductive Status := new | contacted | in_progress | completed | cancelled.
Inductive Priority := low | medium | high | urgent.

#[global] Instance ContactStatus_eq_dec : EqDecision Status.
Proof. solve_decision. Defined.
#[global] Instance Priority_eq_dec : EqDecision Priority.
Proof. solve_decision. Defined.

(** The strings of the schema's [enum] lists. *)
Definition statusName (s : Status) : string :=
  match s with
  | new => "new"
  | contacted => "contacted"
  | in_progress => "in-progress"
  | completed => "completed"
  | cancelled => "cancelled"
  end.

Definition priorityName (p : Priority) : string :=
  match p with
  | low => "low"
  | medium => "medium"
  | high => "high"
  | urgent => "urgent"
  end.

(** The value of the enumeration that a string names, if it names one: what
    the [enum] validator of the path lets through. *)
Definition statusOfName (s : string) : option Status :=
  if String.eqb s "new" then Some new
  else if String.eqb s "contacted" then Some contacted
  else if String.eqb s "in-progress" then Some in_progress
  else if String.eqb s "completed" then Some completed
  else if String.eqb s "cancelled" then Some cancelled
  else None.

Definition priorityOfName (s : string) : option Priority :=
  if String.eqb s "low" then Some low
  else if String.eqb s "medium" then Some medium
  else if String.eqb s "high" then Some high
  else if String.eqb s "urgent" then Some urgent
  else None.

Record Note := {
  note : string;
  addedBy : string;
  addedAt : Z
}.

Record t := {
  _id : nat;
  name : string;
  email : string;
  phone : string;
  description : string;
  status : Status;
  source : string;
  ipAddress : option string;
  userAgent : option string;
  notes : list Note;
  assignedTo : option nat;
  priority : Priority;
  followUpDate : option Z;
  createdAt : Z;
  updatedAt : Z
}.

#[global] Instance Note_eq_dec : EqDecision Note.
Proof. solve_decision. Defined.
#[global] Instance Contact_eq_dec : EqDecision t.
Proof. solve_decision. Defined.

Definition set_notes (ns : list Note) (c : t) : t :=
  {| _id := _id c; name := name c; email := email c; phone := phone c;
     description := description c; status := status c; source := source c;
     ipAddress := ipAddress c; userAgent := userAgent c; notes := ns;
     assignedTo := assignedTo c; priority := priority c;
     followUpDate := followUpDate c; createdAt := createdAt c;
     updatedAt := updatedAt c |}.

Definition set_updatedAt (updated : Z) (c : t) : t :=
  {| _id := _id c; name := name c; email := email c; phone := phone c;
     description := description c; status := status c; source := source c;
     ipAddress := ipAddress c; userAgent := userAgent c; notes := notes c;
     assignedTo := assignedTo c; priority := priority c;
     followUpDate := followUpDate c; createdAt := createdAt c;
     updatedAt := updated |}.

(** The note pushed by the pre-save middleware:
    [{ note: `Contact form submitted from ${this.source}`, addedBy: 'system',
       addedAt: new Date() }]. *)
Definition creationNote (now : Z) (c : t) : Note :=
  {| note := "Contact form submitted from " +:+ source c;
     addedBy := "system";
     addedAt := now |}.

(** [contactSchema.pre('save', ...)]: [if (this.isNew) this.notes.push(...)]. *)
Definition preSave (now : Z) (isNew : bool) (c : t) : t :=
  if isNew then set_notes (notes c ++ [creationNote now c]) c else c.

(** The virtual [contactAge]:
    [Math.floor((Date.now() - this.createdAt) / (1000 * 60 * 60 * 24))]. *)
Definition contactAge (now : Z) (c : t) : Z :=
  (now - createdAt c) / (1000 * 60 * 60 * 24).

End Contact.

(** ** models/EmailSubscription.js *)

Module EmailSubscription.

Inductive Status := active | unsubscribed | bounced | complained.
Inductive Source := website_footer | website_popup | manual | import.

#[global] Instance SubscriptionStatus_eq_dec : EqDecision Status.
Proof. solve_decision. Defined.
#[global] Instance Source_eq_dec : EqDecision Source.
Proof. solve_decision. Defined.

Definition statusName (s : Status) : string :=
  match s with
  | active => "active"
  | unsubscribed => "unsubscribed"
  | bounced => "bounced"
  | complained => "complained"
  end.

Definition sourceName (s : Source) : string :=
  match s with
  | website_footer => "website-footer"
  | website_popup => "website-popup"
  | manual => "manual"
  | import => "import"
  end.

(** The status that a string names, if it names one: what the [enum]
    validator of the [status] path lets through. *)
Definition statusOfName (s : string) : option Status :=
  if String.eqb s "active" then Some active
  else if String.eqb s "unsubscribed" then Some unsubscribed
  else if String.eqb s "bounced" then Some bounced
  else if String.eqb s "complained" then Some complained
  else None.

Record Preferences := {
  newsletters : bool;
  promotions : bool;
  updates : bool;
  events : bool
}.

Record Metadata := {
  ipAddress : option string;
  userAgent : option string;
  referrer : option string;
  country : option string;
  city : option string
}.

Record t := {
  _id : nat;
  email : string;
  status : Status;
  source : Source;
  subscriptionDate : Z;
  unsubscriptionDate : option Z;
  unsubscriptionReason : option string;
  preferences : Preferences;
  metadata : Metadata;
  tags : list string;
  emailsSent : Z;
  emailsOpened : Z;
  emailsClicked : Z;
  lastEmailSent : option Z;
  lastEmailOpened : option Z;
  lastEmailClicked : option Z;
  verificationToken : option string;
  isVerified : bool;
  verifiedAt : option Z;
  createdAt : Z;
  updatedAt : Z
}.

#[global] Instance Preferences_eq_dec : EqDecision Preferences.
Proof. solve_decision. Defined.
#[global] Instance Metadata_eq_dec : EqDecision Metadata.
Proof. solve_decision. Defined.
#[global] Instance Subscription_eq_dec : EqDecision t.
Proof. solve_decision. Defined.

(** A document with the paths that subscribe and unsubscribe write set to the
    given values, and the other paths as in [d]. *)
Definition withLifecycle (st : Status) (src : Source) (subDate : Z)
    (unsubDate : option Z) (reason : option string) (prefs : Preferences)
    (meta : Metadata) (verified : option Z) (updated : Z) (d : t) : t :=
  {| _id := _id d; email := email d; status := st; source := src;
     subscriptionDate := subDate; unsubscriptionDate := unsubDate;
     unsubscriptionReason := reason; preferences := prefs; metadata := meta;
     tags := tags d; emailsSent := emailsSent d;
     emailsOpened := emailsOpened d; emailsClicked := emailsClicked d;
     lastEmailSent := lastEmailSent d; lastEmailOpened := lastEmailOpened d;
     lastEmailClicked := lastEmailClicked d;
     verificationToken := verificationToken d; isVerified := isVerified d;
     verifiedAt := verified; createdAt := createdAt d; updatedAt := updated |}.

Definition set_status (st : Status) (d : t) : t :=
  withLifecycle st (source d) (subscriptionDate d) (unsubscriptionDate d)
    (unsubscriptionReason d) (preferences d) (metadata d) (verifiedAt d)
    (updatedAt d) d.

Definition set_source (src : Source) (d : t) : t :=
  withLifecycle (status d) src (subscriptionDate d) (unsubscriptionDate d)
    (unsubscriptionReason d) (preferences d) (metadata d) (verifiedAt d)
    (updatedAt d) d.

Definition set_subscriptionDate (x : Z) (d : t) : t :=
  withLifecycle (status d) (source d) x (unsubscriptionDate d)
    (unsubscriptionReason d) (preferences d) (metadata d) (verifiedAt d)
    (updatedAt d) d.

Definition set_unsubscriptionDate (x : option Z) (d : t) : t :=
  withLifecycle (status d) (source d) (subscriptionDate d) x
    (unsubscriptionReason d) (preferences d) (metadata d) (verifiedAt d)
    (updatedAt d) d.

Definition set_unsubscriptionReason (x : option string) (d : t) : t :=
  withLifecycle (status d) (source d) (subscriptionDate d)
    (unsubscriptionDate d) x (preferences d) (metadata d) (verifiedAt d)
    (updatedAt d) d.

Definition set_preferences (x : Preferences) (d : t) : t :=
  withLifecycle (status d) (source d) (subscriptionDate d)
    (unsubscriptionDate d) (unsubscriptionReason d) x (metadata d)
    (verifiedAt d) (updatedAt d) d.

Definition set_metadata (x : Metadata) (d : t) : t :=
  withLifecycle (status d) (source d) (subscriptionDate d)
    (unsubscriptionDate d) (unsubscriptionReason d) (preferences d) x
    (verifiedAt d) (updatedAt d) d.

Definition set_verifiedAt (x : option Z) (d : t) : t :=
  withLifecycle (status d) (source d) (subscriptionDate d)
    (unsubscriptionDate d) (unsubscriptionReason d) (preferences d)
    (metadata d) x (updatedAt d) d.

Definition set_updatedAt (x : Z) (d : t) : t :=
  withLifecycle (status d) (source d) (subscriptionDate d)
    (unsubscriptionDate d) (unsubscriptionReason d) (preferences d)
    (metadata d) (verifiedAt d) x d.

Definition set_tags (x : list string) (d : t) : t :=
  {| _id := _id d; email := email d; status := status d; source := source d;
     subscriptionDate := subscriptionDate d;
     unsubscriptionDate := unsubscriptionDate d;
     unsubscriptionReason := unsubscriptionReason d;
     preferences := preferences d; metadata := metadata d;
     tags := x; emailsSent := emailsSent d;
     emailsOpened := emailsOpened d; emailsClicked := emailsClicked d;
     lastEmailSent := lastEmailSent d; lastEmailOpened := lastEmailOpened d;
     lastEmailClicked := lastEmailClicked d;
     verificationToken := verificationToken d; isVerified := isVerified d;
     verifiedAt := verifiedAt d; createdAt := createdAt d;
     updatedAt := updatedAt d |}.

(** The virtual [engagementRate]:
    [if (this.emailsSent === 0) return 0;
     return Math.round((this.emailsOpened / this.emailsSent) * 100)]. *)
Definition engagementRate (d : t) : Z :=
  if emailsSent d =? 0 then 0
  else JS.roundPercent (emailsOpened d) (emailsSent d).

(** The virtual [clickRate]. *)
Definition clickRate (d : t) : Z :=
  if emailsOpened d =? 0 then 0
  else JS.roundPercent (emailsClicked d) (emailsOpened d).

(** The virtual [subscriptionDuration]. *)
Definition subscriptionDuration (now : Z) (d : t) : Z :=
  let endDate := default now (unsubscriptionDate d) in
  (endDate - subscriptionDate d) / (1000 * 60 * 60 * 24).

(** [emailSubscriptionSchema.pre('save', ...)]. [modVerified] and [modStatus]
    are [this.isModified('isVerified')] and [this.isModified('status')]; a
    [Date] is truthy and [null] is falsy. *)
Definition preSave (now : Z) (modVerified modStatus : bool) (d : t) : t :=
  let d1 :=
    if modVerified && isVerified d && negb (bool_decide (is_Some (verifiedAt d)))
    then set_verifiedAt (Some now) d else d in
  if modStatus && bool_decide (status d1 = unsubscribed)
     && negb (bool_decide (is_Some (unsubscriptionDate d1)))
  then set_unsubscriptionDate (Some now) d1 else d1.

(** The number stored in a document under a top-level path, as an
    aggregation stage of the store reads it with ['$path']. Only the paths of
    the schema are stored: the virtuals ([engagementRate], [clickRate],
    [subscriptionDuration]) are computed by getters on the loaded document
    and have no stored value. The schema has no other [Number] path. *)
Definition storedNumber (path : string) (d : t) : option Z :=
  if String.eqb path "emailsSent" then Some (emailsSent d)
  else if String.eqb path "emailsOpened" then Some (emailsOpened d)
  else if String.eqb path "emailsClicked" then Some (emailsClicked d)
  else None.

End EmailSubscription.

(** ** The document store, as the controllers use it *)

Module Store.

Section Collection.
Context {D : Type}.

(** [Model.countDocuments(filter)]. *)
Definition countDocuments (p : D -> bool) (db : list D) : Z :=
  Z.of_nat (length (List.filter p db)).

(** [.sort({ key: -1 })]: descending on a date. The store leaves the order
    of documents with equal keys open; the model fixes one. *)
Definition descending (key : D -> Z) : relation D :=
  fun a b => key b <= key a.

#[global] Instance descending_dec (key : D -> Z) : RelDecision (descending key).
Proof. intros a b. unfold descending. apply _. Defined.

Definition sortDesc (key : D -> Z) (docs : list D) : list D :=
  merge_sort (descending key) docs.

(** [.limit(n)]: a positive [n] keeps at most [n] documents and [0] keeps
    all of them; for a negative [n] the store answers with one batch, of
    [batch n] documents at most. *)
Definition applyLimit (batch : Z -> nat) (n : Z) (docs : list D) : list D :=
  if 0 <? n then take (Z.to_nat n) docs
  else if n =? 0 then docs
  else take (batch n) docs.

(** [Model.find(filter).sort({key: -1}).limit(n).skip(k)]: the store sorts,
    skips, then limits, whatever the order of the calls; it refuses a
    negative skip ([None]: the query throws). *)
Definition findSorted (batch : Z -> nat) (p : D -> bool) (key : D -> Z)
    (n k : Z) (db : list D) : option (list D) :=
  if k <? 0 then None
  else Some (applyLimit batch n (drop (Z.to_nat k) (sortDesc key (List.filter p db)))).

(** [{ $group: { _id: '$field', count: { $sum: 1 } } }]: one group per value
    of the field that occurs. The store leaves the order of the groups open;
    the model lists them in order of first occurrence. *)
Fixpoint bump {K} `{EqDecision K} (k : K) (groups : list (K * nat)) : list (K * nat) :=
  match groups with
  | [] => [(k, 1%nat)]
  | (k', n) :: rest =>
      if decide (k = k') then (k', S n) :: rest else (k', n) :: bump k rest
  end.

Definition groupCount {K} `{EqDecision K} (field : D -> K) (db : list D) : list (K * nat) :=
  foldl (fun groups d => bump (field d) groups) [] db.

(** [{ $sum: '$path' }] over the documents of a group: the sum of the values
    that are numbers; a document without a number under the path adds
    nothing. *)
Definition accSum (num : D -> option Z) (docs : list D) : Z :=
  foldr Z.add 0 (omap num docs).

(** [{ $avg: '$path' }] over the documents of a group: the mean of the values
    that are numbers, and [null] ([None]) when no document has one. *)
Definition accAvg (num : D -> option Z) (docs : list D) : option Qc :=
  match omap num docs with
  | [] => None
  | vs => Some (Qcdiv (Q2Qc (inject_Z (foldr Z.add 0 vs)))
                      (Q2Qc (inject_Z (Z.of_nat (length vs)))))
  end.

End Collection.

End Store.

(** What the controllers take from outside this repository. *)
Class Externals := {
  (** The store's [{ $regex: pattern, $options: 'i' }]: the test of a string
      against the compiled pattern, or [None] when the store rejects the
      pattern and the query throws. *)
  regexCompile : string -> option (string -> bool);
  (** The number of documents in the single batch sent for a negative limit. *)
  singleBatch : Z -> nat;
  (** The validators of the two schemas ([required], [maxlength], [match]),
      run by [save] on a new document. *)
  contactValid : Contact.t -> bool;
  subscriptionValid : EmailSubscription.t -> bool
}.

(** [res.status(code).json({ success, message, data / errors, ... })]. *)
Inductive Response (A : Type) :=
  | Success (code : nat) (message : option string) (body : A)
  | Failure (code : nat) (message : string) (errors : list string).
Arguments Success {A} code message body.
Arguments Failure {A} code message errors.

(** Why a [save] threw. *)
Inductive SaveError := ValidationError | DuplicateKey.

(** [pagination: { current, pages, total, limit }] and the body of a list
    response. *)
Record Pagination := {
  current : Z;
  pages : Z;
  total : Z;
  limit : Z
}.

Record Page (A : Type) := {
  data : list A;
  pagination : Pagination
}.
Arguments data {A} _.
Arguments pagination {A} _.

(** [req.ip || req.connection.remoteAddress]. *)
Definition clientAddress (ip remoteAddress : option string) : option string :=
  match JS.truthy ip with
  | Some a => Some a
  | None => remoteAddress
  end.

(** [const page = parseInt(req.query.page) || 1] and
    [const limit = parseInt(req.query.limit) || 10]. *)
Definition pageOf (query : gmap string string) : Z :=
  JS.parseIntOr (query !! "page") 1.

Definition limitOf (query : gmap string string) : Z :=
  JS.parseIntOr (query !! "limit") 10.

(** ** controllers/contactController.js *)

Module ContactController.

Record CreateReq := {
  errors : list string;
  body_name : string;
  body_email : string;
  body_phone : string;
  body_description : string;
  ip : option string;
  remoteAddress : option string;
  userAgentHeader : option string
}.

Record Summary := {
  id : nat;
  name : string;
  email : string;
  status : Contact.Status;
  createdAt : Z
}.

(** [req.body.assignedTo] when it is truthy: a value that casts to an
    [ObjectId], or one that does not. *)
Inductive IdValue := ObjectId (oid : nat) | NotAnId.

(** The request of [updateContact]. The handler does not look at the result
    of the route's validators, so [status] and [priority] are any strings
    and [assignedTo] is any value. A falsy value ([null], [0], [false], the
    empty string) is skipped by the [if] of the handler like an absent one;
    a truthy value of [status] or [priority] that is not a string is
    rejected by the schema like a string outside the enumeration. *)
Record UpdateReq := {
  params_id : nat;
  body_status : option string;
  body_priority : option string;
  body_assignedTo : option IdValue;
  body_notes : option string;
  user_name : option string
}.

(** The [ObjectId] of a new document: one that no document of the collection
    has. *)
Definition freshId (db : list Contact.t) : nat :=
  S (foldr Nat.max 0%nat (map Contact._id db)).

(** [new Contact({ name, email, phone, description, ipAddress, userAgent,
    source })] with the schema's setters ([trim], [lowercase]) and defaults;
    [timestamps: true] stamps the document at its first save, which follows
    at once, so the constructor takes the clock. *)
Definition newContact (now : Z) (oid : nat) (name email phone description : string)
    (ipAddress userAgent : option string) (source : string) : Contact.t :=
  {| Contact._id := oid;
     Contact.name := JS.trim name;
     Contact.email := JS.toLowerCase (JS.trim email);
     Contact.phone := JS.trim phone;
     Contact.description := JS.trim description;
     Contact.status := Contact.new;
     Contact.source := source;
     Contact.ipAddress := ipAddress;
     Contact.userAgent := userAgent;
     Contact.notes := [];
     Contact.assignedTo := None;
     Contact.priority := Contact.medium;
     Contact.followUpDate := None;
     Contact.createdAt := now;
     Contact.updatedAt := now |}.

(** [if (x) contact.path = x] on a path with an [enum]: the value the path
    holds afterwards, or [None] when the string written is not of the
    enumeration, which the [save] that follows rejects. *)
Definition written {A : Type} (parse : string -> option A) (x : option string) (old : A)
    : option A :=
  match JS.truthy x with
  | Some s => parse s
  | None => Some old
  end.

(** The assignments of [updateContact] and the validation of [save]: the
    document to be written, or [None] when [save] throws a validation error
    because [status] or [priority] is outside its enumeration or [assignedTo]
    does not cast to an [ObjectId]. *)
Definition applyUpdate (now : Z) (req : UpdateReq) (c : Contact.t) : option Contact.t :=
  status ← written Contact.statusOfName (body_status req) (Contact.status c);
  priority ← written Contact.priorityOfName (body_priority req) (Contact.priority c);
  assignedTo ← match body_assignedTo req with
               | Some (ObjectId u) => Some (Some u)
               | Some NotAnId => None
               | None => Some (Contact.assignedTo c)
               end;
  Some
    {| Contact._id := Contact._id c;
       Contact.name := Contact.name c;
       Contact.email := Contact.email c;
       Contact.phone := Contact.phone c;
       Contact.description := Contact.description c;
       Contact.status := status;
       Contact.source := Contact.source c;
       Contact.ipAddress := Contact.ipAddress c;
       Contact.userAgent := Contact.userAgent c;
       Contact.notes :=
         match JS.truthy (body_notes req) with
         | Some text =>
             Contact.notes c ++
             [{| Contact.note := text;
                 Contact.addedBy := JS.orElse (user_name req) "admin";
                 Contact.addedAt := now |}]
         | None => Contact.notes c
         end;
       Contact.assignedTo := assignedTo;
       Contact.priority := priority;
       Contact.followUpDate := Contact.followUpDate c;
       Contact.createdAt := Contact.createdAt c;
       Contact.updatedAt := Contact.updatedAt c |}.

(** [if (status) query.status = status] and
    [if (priority) query.priority = priority], as tests on a document. *)
Definition eqStatus (query : gmap string string) (c : Contact.t) : bool :=
  match JS.truthy (query !! "status") with
  | Some s => String.eqb (Contact.statusName (Contact.status c)) s
  | None => true
  end.

Definition eqPriority (query : gmap string string) (c : Contact.t) : bool :=
  match JS.truthy (query !! "priority") with
  | Some p => String.eqb (Contact.priorityName (Contact.priority c)) p
  | None => true
  end.

Section WithExternals.
Context `{Externals}.

(** [contact.save()] on a new document: validation, then the pre-save
    middleware, then the insert. *)
Definition saveNew (now : Z) (c : Contact.t) (db : list Contact.t)
    : SaveError + (Contact.t * list Contact.t) :=
  if contactValid c then
    let c' := Contact.preSave now true c in
    inr (c', db ++ [c'])
  else inl ValidationError.

(** [contact.save()] on a document loaded from position [i] as [old], once
    the values written have passed validation ([applyUpdate]):
    [timestamps: true] moves [updatedAt] when a path was modified, that is
    when the document differs from the loaded one. *)
Definition saveLoaded (now : Z) (i : nat) (old c : Contact.t) (db : list Contact.t)
    : Contact.t * list Contact.t :=
  let stamped := if bool_decide (c = old) then c else Contact.set_updatedAt now c in
  let c' := Contact.preSave now false stamped in
  (c', <[i := c']> db).

Definition createContact (now : Z) (req : CreateReq) (db : list Contact.t)
    : Response Summary * list Contact.t :=
  if negb (bool_decide (errors req = [])) then
    (Failure 400 "Validation failed" (errors req), db)
  else
    let ipAddress := clientAddress (ip req) (remoteAddress req) in
    let userAgent := userAgentHeader req in
    match List.find (fun c => String.eqb (Contact.email c) (body_email req)
                              && (now - 24 * 60 * 60 * 1000 <=? Contact.createdAt c)) db with
    | Some _ =>
        (Failure 409 "A contact request with this email was already submitted in the last 24 hours" [], db)
    | None =>
        let contact := newContact now (freshId db) (body_name req) (body_email req)
                         (body_phone req) (body_description req)
                         ipAddress userAgent "website" in
        match saveNew now contact db with
        | inr (c, db') =>
            (Success 201
               (Some "Contact request submitted successfully! We will get back to you soon.")
               {| id := Contact._id c; name := Contact.name c;
                  email := Contact.email c; status := Contact.status c;
                  createdAt := Contact.createdAt c |},
             db')
        | inl _ =>
            (Failure 500 "Failed to submit contact request. Please try again later." [], db)
        end
    end.

Definition updateContact (now : Z) (req : UpdateReq) (db : list Contact.t)
    : Response Contact.t * list Contact.t :=
  match list_find (fun c => Contact._id c = params_id req) db with
  | None => (Failure 404 "Contact not found" [], db)
  | Some (i, contact) =>
      match applyUpdate now req contact with
      | Some updated =>
          let '(c, db') := saveLoaded now i contact updated db in
          (Success 200 (Some "Contact updated successfully") c, db')
      | None => (Failure 500 "Failed to update contact" [], db)
      end
  end.

(** [getContact]: [Contact.findById(req.params.id).populate('assignedTo',
    'name email')]; the contact with the user it is assigned to, or 404. *)
Definition getContact {U : Type} (users : gmap nat U) (oid : nat) (db : list Contact.t)
    : Response (Contact.t * option U) :=
  match list_find (fun c => Contact._id c = oid) db with
  | None => Failure 404 "Contact not found" []
  | Some (_, contact) =>
      Success 200 None (contact, Contact.assignedTo contact ≫= fun u => users !! u)
  end.

(** [deleteContact]: [findById], then [contact.deleteOne()]. *)
Definition deleteContact (oid : nat) (db : list Contact.t)
    : Response unit * list Contact.t :=
  match list_find (fun c => Contact._id c = oid) db with
  | None => (Failure 404 "Contact not found" [], db)
  | Some (i, _) => (Success 200 (Some "Contact deleted successfully") tt, delete i db)
  end.

(** The filter built by [getContacts] from [status], [priority] and
    [search], as a test on documents; [None] when the store rejects the
    search term as a pattern. *)
Definition contactFilter (query : gmap string string) : option (Contact.t -> bool) :=
  match JS.truthy (query !! "search") with
  | Some search =>
      match regexCompile search with
      | Some test =>
          Some (fun c => eqStatus query c && eqPriority query c &&
                         (test (Contact.name c) || test (Contact.email c)
                          || test (Contact.phone c)))
      | None => None
      end
  | None => Some (fun c => eqStatus query c && eqPriority query c)
  end.

(** [.populate('assignedTo', 'name email')]: the contact with the user its
    [assignedTo] names, if there is one. *)
Definition populate {U : Type} (users : gmap nat U) (c : Contact.t) : Contact.t * option U :=
  (c, Contact.assignedTo c ≫= fun u => users !! u).

Definition getContacts {U : Type} (users : gmap nat U) (query : gmap string string)
    (db : list Contact.t) : Response (Page (Contact.t * option U)) :=
  let page := pageOf query in
  let limit := limitOf query in
  match contactFilter query with
  | None => Failure 500 "Failed to fetch contacts" []
  | Some q =>
      match Store.findSorted singleBatch q Contact.createdAt (limit * 1)
              ((page - 1) * limit) db with
      | None => Failure 500 "Failed to fetch contacts" []
      | Some contacts =>
          let total := Store.countDocuments q db in
          Success 200 None
            {| data := map (populate users) contacts;
               pagination := {| current := page;
                                pages := JS.ceilDiv total limit;
                                total := total;
                                limit := limit |} |}
      end
  end.

End WithExternals.

Record Stats := {
  total : Z;
  today : Z;
  thisWeek : Z;
  thisMonth : Z;
  byStatus : list (Contact.Status * nat);
  byPriority : list (Contact.Priority * nat)
}.

(** [startOfToday] and [startOfMonth] are
    [new Date(new Date().setHours(0, 0, 0, 0))] and
    [new Date(new Date().getFullYear(), new Date().getMonth(), 1)], which the
    runtime computes in its local time zone. *)
Definition getContactStats (now startOfToday startOfMonth : Z) (db : list Contact.t)
    : Response Stats :=
  Success 200 None
    {| total := Store.countDocuments (fun _ => true) db;
       today := Store.countDocuments (fun c => startOfToday <=? Contact.createdAt c) db;
       thisWeek := Store.countDocuments
                     (fun c => now - 7 * 24 * 60 * 60 * 1000 <=? Contact.createdAt c) db;
       thisMonth := Store.countDocuments (fun c => startOfMonth <=? Contact.createdAt c) db;
       byStatus := Store.groupCount Contact.status db;
       byPriority := Store.groupCount Contact.priority db |}.

End ContactController.

(** ** controllers/emailController.js *)

Module EmailController.

Import EmailSubscription.

Record SubscribeReq := {
  errors : list string;
  body_email : string;
  body_source : option Source;
  body_preferences : option (gmap string bool);
  ip : option string;
  remoteAddress : option string;
  userAgentHeader : option string;
  refererHeader : option string
}.

Record UnsubscribeReq := {
  unsub_email : string;
  unsub_reason : option string
}.

(** The request of [updateSubscription]. The handler does not look at the
    result of the route's validators, so [status] is any string (a falsy
    value is skipped like an absent one, and a truthy value that is not a
    string is rejected by the schema like a string outside the enumeration)
    and a key of [preferences] holds any value: [Some b] stands for a value
    that the Boolean cast of the schema reads as [b], [None] for one that
    the cast rejects. A flag that is [null], which the cast lets through,
    and [tags] that are not an array of strings are not covered. *)
Record UpdateReq := {
  params_id : nat;
  upd_status : option string;
  upd_preferences : option (gmap string (option bool));
  upd_tags : option (list string)
}.

Record Summary := {
  id : nat;
  email : string;
  status : Status;
  subscriptionDate : Z
}.

Definition summary (d : t) : Summary :=
  {| id := _id d; email := EmailSubscription.email d;
     status := EmailSubscription.status d;
     subscriptionDate := EmailSubscription.subscriptionDate d |}.

(** [{ ...base, ...preferences }] assigned to the [preferences] path: the
    four flags of the schema, each taken from the request object when it has
    that key. *)
Definition mergePreferences (base : Preferences) (p : gmap string bool) : Preferences :=
  {| newsletters := default (newsletters base) (p !! "newsletters");
     promotions := default (promotions base) (p !! "promotions");
     updates := default (updates base) (p !! "updates");
     events := default (events base) (p !! "events") |}.

Definition allTrue : Preferences :=
  {| newsletters := true; promotions := true; updates := true; events := true |}.

(** The keys of [preferences] that the schema knows; the others are dropped
    when the object is assigned to the path. *)
Definition flagNames : list string :=
  ["newsletters"; "promotions"; "updates"; "events"].

(** The cast of an object assigned to [preferences]: its flags as booleans,
    or [None] when the value of a flag is one that the Boolean cast rejects,
    which makes the [save] that follows throw. *)
Definition castPreferences (p : gmap string (option bool)) : option (gmap string bool) :=
  if bool_decide (Exists (fun k => p !! k = Some None) flagNames) then None
  else Some (omap (fun v => v) p).

Definition freshId (db : list t) : nat :=
  S (foldr Nat.max 0%nat (map _id db)).

(** [EmailSubscription.findOne({ email })]: the document and its position. *)
Definition findOne (e : string) (db : list t) : option (nat * t) :=
  list_find (fun d => EmailSubscription.email d = e) db.

(** [new EmailSubscription({ email, source, preferences: { newsletters: true,
    promotions: true, updates: true, events: true, ...preferences },
    metadata: { ipAddress, userAgent, referrer }, isVerified: true,
    verifiedAt: new Date() })] with the schema's setters and defaults. *)
Definition newSubscription (now : Z) (oid : nat) (e : string) (src : Source)
    (p : gmap string bool) (ipAddress userAgent referrer : option string) : t :=
  {| _id := oid;
     EmailSubscription.email := JS.toLowerCase (JS.trim e);
     EmailSubscription.status := active;
     source := src;
     EmailSubscription.subscriptionDate := now;
     unsubscriptionDate := None;
     unsubscriptionReason := None;
     preferences := mergePreferences allTrue p;
     metadata := {| EmailSubscription.ipAddress := ipAddress;
                    EmailSubscription.userAgent := userAgent;
                    EmailSubscription.referrer := referrer;
                    country := None; city := None |};
     tags := [];
     emailsSent := 0;
     emailsOpened := 0;
     emailsClicked := 0;
     lastEmailSent := None;
     lastEmailOpened := None;
     lastEmailClicked := None;
     verificationToken := None;
     isVerified := true;
     verifiedAt := Some now;
     createdAt := now;
     updatedAt := now |}.

(** The assignments of the reactivation branch of [subscribeEmail]. *)
Definition reactivate (now : Z) (src : Source) (p : gmap string bool)
    (ipAddress userAgent referrer : option string) (d : t) : t :=
  let d1 := set_status active d in
  let d2 := set_subscriptionDate now d1 in
  let d3 := set_unsubscriptionDate None d2 in
  let d4 := set_unsubscriptionReason None d3 in
  let d5 := set_source src d4 in
  let d6 := set_metadata
              {| EmailSubscription.ipAddress := ipAddress;
                 EmailSubscription.userAgent := userAgent;
                 EmailSubscription.referrer := referrer;
                 country := country (metadata d5);
                 city := city (metadata d5) |} d5 in
  if bool_decide (0 < size p)%nat
  then set_preferences (mergePreferences (preferences d6) p) d6
  else d6.

(** [subscription.save()] on a document loaded from position [i] as [old],
    once the values written have passed validation: [isModified] compares
    with the loaded value, and [timestamps: true] moves [updatedAt] when a
    path was modified. *)
Definition saveLoaded (now : Z) (i : nat) (old d : t) (db : list t) : t * list t :=
  let modVerified := negb (bool_decide (isVerified d = isVerified old)) in
  let modStatus :=
    negb (bool_decide (EmailSubscription.status d = EmailSubscription.status old)) in
  let stamped := if bool_decide (d = old) then d else set_updatedAt now d in
  let d' := preSave now modVerified modStatus stamped in
  (d', <[i := d']> db).

Section WithExternals.
Context `{Externals}.

(** [subscription.save()] on a new document: validation, the pre-save
    middleware, then the insert, which the unique index on [email] rejects
    when a document of the collection has the same address. *)
Definition saveNew (now : Z) (d : t) (db : list t) : SaveError + (t * list t) :=
  if subscriptionValid d then
    let d' := preSave now true false d in
    if bool_decide (Exists (fun x => EmailSubscription.email x = EmailSubscription.email d') db)
    then inl DuplicateKey
    else inr (d', db ++ [d'])
  else inl ValidationError.

(** [subscribeEmail] from the point where [findOne] has resolved to [found]:
    [db] is the collection at the time of the later [save]. A request handled
    alone sees the same collection at both points; between the two awaits
    other requests may run. *)
Definition subscribeAfterFind (now : Z) (req : SubscribeReq)
    (found : option (nat * t)) (db : list t) : Response Summary * list t :=
  let email := body_email req in
  let source := default website_footer (body_source req) in
  let preferences := default ∅ (body_preferences req) in
  let ipAddress := clientAddress (ip req) (remoteAddress req) in
  let userAgent := userAgentHeader req in
  let referrer := refererHeader req in
  let create :=
    let subscription :=
      newSubscription now (freshId db) email source preferences
        ipAddress userAgent referrer in
    match saveNew now subscription db with
    | inr (d, db') =>
        (Success 201
           (Some "Thank you for subscribing! You will receive our latest updates and offers.")
           (summary d), db')
    | inl _ => (Failure 500 "Failed to subscribe. Please try again later." [], db)
    end in
  match found with
  | Some (i, existingSubscription) =>
      if bool_decide (EmailSubscription.status existingSubscription = active) then
        (Failure 409 "This email is already subscribed to our newsletter" [], db)
      else if bool_decide (EmailSubscription.status existingSubscription = unsubscribed) then
        let '(d, db') :=
          saveLoaded now i existingSubscription
            (reactivate now source preferences ipAddress userAgent referrer
               existingSubscription) db in
        (Success 200
           (Some "Welcome back! Your email subscription has been reactivated.")
           (summary d), db')
      else create
  | None => create
  end.

Definition subscribeEmail (now : Z) (req : SubscribeReq) (db : list t)
    : Response Summary * list t :=
  if negb (bool_decide (errors req = [])) then
    (Failure 400 "Validation failed" (errors req), db)
  else subscribeAfterFind now req (findOne (body_email req) db) db.

End WithExternals.

Definition unsubscribeEmail (now : Z) (req : UnsubscribeReq) (db : list t)
    : Response unit * list t :=
  match findOne (unsub_email req) db with
  | None => (Failure 404 "Email not found in our subscription list" [], db)
  | Some (i, subscription) =>
      if bool_decide (EmailSubscription.status subscription = unsubscribed) then
        (Failure 400 "This email is already unsubscribed" [], db)
      else
        let s1 := set_status unsubscribed subscription in
        let s2 := set_unsubscriptionDate (Some now) s1 in
        let s3 := set_unsubscriptionReason
                    (Some (JS.orElse (unsub_reason req) "User requested")) s2 in
        let '(_, db') := saveLoaded now i subscription s3 db in
        (Success 200
           (Some "You have been successfully unsubscribed from our mailing list") tt,
         db')
  end.

(** The assignments of [updateSubscription] and the validation of [save]:
    the document to be written, or [None] when [save] throws a validation
    error because [status] is outside its enumeration or a flag of
    [preferences] does not cast to a Boolean. *)
Definition applyUpdate (req : UpdateReq) (subscription : t) : option t :=
  s1 ← match JS.truthy (upd_status req) with
        | Some s => (fun st => set_status st subscription) <$> statusOfName s
        | None => Some subscription
        end;
  s2 ← match upd_preferences req with
        | Some p =>
            (fun flags => set_preferences (mergePreferences (preferences s1) flags) s1)
              <$> castPreferences p
        | None => Some s1
        end;
  Some (match upd_tags req with
        | Some ts => set_tags (map JS.trim ts) s2
        | None => s2
        end).

Definition updateSubscription (now : Z) (req : UpdateReq) (db : list t)
    : Response t * list t :=
  match list_find (fun d => _id d = params_id req) db with
  | None => (Failure 404 "Subscription not found" [], db)
  | Some (i, subscription) =>
      match applyUpdate req subscription with
      | Some updated =>
          let '(d, db') := saveLoaded now i subscription updated db in
          (Success 200 (Some "Subscription updated successfully") d, db')
      | None => (Failure 500 "Failed to update subscription" [], db)
      end
  end.

(** [deleteSubscription]: [findById], then [subscription.deleteOne()]. *)
Definition deleteSubscription (oid : nat) (db : list t) : Response unit * list t :=
  match list_find (fun d => _id d = oid) db with
  | None => (Failure 404 "Email subscription not found" [], db)
  | Some (i, _) =>
      (Success 200 (Some "Email subscription deleted successfully") tt, delete i db)
  end.

(** [EmailSubscription.findActiveSubscribers()], the static of the model:
    [this.find({ status: 'active', isVerified: true })]. *)
Definition findActiveSubscribers (db : list t) : list t :=
  List.filter (fun d => bool_decide (EmailSubscription.status d = active) && isVerified d) db.

(** [if (status) query.status = status] and
    [if (source) query.source = source], as tests on a document. *)
Definition eqStatus (query : gmap string string) (d : t) : bool :=
  match JS.truthy (query !! "status") with
  | Some s => String.eqb (statusName (EmailSubscription.status d)) s
  | None => true
  end.

Definition eqSource (query : gmap string string) (d : t) : bool :=
  match JS.truthy (query !! "source") with
  | Some s => String.eqb (sourceName (source d)) s
  | None => true
  end.

Section Listing.
Context `{Externals}.

(** The filter built by [getSubscriptions] from [status], [source] and
    [search]; [None] when the store rejects the search term as a pattern. *)
Definition subscriptionFilter (query : gmap string string) : option (t -> bool) :=
  match JS.truthy (query !! "search") with
  | Some search =>
      match regexCompile search with
      | Some test =>
          Some (fun d => eqStatus query d && eqSource query d
                         && test (EmailSubscription.email d))
      | None => None
      end
  | None => Some (fun d => eqStatus query d && eqSource query d)
  end.

Definition getSubscriptions (query : gmap string string) (db : list t)
    : Response (Page t) :=
  let page := pageOf query in
  let limit := limitOf query in
  match subscriptionFilter query with
  | None => Failure 500 "Failed to fetch subscriptions" []
  | Some q =>
      match Store.findSorted singleBatch q EmailSubscription.subscriptionDate
              (limit * 1) ((page - 1) * limit) db with
      | None => Failure 500 "Failed to fetch subscriptions" []
      | Some subscriptions =>
          let total := Store.countDocuments q db in
          Success 200 None
            {| data := subscriptions;
               pagination := {| current := page;
                                pages := JS.ceilDiv total limit;
                                total := total;
                                limit := limit |} |}
      end
  end.

End Listing.

(** [EmailSubscription.getStats()], the static of the model. *)
Definition getStats (db : list t) : list (Status * nat) :=
  Store.groupCount EmailSubscription.status db.

(** One document of the engagement aggregation; [avgEngagementRate] is
    [None] when the store computes [null]. *)
Record Engagement := {
  totalEmailsSent : Z;
  totalEmailsOpened : Z;
  totalEmailsClicked : Z;
  avgEngagementRate : option Qc
}.

(** [EmailSubscription.aggregate([{ $match: { status: 'active' } },
    { $group: { _id: null, totalEmailsSent: { $sum: '$emailsSent' },
      totalEmailsOpened: { $sum: '$emailsOpened' },
      totalEmailsClicked: { $sum: '$emailsClicked' },
      avgEngagementRate: { $avg: '$engagementRate' } } }])]: a group stage
    over no document gives no group. *)
Definition engagementStats (db : list t) : list Engagement :=
  match List.filter (fun d => bool_decide (EmailSubscription.status d = active)) db with
  | [] => []
  | rows =>
      [{| totalEmailsSent := Store.accSum (storedNumber "emailsSent") rows;
          totalEmailsOpened := Store.accSum (storedNumber "emailsOpened") rows;
          totalEmailsClicked := Store.accSum (storedNumber "emailsClicked") rows;
          avgEngagementRate := Store.accAvg (storedNumber "engagementRate") rows |}]
  end.

Record Stats := {
  total : Z;
  active_ : Z;
  today : Z;
  thisWeek : Z;
  thisMonth : Z;
  byStatus : list (Status * nat);
  bySource : list (Source * nat);
  engagement : Engagement
}.

(** [startOfToday] and [startOfMonth] as in [getContactStats]. *)
Definition getEmailStats (now startOfToday startOfMonth : Z) (db : list t)
    : Response Stats :=
  let stats := getStats db in
  let sourceStats := Store.groupCount source db in
  Success 200 None
    {| total := Store.countDocuments (fun _ => true) db;
       active_ := Store.countDocuments
                    (fun d => bool_decide (EmailSubscription.status d = active)) db;
       today := Store.countDocuments
                  (fun d => startOfToday <=? EmailSubscription.subscriptionDate d) db;
       thisWeek := Store.countDocuments
                     (fun d => now - 7 * 24 * 60 * 60 * 1000
                               <=? EmailSubscription.subscriptionDate d) db;
       thisMonth := Store.countDocuments
                      (fun d => startOfMonth <=? EmailSubscription.subscriptionDate d) db;
       byStatus := stats;
       bySource := sourceStats;
       engagement :=
         default {| totalEmailsSent := 0; totalEmailsOpened := 0;
                    totalEmailsClicked := 0; avgEngagementRate := Some (Q2Qc 0) |}
                 (head (engagementStats db)) |}.

End EmailController.

(** ** routes/dashRoutes.js: [GET /analytics] *)

Module Dashboard.

(** The [switch (period)] of the handler: the start of the window, [now]
    less 7, 30, 90 or 365 days, and 30 days for any other value. *)
Definition dateRangeOf (now : Z) (period : string) : Z :=
  if String.eqb period "7d" then now - 7 * 24 * 60 * 60 * 1000
  else if String.eqb period "30d" then now - 30 * 24 * 60 * 60 * 1000
  else if String.eqb period "90d" then now - 90 * 24 * 60 * 60 * 1000
  else if String.eqb period "1y" then now - 365 * 24 * 60 * 60 * 1000
  else now - 30 * 24 * 60 * 60 * 1000.

(** [[{ $match }, { $group: { _id: '$field', count: { $sum: 1 } } },
    { $sort: { count: -1 } }, { $limit: 10 }]] on the documents that passed
    the match. *)
Definition topTen {D K} `{EqDecision K} (field : D -> K) (docs : list D) : list (K * nat) :=
  take 10 (Store.sortDesc (fun g => Z.of_nat g.2) (Store.groupCount field docs)).

Record Engagement := {
  totalSubscribers : Z;
  totalEmailsSent : Z;
  totalEmailsOpened : Z;
  totalEmailsClicked : Z;
  avgEngagementRate : option Qc
}.

Record TopSources := {
  contacts : list (string * nat);
  emails : list (EmailSubscription.Source * nat)
}.

Record Analytics := {
  period : string;
  dateRange : Z;
  contactFunnel : list (Contact.Status * nat);
  emailEngagement : Engagement;
  topSources : TopSources
}.

(** The engagement aggregation of the handler, over the active
    subscriptions of the window. *)
Definition emailEngagementStats (since : Z) (db : list EmailSubscription.t)
    : list Engagement :=
  match List.filter
          (fun d => (since <=? EmailSubscription.subscriptionDate d)
                    && bool_decide (EmailSubscription.status d = EmailSubscription.active))
          db with
  | [] => []
  | rows =>
      [{| totalSubscribers := Z.of_nat (length rows);
          totalEmailsSent := Store.accSum (EmailSubscription.storedNumber "emailsSent") rows;
          totalEmailsOpened := Store.accSum (EmailSubscription.storedNumber "emailsOpened") rows;
          totalEmailsClicked := Store.accSum (EmailSubscription.storedNumber "emailsClicked") rows;
          avgEngagementRate :=
            Store.accAvg (EmailSubscription.storedNumber "engagementRate") rows |}]
  end.

(** The handler of [GET /api/dashboard/analytics], once the request is
    authenticated: [const { period = '30d' } = req.query]. *)
Definition analytics (now : Z) (query : gmap string string)
    (contactsDb : list Contact.t) (subscriptionsDb : list EmailSubscription.t)
    : Response Analytics :=
  let period := default "30d" (query !! "period") in
  let dateRange := dateRangeOf now period in
  let recentContacts :=
    List.filter (fun c => dateRange <=? Contact.createdAt c) contactsDb in
  let recentSubscriptions :=
    List.filter (fun d => dateRange <=? EmailSubscription.subscriptionDate d)
      subscriptionsDb in
  Success 200 None
    {| period := period;
       dateRange := dateRange;
       contactFunnel := Store.groupCount Contact.status recentContacts;
       emailEngagement :=
         default {| totalSubscribers := 0; totalEmailsSent := 0;
                    totalEmailsOpened := 0; totalEmailsClicked := 0;
                    avgEngagementRate := Some (Q2Qc 0) |}
                 (head (emailEngagementStats dateRange subscriptionsDb));
       topSources :=
         {| contacts := topTen Contact.source recentContacts;
            emails := topTen EmailSubscription.source recentSubscriptions |} |}.

End Dashboard.

(** ** What the collections keep *)

Module Invariant.

(** The unique index on [email]: no two subscriptions have the same
    address. *)
Definition uniqueEmails (db : list EmailSubscription.t) : Prop :=
  NoDup (EmailSubscription.email <$> db).

(** No two documents of a collection have the same [_id]. *)
Definition uniqueContactIds (db : list Contact.t) : Prop :=
  NoDup (Contact._id <$> db).

Definition uniqueSubscriptionIds (db : list EmailSubscription.t) : Prop :=
  NoDup (EmailSubscription._id <$> db).

(** What the pre-save middleware of the subscription schema is there for: an
    unsubscribed document has its [unsubscriptionDate], a verified one its
    [verifiedAt]. *)
Definition stamped (d : EmailSubscription.t) : Prop :=
  (EmailSubscription.status d = EmailSubscription.unsubscribed ->
   is_Some (EmailSubscription.unsubscriptionDate d)) ∧
  (EmailSubscription.isVerified d = true -> is_Some (EmailSubscription.verifiedAt d)).

(** An address that the schema's setters leave as it is. *)
Definition normalised (e : string) : Prop :=
  JS.toLowerCase (JS.trim e) = e.

End Invariant.

(** ** A regular-expression engine for the simplest patterns

    An engine that knows the patterns made of ordinary characters and [.]
    only, and gives them the meaning the store's engine gives them: the
    subject has a substring that the pattern matches position by position, an
    ordinary character matching itself up to case and [.] matching any
    character but a line feed. It rejects a pattern with any other
    metacharacter; the statements below run it on the patterns it knows. *)

Module RegexLite.

Definition metacharacters : list ascii :=
  ["\"; "^"; "$"; "*"; "+"; "?"; "("; ")"; "["; "]"; "{"; "}"; "|"]%char.

Definition isMeta (c : ascii) : bool :=
  bool_decide (c ∈ metacharacters).

Fixpoint anyChar (f : ascii -> bool) (s : string) : bool :=
  match s with
  | String c r => f c || anyChar f r
  | EmptyString => false
  end.

Definition atom (p c : ascii) : bool :=
  if Ascii.eqb p "." then negb (Ascii.eqb c "010")
  else Ascii.eqb (JS.toLower p) (JS.toLower c).

Fixpoint matchHere (pat s : string) : bool :=
  match pat with
  | EmptyString => true
  | String p pat' =>
      match s with
      | String c s' => atom p c && matchHere pat' s'
      | EmptyString => false
      end
  end.

Fixpoint search (pat s : string) : bool :=
  matchHere pat s ||
  match s with
  | String _ s' => search pat s'
  | EmptyString => false
  end.

Definition compile (pat : string) : option (string -> bool) :=
  if anyChar isMeta pat then None else Some (search pat).

(** A term in which no character has a meaning in a pattern. *)
Definition plain (term : string) : bool :=
  negb (anyChar (fun c => isMeta c || Ascii.eqb c ".") term).

End RegexLite.

(** An environment to run the controllers in: the engine above, single
    batches of 101 documents at most, and schemas that accept any document
    with a non-empty e-mail address. *)
Definition liteExternals : Externals :=
  {| regexCompile := RegexLite.compile;
     singleBatch := fun n => Nat.min (Z.abs_nat n) 101;
     contactValid := fun c => negb (String.eqb (Contact.email c) "");
     subscriptionValid := fun d => negb (String.eqb (EmailSubscription.email d) "") |}.

(** ** What a list query selects *)

Section Selection.
Context `{Externals} {U : Type}.

(** The two list handlers, at [query], select the contacts that pass [qc]
    and the subscriptions that pass [qs]: whenever a handler answers 200,
    [total] counts the documents that pass and [data] is a window of them,
    sorted, starting after the first [(page - 1) * limit] and of [limit]
    documents at most when [limit] is positive; and the handlers do answer
    200 for a page and a page size of at least 1. *)
Definition selects (users : gmap nat U) (query : gmap string string)
    (qc : Contact.t -> bool) (qs : EmailSubscription.t -> bool) : Prop :=
  (∀ (db : list Contact.t) code msg pg,
     ContactController.getContacts users query db = Success code msg pg ->
     total (pagination pg) = Store.countDocuments qc db ∧
     ∃ n, data pg =
            map (ContactController.populate users)
              (take n
                 (drop (Z.to_nat ((pageOf query - 1) * limitOf query))
                    (Store.sortDesc Contact.createdAt (List.filter qc db)))) ∧
          (0 < limitOf query -> n = Z.to_nat (limitOf query))) ∧
  (∀ (db : list EmailSubscription.t) code msg pg,
     EmailController.getSubscriptions query db = Success code msg pg ->
     total (pagination pg) = Store.countDocuments qs db ∧
     ∃ n, data pg =
            take n
              (drop (Z.to_nat ((pageOf query - 1) * limitOf query))
                 (Store.sortDesc EmailSubscription.subscriptionDate
                    (List.filter qs db))) ∧
          (0 < limitOf query -> n = Z.to_nat (limitOf query))) ∧
  (1 <= pageOf query -> 1 <= limitOf query ->
   (∀ db : list Contact.t,
      ∃ pg, ContactController.getContacts users query db = Success 200 None pg) ∧
   (∀ db : list EmailSubscription.t,
      ∃ pg, EmailController.getSubscriptions query db = Success 200 None pg)).

End Selection.

(** ** What the specification says, for comparison *)

Module Spec.

(** "case-insensitive substring search ... the search term is escaped/treated
    literally": [term] occurs in [s] as it stands, up to the case of
    letters. *)
Fixpoint prefixCI (term s : string) : bool :=
  match term with
  | EmptyString => true
  | String p term' =>
      match s with
      | String c s' => Ascii.eqb (JS.toLower p) (JS.toLower c) && prefixCI term' s'
      | EmptyString => false
      end
  end.

Fixpoint containsCI (term s : string) : bool :=
  prefixCI term s ||
  match s with
  | String _ s' => containsCI term s'
  | EmptyString => false
  end.

(** "the mean of each row's derived engagementRate" over the active rows,
    "if no rows match, every field reports 0". *)
Definition meanEngagementRate (db : list EmailSubscription.t) : Qc :=
  match List.filter (fun d => bool_decide (EmailSubscription.status d = EmailSubscription.active)) db with
  | [] => Q2Qc 0
  | rows =>
      Qcdiv (Q2Qc (inject_Z (foldr Z.add 0 (map EmailSubscription.engagementRate rows))))
            (Q2Qc (inject_Z (Z.of_nat (length rows))))
  end.

(** "totalPages = ceil(total/pageSize)": [p] is the least integer that is at
    least the quotient of [a] by [b], for [b] not zero. *)
Definition isCeiling (a b p : Z) : Prop :=
  if 0 <? b then (p - 1) * b < a <= p * b else p * b <= a < (p - 1) * b.

(** "counts grouped by a categorical field": how many documents carry the
    value [k] in the field. *)
Definition countWith {D K} `{EqDecision K} (field : D -> K) (k : K) (db : list D) : nat :=
  length (List.filter (fun d => bool_decide (field d = k)) db).

End Spec.

(** The sum of the counts of a list of groups. *)
Definition sumCounts {K} (groups : list (K * nat)) : nat :=
  foldr (fun kn acc => (kn.2 + acc)%nat) 0%nat groups.

(** The count a list of groups holds for a key, [0] when it has no group. *)
Fixpoint getCount {K} `{EqDecision K} (k : K) (groups : list (K * nat)) : nat :=
  match groups with
  | [] => 0%nat
  | (k', n) :: rest => if decide (k = k') then n else getCount k rest
  end.

(** ** Sample documents and requests *)

Module Examples.

(** A verified subscription with the given status and counters. *)
Definition subscription (oid : nat) (e : string) (st : EmailSubscription.Status)
    (sent opened clicked : Z) : EmailSubscription.t :=
  {| EmailSubscription._id := oid;
     EmailSubscription.email := e;
     EmailSubscription.status := st;
     EmailSubscription.source := EmailSubscription.website_footer;
     EmailSubscription.subscriptionDate := 1000;
     EmailSubscription.unsubscriptionDate := None;
     EmailSubscription.unsubscriptionReason := None;
     EmailSubscription.preferences :=
       {| EmailSubscription.newsletters := true;
          EmailSubscription.promotions := false;
          EmailSubscription.updates := true;
          EmailSubscription.events := true |};
     EmailSubscription.metadata :=
       {| EmailSubscription.ipAddress := Some "10.0.0.1";
          EmailSubscription.userAgent := None;
          EmailSubscription.referrer := None;
          EmailSubscription.country := Some "FR";
          EmailSubscription.city := None |};
     EmailSubscription.tags := [];
     EmailSubscription.emailsSent := sent;
     EmailSubscription.emailsOpened := opened;
     EmailSubscription.emailsClicked := clicked;
     EmailSubscription.lastEmailSent := None;
     EmailSubscription.lastEmailOpened := None;
     EmailSubscription.lastEmailClicked := None;
     EmailSubscription.verificationToken := None;
     EmailSubscription.isVerified := true;
     EmailSubscription.verifiedAt := Some 1000;
     EmailSubscription.createdAt := 1000;
     EmailSubscription.updatedAt := 1000 |}.

Definition subscribeReq (e : string) (p : option (gmap string bool))
    : EmailController.SubscribeReq :=
  {| EmailController.errors := [];
     EmailController.body_email := e;
     EmailController.body_source := Some EmailSubscription.website_popup;
     EmailController.body_preferences := p;
     EmailController.ip := Some "10.0.0.2";
     EmailController.remoteAddress := None;
     EmailController.userAgentHeader := Some "curl";
     EmailController.refererHeader := None |}.

Definition contact (oid : nat) (n e ph : string) (created : Z) : Contact.t :=
  {| Contact._id := oid;
     Contact.name := n;
     Contact.email := e;
     Contact.phone := ph;
     Contact.description := "a request for valet parking";
     Contact.status := Contact.new;
     Contact.source := "website";
     Contact.ipAddress := None;
     Contact.userAgent := None;
     Contact.notes := [];
     Contact.assignedTo := None;
     Contact.priority := Contact.medium;
     Contact.followUpDate := None;
     Contact.createdAt := created;
     Contact.updatedAt := created |}.

(** Twenty-five contacts, created one millisecond apart. *)
Definition contacts25 : list Contact.t :=
  map (fun i => contact i "guest" "guest@example.com" "0123456789" (Z.of_nat i))
      (seq 0 25).

Definition createReq : ContactController.CreateReq :=
  {| ContactController.errors := [];
     ContactController.body_name := "Ada";
     ContactController.body_email := "ada@example.com";
     ContactController.body_phone := "0123456789";
     ContactController.body_description := "a request for valet parking";
     ContactController.ip := Some "10.0.0.3";
     ContactController.remoteAddress := None;
     ContactController.userAgentHeader := None |}.

End Examples.

(** * Properties *)

(** ** Grouped counts *)

Section GroupCount.
Context {D K : Type} `{EqDecision K}.
Implicit Types (g : list (K * nat)) (k : K).

Lemma getCount_bump k k' g :
  getCount k' (Store.bump k g) =
  if decide (k' = k) then S (getCount k' g) else getCount k' g.
Proof.
  induction g as [|[k0 n] g IH]; simpl.
  - repeat case_decide; congruence.
  - destruct (decide (k = k0)) as [->|Hne]; simpl.
    + repeat case_decide; congruence.
    + rewrite IH. repeat case_decide; congruence.
Qed.

Lemma bump_keys k g :
  (Store.bump k g).*1 = if decide (k ∈ g.*1) then g.*1 else g.*1 ++ [k].
Proof.
  induction g as [|[k0 n] g IH].
  - rewrite decide_False by apply not_elem_of_nil. done.
  - cbn [Store.bump]. destruct (decide (k = k0)) as [->|Hne].
    + rewrite decide_True by (rewrite fmap_cons; apply list_elem_of_here). done.
    + rewrite !fmap_cons, IH. cbn [fst]. destruct (decide (k ∈ g.*1)) as [Hin|Hnin].
      * rewrite decide_True by (by apply list_elem_of_further). done.
      * rewrite decide_False; [done|]. intros [?|?]%elem_of_cons; congruence.
Qed.

Lemma bump_NoDup k g : NoDup g.*1 -> NoDup (Store.bump k g).*1.
Proof.
  intros Hnd. rewrite bump_keys. case_decide as Hin; [done|].
  apply NoDup_app. split_and!; [done| |apply NoDup_singleton].
  intros x Hx ->%list_elem_of_singleton. done.
Qed.

Lemma bump_positive k g :
  Forall (fun kn => (0 < kn.2)%nat) g ->
  Forall (fun kn => (0 < kn.2)%nat) (Store.bump k g).
Proof.
  induction 1 as [|[k0 n] g Hn Hg IH]; simpl.
  - repeat constructor.
  - case_decide; constructor; simpl in *; auto with lia.
Qed.

Lemma bump_sum k g : sumCounts (Store.bump k g) = S (sumCounts g).
Proof.
  induction g as [|[k0 n] g IH]; [done|].
  cbn [Store.bump]. unfold sumCounts in *. case_decide; cbn [foldr snd]; lia.
Qed.

Lemma getCount_elem_of k n g :
  NoDup g.*1 -> (k, n) ∈ g -> getCount k g = n.
Proof.
  induction g as [|[k0 n0] g IH]; simpl; intros Hnd Hin.
  - by apply elem_of_nil in Hin.
  - apply NoDup_cons in Hnd as [Hk0 Hnd].
    apply elem_of_cons in Hin as [Heq|Hin].
    + inversion Heq; subst. by rewrite decide_True.
    + rewrite decide_False; [by apply IH|].
      intros ->. apply Hk0. apply list_elem_of_fmap. by exists (k0, n).
Qed.

Lemma elem_of_getCount k g :
  (0 < getCount k g)%nat -> (k, getCount k g) ∈ g.
Proof.
  induction g as [|[k0 n0] g IH]; simpl; [lia|].
  case_decide as Hk; [subst; left | right; auto].
Qed.

Lemma countWith_snoc (field : D -> K) k (db : list D) d :
  Spec.countWith field k (db ++ [d]) =
  if decide (k = field d) then S (Spec.countWith field k db)
  else Spec.countWith field k db.
Proof.
  unfold Spec.countWith. rewrite List.filter_app, length_app. simpl.
  case_bool_decide; case_decide; simpl; try congruence; lia.
Qed.

Lemma groupCount_snoc (field : D -> K) (db : list D) d :
  Store.groupCount field (db ++ [d]) = Store.bump (field d) (Store.groupCount field db).
Proof. unfold Store.groupCount. by rewrite foldl_app. Qed.

Lemma groupCount_invariant (field : D -> K) (db : list D) :
  NoDup ((Store.groupCount field db).*1) ∧
  Forall (fun kn => (0 < kn.2)%nat) (Store.groupCount field db) ∧
  (∀ k, getCount k (Store.groupCount field db) = Spec.countWith field k db) ∧
  sumCounts (Store.groupCount field db) = length db.
Proof.
  induction db as [|d db IH] using rev_ind.
  - split_and!; [constructor|constructor|done|done].
  - destruct IH as (Hnd & Hpos & Hcnt & Hsum).
    rewrite groupCount_snoc. split_and!.
    + by apply bump_NoDup.
    + by apply bump_positive.
    + intros k. rewrite getCount_bump, countWith_snoc, Hcnt. done.
    + rewrite bump_sum, Hsum, length_app. simpl. lia.
Qed.

(** A group is reported for a value exactly when some document carries the
    value, and it holds the number of those documents. *)
Lemma groupCount_spec (field : D -> K) (db : list D) k n :
  (k, n) ∈ Store.groupCount field db <->
  n = Spec.countWith field k db ∧ (0 < n)%nat.
Proof.
  destruct (groupCount_invariant field db) as (Hnd & Hpos & Hcnt & _).
  split.
  - intros Hin. split.
    + rewrite <- Hcnt. symmetry. by apply getCount_elem_of.
    + by apply (proj1 (Forall_forall _ _) Hpos (k, n)).
  - intros [-> Hn]. rewrite <- Hcnt in *. by apply elem_of_getCount.
Qed.

Lemma groupCount_total (field : D -> K) (db : list D) :
  Z.of_nat (sumCounts (Store.groupCount field db)) = Store.countDocuments (fun _ => true) db.
Proof.
  destruct (groupCount_invariant field db) as (_ & _ & _ & ->).
  unfold Store.countDocuments. f_equal.
  induction db; simpl; congruence.
Qed.

Lemma groupCount_keys_NoDup (field : D -> K) (db : list D) :
  NoDup (Store.groupCount field db).*1.
Proof. apply groupCount_invariant. Qed.

End GroupCount.

(** C7. The grouped counts of the two statistics handlers: a group
    [(value, n)] is reported exactly when [n] documents carry the value and
    [n] is not zero, so every value that occurs has its group with its count
    and a value that does not occur has none; no value has two groups; and
    the counts of the [byStatus] groups add up to [total], the count of all
    the documents of the collection. *)
Theorem stats_grouped_counts (now startOfToday startOfMonth : Z)
    (contacts : list Contact.t) (subscriptions : list EmailSubscription.t) :
  (∃ st, ContactController.getContactStats now startOfToday startOfMonth contacts
           = Success 200 None st ∧
     (∀ s n, (s, n) ∈ ContactController.byStatus st ↔
             n = Spec.countWith Contact.status s contacts ∧ (0 < n)%nat) ∧
     (∀ p n, (p, n) ∈ ContactController.byPriority st ↔
             n = Spec.countWith Contact.priority p contacts ∧ (0 < n)%nat) ∧
     NoDup (ContactController.byStatus st).*1 ∧
     NoDup (ContactController.byPriority st).*1 ∧
     Z.of_nat (sumCounts (ContactController.byStatus st)) = ContactController.total st ∧
     ContactController.total st = Z.of_nat (length contacts)) ∧
  (∃ st, EmailController.getEmailStats now startOfToday startOfMonth subscriptions
           = Success 200 None st ∧
     (∀ s n, (s, n) ∈ EmailController.byStatus st ↔
             n = Spec.countWith EmailSubscription.status s subscriptions ∧ (0 < n)%nat) ∧
     (∀ s n, (s, n) ∈ EmailController.bySource st ↔
             n = Spec.countWith EmailSubscription.source s subscriptions ∧ (0 < n)%nat) ∧
     NoDup (EmailController.byStatus st).*1 ∧
     NoDup (EmailController.bySource st).*1 ∧
     Z.of_nat (sumCounts (EmailController.byStatus st)) = EmailController.total st ∧
     EmailController.total st = Z.of_nat (length subscriptions)).
Proof.
  split; eexists; (split; [reflexivity|]); cbn;
    unfold EmailController.getStats;
    (split_and!;
      [ intros; apply groupCount_spec
      | intros; apply groupCount_spec
      | apply groupCount_keys_NoDup
      | apply groupCount_keys_NoDup
      | apply groupCount_total
      | rewrite <- groupCount_total with (field := fun _ => tt);
        f_equal; apply groupCount_invariant ]).
Qed.

(** ** The engagement summary *)

Lemma engagementRate_unsent (d : EmailSubscription.t) :
  EmailSubscription.emailsSent d = 0 -> EmailSubscription.engagementRate d = 0.
Proof. unfold EmailSubscription.engagementRate. by intros ->. Qed.

Example engagementRate_50_10 :
  EmailSubscription.engagementRate
    (Examples.subscription 1 "a@example.com" EmailSubscription.active 50 10 2) = 20.
Proof. reflexivity. Qed.

(** *** The rounding of doubles *)

(** [JS.rne n d] is within a half of [n / d]. *)
Lemma rne_spec (n d : Z) : 0 < d -> -d <= 2 * (JS.rne n d * d - n) <= d.
Proof.
  intros Hd. unfold JS.rne.
  pose proof (Z.div_mod n d ltac:(lia)) as Hdm.
  pose proof (Z.mod_pos_bound n d Hd) as Hr.
  set (q := n / d) in *. set (r := n mod d) in *.
  destruct (Z.ltb_spec (2 * r) d); [nia|].
  destruct (Z.ltb_spec d (2 * r)); [nia|].
  destruct (Z.even q); nia.
Qed.


(** Comparing [n * 2^-j] with [x * 2^j], both sides scaled by a power of two. *)
Lemma scaled_le (j T n x : Z) :
  0 <= T -> 0 <= T + j ->
  n * 2 ^ Z.max 0 (- j) <= x * 2 ^ Z.max 0 j <-> n * 2 ^ T <= x * 2 ^ (T + j).
Proof.
  intros HT HTj.
  destruct (Z.le_ge_cases 0 j) as [Hj|Hj].
  - rewrite (Z.max_l 0 (- j)), (Z.max_r 0 j) by lia.
    rewrite Z.pow_add_r by lia. rewrite Z.pow_0_r.
    pose proof (Z.pow_pos_nonneg 2 T ltac:(lia) HT). nia.
  - rewrite (Z.max_r 0 (- j)), (Z.max_l 0 j) by lia.
    replace T with ((T + j) + - j) at 1 by lia.
    rewrite Z.pow_add_r by lia. rewrite Z.pow_0_r.
    pose proof (Z.pow_pos_nonneg 2 (T + j) ltac:(lia) HTj). nia.
Qed.

Lemma scaled_lt (j T n x : Z) :
  0 <= T -> 0 <= T + j ->
  n * 2 ^ Z.max 0 (- j) < x * 2 ^ Z.max 0 j <-> n * 2 ^ T < x * 2 ^ (T + j).
Proof.
  intros HT HTj.
  destruct (Z.le_ge_cases 0 j) as [Hj|Hj].
  - rewrite (Z.max_l 0 (- j)), (Z.max_r 0 j) by lia.
    rewrite Z.pow_add_r by lia. rewrite Z.pow_0_r.
    pose proof (Z.pow_pos_nonneg 2 T ltac:(lia) HT). nia.
  - rewrite (Z.max_r 0 (- j)), (Z.max_l 0 j) by lia.
    replace T with ((T + j) + - j) at 1 by lia.
    rewrite Z.pow_add_r by lia. rewrite Z.pow_0_r.
    pose proof (Z.pow_pos_nonneg 2 (T + j) ltac:(lia) HTj). nia.
Qed.

Lemma scaled_ge (j T n x : Z) :
  0 <= T -> 0 <= T + j ->
  x * 2 ^ Z.max 0 j <= n * 2 ^ Z.max 0 (- j) <-> x * 2 ^ (T + j) <= n * 2 ^ T.
Proof.
  intros HT HTj. pose proof (scaled_lt j T n x HT HTj) as Hlt.
  rewrite <- !Z.nlt_ge. by rewrite Hlt.
Qed.

(** The exponent chosen by [round53] normalises the fraction: the scaled
    quotient lies between 2^52 and 2^53. *)
Lemma round53_scale (n d : Z) :
  0 < n -> 0 < d ->
  let k := Z.log2 n - Z.log2 d in
  let e := if n * 2 ^ Z.max 0 (- k) <? d * 2 ^ Z.max 0 k then k - 53 else k - 52 in
  (2 ^ 52 * d) * 2 ^ Z.max 0 e <= n * 2 ^ Z.max 0 (- e) < (2 ^ 53 * d) * 2 ^ Z.max 0 e.
Proof.
  intros Hn Hd k e.
  pose proof (Z.log2_spec n Hn) as Hln. pose proof (Z.log2_spec d Hd) as Hld.
  pose proof (Z.log2_nonneg n) as Hln0. pose proof (Z.log2_nonneg d) as Hld0.
  set (ln := Z.log2 n) in *. set (ld := Z.log2 d) in *.
  set (T := ld + 53).
  assert (HT : 0 <= T) by lia.
  assert (Hpow : ∀ x, 0 <= x -> 0 < 2 ^ x) by (intros; by apply Z.pow_pos_nonneg).
  pose proof (Hpow ln Hln0) as HP. pose proof (Hpow ld Hld0) as HQ.
  rewrite Z.pow_succ_r in Hln, Hld by lia.
  assert (HT2 : 2 ^ T = 2 ^ 53 * 2 ^ ld).
  { unfold T. rewrite Z.pow_add_r by lia. lia. }
  subst e. destruct (Z.ltb_spec (n * 2 ^ Z.max 0 (- k)) (d * 2 ^ Z.max 0 k)) as [Ht|Ht].
  - apply (scaled_lt k T) in Ht; [|lia|unfold T, k; lia].
    replace (T + k) with (53 + ln) in Ht by (unfold T, k; lia).
    rewrite Z.pow_add_r in Ht by lia.
    split.
    + apply (scaled_ge (k - 53) T); [lia|unfold T, k; lia|].
      replace (T + (k - 53)) with ln by (unfold T, k; lia).
      rewrite HT2 in *. set (P := 2 ^ ln) in *. set (Q := 2 ^ ld) in *.
      change (2 ^ 52) with 4503599627370496. change (2 ^ 53) with 9007199254740992 in *.
      nia.
    + apply (scaled_lt (k - 53) T); [lia|unfold T, k; lia|].
      replace (T + (k - 53)) with ln by (unfold T, k; lia).
      rewrite HT2 in *. nia.
  - apply (scaled_ge k T) in Ht; [|lia|unfold T, k; lia].
    replace (T + k) with (53 + ln) in Ht by (unfold T, k; lia).
    rewrite Z.pow_add_r in Ht by lia.
    split.
    + apply (scaled_ge (k - 52) T); [lia|unfold T, k; lia|].
      replace (T + (k - 52)) with (1 + ln) by (unfold T, k; lia).
      rewrite Z.pow_add_r by lia. rewrite HT2 in *.
      set (P := 2 ^ ln) in *. set (Q := 2 ^ ld) in *.
      change (2 ^ 52) with 4503599627370496. change (2 ^ 53) with 9007199254740992 in *.
      change (2 ^ 1) with 2. nia.
    + apply (scaled_lt (k - 52) T); [lia|unfold T, k; lia|].
      replace (T + (k - 52)) with (1 + ln) by (unfold T, k; lia).
      rewrite Z.pow_add_r by lia. rewrite HT2 in *.
      set (P := 2 ^ ln) in *. set (Q := 2 ^ ld) in *.
      change (2 ^ 53) with 9007199254740992 in *.
      change (2 ^ 1) with 2. nia.
Qed.

(** The relative error of the rounding is at most 2^-53. *)
Lemma round53_error (q : Q) :
  (0 < q)%Q ->
  ((9007199254740991 # 1) * q <= (9007199254740992 # 1) * JS.round53 q)%Q ∧
  ((9007199254740992 # 1) * JS.round53 q <= (9007199254740993 # 1) * q)%Q.
Proof.
  destruct q as [n d]. intros Hq.
  assert (Hn : 0 < n) by (unfold Qlt in Hq; cbn in Hq; lia).
  unfold JS.round53. cbn [Qnum Qden].
  destruct (Z.eqb_spec n 0) as [|_]; [lia|].
  rewrite (Z.abs_eq n) by lia.
  pose proof (round53_scale n (Z.pos d) Hn ltac:(lia)) as Hsc. cbv zeta in Hsc.
  set (k := Z.log2 n - Z.log2 (Z.pos d)) in *.
  set (e := if n * 2 ^ Z.max 0 (- k) <? Z.pos d * 2 ^ Z.max 0 k then k - 53 else k - 52) in *.
  assert (HA : 0 < 2 ^ Z.max 0 e) by (apply Z.pow_pos_nonneg; lia).
  assert (HB : 0 < 2 ^ Z.max 0 (- e)) by (apply Z.pow_pos_nonneg; lia).
  set (A := 2 ^ Z.max 0 e) in *. set (B := 2 ^ Z.max 0 (- e)) in *.
  pose proof (rne_spec (n * B) (Z.pos d * A) ltac:(lia)) as Hm.
  set (m := JS.rne (n * B) (Z.pos d * A)) in *.
  change (2 ^ 52) with 4503599627370496 in Hsc.
  change (2 ^ 53) with 9007199254740992 in Hsc.
  unfold Qle, Qmult. cbn [Qnum Qden].
  rewrite !Pos2Z.inj_mul, !Z2Pos.id by lia.
  split; nia.
Qed.

Lemma round53_zero (q : Q) : Qnum q = 0 -> JS.round53 q = 0%Q.
Proof. intros Hq. unfold JS.round53. by rewrite Hq. Qed.

Lemma roundPercent_zero (b : Z) : JS.roundPercent 0 b = 0.
Proof.
  unfold JS.roundPercent, JS.times, JS.divide.
  rewrite (round53_zero (inject_Z 0 / inject_Z b)) by reflexivity.
  rewrite round53_zero by reflexivity. reflexivity.
Qed.

(** [Math.round((a / b) * 100)] is an integer nearest to [100 * a / b]; at a
    half it may be either neighbour, since the quotient and the product are
    rounded before [Math.round] sees them. *)
Lemma roundPercent_nearest (a b : Z) :
  0 <= a < 2 ^ 44 -> 0 < b ->
  2 * (100 * a) - b <= 2 * b * JS.roundPercent a b <= 2 * (100 * a) + b.
Proof.
  intros [Ha Ha44] Hb.
  destruct (Z.eq_dec a 0) as [->|Ha0]; [rewrite roundPercent_zero; lia|].
  unfold JS.roundPercent, JS.mathRound, JS.times, JS.divide.
  set (t := (inject_Z a / inject_Z b)%Q).
  assert (Hqa : (0 < inject_Z a)%Q) by (rewrite <- (Zlt_Qlt 0); lia).
  assert (Hqb : (0 < inject_Z b)%Q) by (rewrite <- (Zlt_Qlt 0); lia).
  assert (Hqa44 : (inject_Z a < 17592186044416 # 1)%Q)
    by (change (17592186044416 # 1)%Q with (inject_Z (2 ^ 44)); rewrite <- Zlt_Qlt; lia).
  assert (Htb : (t * inject_Z b == inject_Z a)%Q).
  { unfold t. field. lra. }
  assert (Ht : (0 < t)%Q).
  { unfold t. apply Qlt_shift_div_l; lra. }
  destruct (round53_error t Ht) as [Hx1 Hx2].
  set (x := JS.round53 t) in *.
  assert (Hx : (0 < x * inject_Z 100)%Q) by (change (inject_Z 100) with (100 # 1)%Q; lra).
  destruct (round53_error (x * inject_Z 100) Hx) as [Hy1 Hy2].
  set (y := JS.round53 (x * inject_Z 100)) in *.
  pose proof (Qfloor_le (y + (1 # 2))) as Hr1.
  pose proof (Qlt_floor (y + (1 # 2))) as Hr2.
  set (r := Qfloor (y + (1 # 2))) in *.
  rewrite inject_Z_plus in Hr2.
  change (inject_Z 100) with (100 # 1)%Q in *. change (inject_Z 1) with 1%Q in *.
  assert (Hup : (inject_Z b * inject_Z r
                 <= inject_Z b * ((100 # 1) * ((9007199254740993 # 9007199254740992)
                                               * (9007199254740993 # 9007199254740992)) * t
                                 + (1 # 2)))%Q).
  { apply Qmult_le_l; [exact Hqb|]. lra. }
  assert (Hlo : (inject_Z b * ((100 # 1) * ((9007199254740991 # 9007199254740992)
                                               * (9007199254740991 # 9007199254740992)) * t
                               + (1 # 2))
                 <= inject_Z b * (inject_Z r + 1))%Q).
  { apply Qmult_le_l; [exact Hqb|]. lra. }
  split.
  - cut (2 * (100 * a) + b < 2 * (b * (r + 1)) + 1); [lia|].
    rewrite Zlt_Qlt.
    rewrite !inject_Z_plus, !inject_Z_mult, !inject_Z_plus.
    change (inject_Z 2) with 2%Q. change (inject_Z 100) with (100 # 1)%Q.
    change (inject_Z 1) with 1%Q.
    lra.
  - cut (2 * (b * r) < 2 * (100 * a) + b + 1); [lia|].
    rewrite Zlt_Qlt.
    rewrite !inject_Z_plus, !inject_Z_mult.
    change (inject_Z 2) with 2%Q. change (inject_Z 100) with (100 # 1)%Q.
    change (inject_Z 1) with 1%Q.
    lra.
Qed.

(** The rounding of the source at two quotients where the product is just
    below a half: the exact percentages are 57.5 and 14.5. *)
Example roundPercent_23_40 : JS.roundPercent 23 40 = 57 ∧ JS.roundPercent 29 200 = 14.
Proof. split; vm_compute; reflexivity. Qed.

(** No document stores a number under [engagementRate]. *)
Lemma accAvg_engagementRate (rows : list EmailSubscription.t) :
  Store.accAvg (EmailSubscription.storedNumber "engagementRate") rows = None.
Proof.
  unfold Store.accAvg.
  replace (omap (EmailSubscription.storedNumber "engagementRate") rows) with (@nil Z);
    [done|].
  induction rows as [|d rows IH]; [done|]. exact IH.
Qed.

Lemma accSum_stored (f : EmailSubscription.t -> Z) (path : string)
    (rows : list EmailSubscription.t) :
  (∀ d, EmailSubscription.storedNumber path d = Some (f d)) ->
  Store.accSum (EmailSubscription.storedNumber path) rows = foldr Z.add 0 (map f rows).
Proof.
  intros Hf. unfold Store.accSum. f_equal.
  induction rows as [|d rows IH]; [done|].
  cbn [omap list_omap]. rewrite Hf. cbn [map]. by rewrite <- IH.
Qed.

(** The sums of the summary are the sums over the active rows, and without
    an active row the four fields are [0]; with an active row the average is
    [null], whatever the counters are. *)
Lemma getEmailStats_engagement (now startOfToday startOfMonth : Z)
    (db : list EmailSubscription.t) :
  let rows := List.filter
                (fun d => bool_decide (EmailSubscription.status d = EmailSubscription.active)) db in
  ∃ st, EmailController.getEmailStats now startOfToday startOfMonth db = Success 200 None st ∧
    EmailController.totalEmailsSent (EmailController.engagement st)
      = foldr Z.add 0 (map EmailSubscription.emailsSent rows) ∧
    EmailController.totalEmailsOpened (EmailController.engagement st)
      = foldr Z.add 0 (map EmailSubscription.emailsOpened rows) ∧
    EmailController.totalEmailsClicked (EmailController.engagement st)
      = foldr Z.add 0 (map EmailSubscription.emailsClicked rows) ∧
    EmailController.avgEngagementRate (EmailController.engagement st)
      = match rows with [] => Some (Q2Qc 0) | _ => None end.
Proof.
  intros rows. eexists. split; [reflexivity|]. cbn.
  unfold EmailController.engagementStats. fold rows.
  destruct rows as [|d rows']; [done|]. cbn [head default].
  cbn [EmailController.totalEmailsSent EmailController.totalEmailsOpened
       EmailController.totalEmailsClicked EmailController.avgEngagementRate].
  split_and!.
  - by apply accSum_stored.
  - by apply accSum_stored.
  - by apply accSum_stored.
  - apply accAvg_engagementRate.
Qed.

(** C3, at one active subscription with 50 e-mails sent and 10 opened: the
    three sums are reported, the reported average is [null], and the mean of
    the derived engagement rate of the rows is 20. *)
Theorem getEmailStats_average_is_null :
  let db := [Examples.subscription 1 "a@example.com" EmailSubscription.active 50 10 2] in
  (∃ st, EmailController.getEmailStats 5000 0 0 db = Success 200 None st ∧
     EmailController.engagement st =
       {| EmailController.totalEmailsSent := 50;
          EmailController.totalEmailsOpened := 10;
          EmailController.totalEmailsClicked := 2;
          EmailController.avgEngagementRate := None |}) ∧
  Spec.meanEngagementRate db = Q2Qc 20.
Proof.
  split.
  - eexists. split; reflexivity.
  - apply Qc_is_canon. reflexivity.
Qed.

(** ** The subscription lifecycle *)

Section Lifecycle.
Context `{Externals}.
Import EmailSubscription EmailController.

Lemma findOne_insert (e : string) (db : list t) (i : nat) (d d' : t) :
  findOne e db = Some (i, d) ->
  EmailSubscription.email d' = e ->
  findOne e (<[i := d']> db) = Some (i, d').
Proof.
  unfold findOne. intros (Hi & _ & Hbefore)%list_find_Some He.
  apply list_find_Some. split_and!.
  - apply list_lookup_insert_eq. by apply lookup_lt_Some in Hi.
  - done.
  - intros j y Hj Hlt. rewrite list_lookup_insert_ne in Hj by lia. eauto.
Qed.

Lemma mergePreferences_empty (base : Preferences) (p : gmap string bool) :
  size p = 0%nat -> mergePreferences base p = base.
Proof.
  intros ->%map_size_empty_inv. unfold mergePreferences.
  rewrite !lookup_empty. by destruct base.
Qed.

(** The four flags of the schema, by name. *)
Lemma mergePreferences_flags (base : Preferences) (p : gmap string bool) :
  newsletters (mergePreferences base p) = default (newsletters base) (p !! "newsletters") ∧
  promotions (mergePreferences base p) = default (promotions base) (p !! "promotions") ∧
  updates (mergePreferences base p) = default (updates base) (p !! "updates") ∧
  events (mergePreferences base p) = default (events base) (p !! "events").
Proof. done. Qed.

(** A flag the request object does not name keeps its value. *)
Lemma mergePreferences_keeps (base : Preferences) (p : gmap string bool) :
  (p !! "newsletters" = None -> newsletters (mergePreferences base p) = newsletters base) ∧
  (p !! "promotions" = None -> promotions (mergePreferences base p) = promotions base) ∧
  (p !! "updates" = None -> updates (mergePreferences base p) = updates base) ∧
  (p !! "events" = None -> events (mergePreferences base p) = events base).
Proof. unfold mergePreferences. split_and!; by intros ->. Qed.

(** A save after the status was written to another value. *)
Lemma saveLoaded_status_changed (now : Z) (i : nat) (old d : t) (db : list t) :
  EmailSubscription.status d ≠ EmailSubscription.status old ->
  isVerified d = isVerified old ->
  saveLoaded now i old d db =
  (let d' := preSave now false true (set_updatedAt now d) in (d', <[i := d']> db)).
Proof.
  intros Hst Hver. unfold saveLoaded.
  rewrite (bool_decide_eq_false_2 _ Hst), (bool_decide_eq_true_2 _ Hver).
  rewrite bool_decide_eq_false_2 by (intros ->; done).
  reflexivity.
Qed.

(** What [save] leaves of a reactivated document. *)
Lemma saveLoaded_reactivate (now : Z) (i : nat) (sub : t) (src : Source)
    (p : gmap string bool) (ipAddress userAgent referrer : option string) (db : list t) :
  EmailSubscription.status sub = unsubscribed ->
  saveLoaded now i sub (reactivate now src p ipAddress userAgent referrer sub) db =
  (let d := withLifecycle active src now None None
              (mergePreferences (preferences sub) p)
              {| EmailSubscription.ipAddress := ipAddress;
                 EmailSubscription.userAgent := userAgent;
                 EmailSubscription.referrer := referrer;
                 country := country (metadata sub);
                 city := city (metadata sub) |}
              (verifiedAt sub) now sub in
   (d, <[i := d]> db)).
Proof.
  intros Hst.
  assert (Hre : reactivate now src p ipAddress userAgent referrer sub =
            withLifecycle active src now None None
              (mergePreferences (preferences sub) p)
              {| EmailSubscription.ipAddress := ipAddress;
                 EmailSubscription.userAgent := userAgent;
                 EmailSubscription.referrer := referrer;
                 country := country (metadata sub);
                 city := city (metadata sub) |}
              (verifiedAt sub) (updatedAt sub) sub).
  { unfold reactivate. case_bool_decide as Hp; [reflexivity|].
    rewrite (mergePreferences_empty (preferences sub) p) by lia. reflexivity. }
  rewrite Hre, saveLoaded_status_changed; [reflexivity| |reflexivity].
  cbn. rewrite Hst. done.
Qed.

(** What [save] leaves of an unsubscribed document. *)
Lemma saveLoaded_unsubscribe (now : Z) (i : nat) (sub : t) (reason : string) (db : list t) :
  EmailSubscription.status sub ≠ unsubscribed ->
  saveLoaded now i sub
    (set_unsubscriptionReason (Some reason)
       (set_unsubscriptionDate (Some now) (set_status unsubscribed sub))) db =
  (let d := withLifecycle unsubscribed (source sub) (EmailSubscription.subscriptionDate sub)
              (Some now) (Some reason) (preferences sub) (metadata sub)
              (verifiedAt sub) now sub in
   (d, <[i := d]> db)).
Proof.
  intros Hst. rewrite saveLoaded_status_changed; [reflexivity| |reflexivity].
  cbn. congruence.
Qed.

(** C5. A subscribe call for an address whose record is active leaves the
    collection as it was, hence every stored field of the record, and a
    request that passed validation is answered with the 409 conflict. *)
Theorem subscribe_active_conflict (now : Z) (req : SubscribeReq) (db : list t)
    (i : nat) (sub : t) :
  findOne (body_email req) db = Some (i, sub) ->
  EmailSubscription.status sub = active ->
  (subscribeEmail now req db).2 = db ∧
  db !! i = Some sub ∧
  (errors req = [] ->
   (subscribeEmail now req db).1 =
     Failure 409 "This email is already subscribed to our newsletter" []).
Proof.
  intros Hfind Hst. unfold subscribeEmail, subscribeAfterFind.
  rewrite Hfind, (bool_decide_eq_true_2 _ Hst).
  split_and!.
  - by case_bool_decide.
  - by apply list_find_Some in Hfind as (? & _).
  - intros ->. done.
Qed.

(** The branch of [unsubscribeEmail] that writes: a record that is not yet
    unsubscribed. *)
Lemma unsubscribe_stores (now : Z) (req : UnsubscribeReq) (db : list t)
    (i : nat) (sub : t) :
  findOne (unsub_email req) db = Some (i, sub) ->
  EmailSubscription.status sub ≠ unsubscribed ->
  unsubscribeEmail now req db =
    (Success 200
       (Some "You have been successfully unsubscribed from our mailing list") tt,
     <[i := withLifecycle unsubscribed (source sub)
              (EmailSubscription.subscriptionDate sub) (Some now)
              (Some (JS.orElse (unsub_reason req) "User requested"))
              (preferences sub) (metadata sub) (verifiedAt sub) now sub]> db).
Proof.
  intros Hfind Hst. unfold unsubscribeEmail.
  rewrite Hfind, (bool_decide_eq_false_2 _ Hst).
  by rewrite saveLoaded_unsubscribe.
Qed.

(** C9 as amended. [unsubscribeEmail] answers 404 when no record has the
    address; answers 400 and leaves the collection as it was when the record
    is already unsubscribed; and otherwise answers 200 and stores the record
    with status unsubscribed, [unsubscriptionDate] the time of the call and
    the reason of the request, or 'User requested' when the request has no
    reason or an empty one; the other paths keep their values, but for
    [updatedAt]. *)
Theorem unsubscribe_outcomes (now : Z) (req : UnsubscribeReq) (db : list t) :
  (findOne (unsub_email req) db = None ->
   unsubscribeEmail now req db =
     (Failure 404 "Email not found in our subscription list" [], db)) ∧
  (∀ i sub, findOne (unsub_email req) db = Some (i, sub) ->
     EmailSubscription.status sub = unsubscribed ->
     unsubscribeEmail now req db =
       (Failure 400 "This email is already unsubscribed" [], db)) ∧
  (∀ i sub, findOne (unsub_email req) db = Some (i, sub) ->
     EmailSubscription.status sub ≠ unsubscribed ->
     ∃ d reason,
       unsubscribeEmail now req db =
         (Success 200
            (Some "You have been successfully unsubscribed from our mailing list") tt,
          <[i := d]> db) ∧
       d = withLifecycle unsubscribed (source sub)
             (EmailSubscription.subscriptionDate sub) (Some now) (Some reason)
             (preferences sub) (metadata sub) (verifiedAt sub) now sub ∧
       EmailSubscription.status d = unsubscribed ∧
       unsubscriptionDate d = Some now ∧
       unsubscriptionReason d = Some reason ∧
       reason = match unsub_reason req with
                | Some r => if decide (r = "") then "User requested" else r
                | None => "User requested"
                end).
Proof.
  unfold unsubscribeEmail. split_and!.
  - by intros ->.
  - intros i sub -> Hst. by rewrite (bool_decide_eq_true_2 _ Hst).
  - intros i sub Hfind Hst.
    fold (unsubscribeEmail now req db). rewrite (unsubscribe_stores now req db i sub) by done.
    eexists _, _. split_and!; try reflexivity.
    destruct (unsub_reason req) as [[|c r]|]; reflexivity.
Qed.

(** The reactivation branch: a record with status unsubscribed. *)
Lemma subscribe_reactivates_unsubscribed (now : Z) (req : SubscribeReq)
    (db : list t) (i : nat) (sub : t) :
  errors req = [] ->
  findOne (body_email req) db = Some (i, sub) ->
  EmailSubscription.status sub = unsubscribed ->
  let p := default ∅ (body_preferences req) in
  ∃ d,
    subscribeEmail now req db =
      (Success 200 (Some "Welcome back! Your email subscription has been reactivated.")
         (summary d), <[i := d]> db) ∧
    d = withLifecycle active (default website_footer (body_source req)) now None None
          (mergePreferences (preferences sub) p)
          {| EmailSubscription.ipAddress := clientAddress (ip req) (remoteAddress req);
             EmailSubscription.userAgent := userAgentHeader req;
             EmailSubscription.referrer := refererHeader req;
             country := country (metadata sub);
             city := city (metadata sub) |}
          (verifiedAt sub) now sub.
Proof.
  intros Herr Hfind Hst p. unfold subscribeEmail, subscribeAfterFind.
  rewrite Herr, Hfind. cbn [negb bool_decide decide_rel].
  rewrite bool_decide_eq_true_2 by done. cbn [negb].
  rewrite bool_decide_eq_false_2 by (rewrite Hst; done).
  rewrite (bool_decide_eq_true_2 _ Hst).
  rewrite saveLoaded_reactivate by done. cbn zeta.
  eexists. split; reflexivity.
Qed.

Lemma findOne_email (e : string) (db : list t) (i : nat) (d : t) :
  findOne e db = Some (i, d) -> EmailSubscription.email d = e.
Proof. by intros (_ & ? & _)%list_find_Some. Qed.

(** C1 as amended. For a record with status unsubscribed, a subscribe call
    that passed validation answers 200 'reactivated' (a fresh creation
    answers 201) and stores the record with status active,
    [subscriptionDate] the time of the call, [unsubscriptionDate] and
    [unsubscriptionReason] null, the source and the request metadata of the
    call, each preference flag the one of the call when the call has it and
    the stored one otherwise, and the other paths as they were. In
    particular, unsubscribe followed by subscribe for the same address ends
    with status active, the unsubscription paths null and the preference
    flags the second call does not name as they were before the first. *)
Theorem reactivation :
  (∀ (now : Z) (req : SubscribeReq) (db : list t) (i : nat) (sub : t),
     errors req = [] ->
     findOne (body_email req) db = Some (i, sub) ->
     EmailSubscription.status sub = unsubscribed ->
     ∃ d,
       subscribeEmail now req db =
         (Success 200 (Some "Welcome back! Your email subscription has been reactivated.")
            (summary d), <[i := d]> db) ∧
       EmailSubscription.status d = active ∧
       EmailSubscription.subscriptionDate d = now ∧
       unsubscriptionDate d = None ∧
       unsubscriptionReason d = None ∧
       source d = default website_footer (body_source req) ∧
       metadata d =
         {| EmailSubscription.ipAddress := clientAddress (ip req) (remoteAddress req);
            EmailSubscription.userAgent := userAgentHeader req;
            EmailSubscription.referrer := refererHeader req;
            country := country (metadata sub);
            city := city (metadata sub) |} ∧
       preferences d =
         mergePreferences (preferences sub) (default ∅ (body_preferences req)) ∧
       (_id d, EmailSubscription.email d, tags d, isVerified d, verifiedAt d,
        verificationToken d, createdAt d) =
       (_id sub, EmailSubscription.email sub, tags sub, isVerified sub, verifiedAt sub,
        verificationToken sub, createdAt sub) ∧
       (emailsSent d, emailsOpened d, emailsClicked d,
        lastEmailSent d, lastEmailOpened d, lastEmailClicked d) =
       (emailsSent sub, emailsOpened sub, emailsClicked sub,
        lastEmailSent sub, lastEmailOpened sub, lastEmailClicked sub)) ∧
  (∀ (now1 now2 : Z) (ureq : UnsubscribeReq) (sreq : SubscribeReq) (db : list t)
     (i : nat) (sub : t),
     errors sreq = [] ->
     unsub_email ureq = body_email sreq ->
     findOne (body_email sreq) db = Some (i, sub) ->
     EmailSubscription.status sub ≠ unsubscribed ->
     ∃ d,
       subscribeEmail now2 sreq (unsubscribeEmail now1 ureq db).2 =
         (Success 200 (Some "Welcome back! Your email subscription has been reactivated.")
            (summary d), <[i := d]> db) ∧
       EmailSubscription.status d = active ∧
       unsubscriptionDate d = None ∧
       unsubscriptionReason d = None ∧
       preferences d =
         mergePreferences (preferences sub) (default ∅ (body_preferences sreq)) ∧
       (default ∅ (body_preferences sreq) !! "newsletters" = None ->
        newsletters (preferences d) = newsletters (preferences sub)) ∧
       (default ∅ (body_preferences sreq) !! "promotions" = None ->
        promotions (preferences d) = promotions (preferences sub)) ∧
       (default ∅ (body_preferences sreq) !! "updates" = None ->
        updates (preferences d) = updates (preferences sub)) ∧
       (default ∅ (body_preferences sreq) !! "events" = None ->
        events (preferences d) = events (preferences sub))).
Proof.
  split.
  - intros now req db i sub Herr Hfind Hst.
    destruct (subscribe_reactivates_unsubscribed now req db i sub Herr Hfind Hst)
      as (d & Hrun & ->).
    eexists. split; [exact Hrun|]. split_and!; reflexivity.
  - intros now1 now2 ureq sreq db i sub Herr He Hfind Hst.
    rewrite (unsubscribe_stores now1 ureq db i sub) by congruence.
    cbn [snd]. set (d1 := withLifecycle unsubscribed _ _ _ _ _ _ _ _ sub).
    assert (Hfind1 : findOne (body_email sreq) (<[i := d1]> db) = Some (i, d1)).
    { apply (findOne_insert _ _ _ sub); [done|].
      change (EmailSubscription.email sub = body_email sreq).
      by apply (findOne_email _ db i). }
    destruct (subscribe_reactivates_unsubscribed now2 sreq _ i d1 Herr Hfind1 eq_refl)
      as (d & Hrun & Hd).
    exists d. rewrite Hrun, list_insert_insert_eq. split; [done|].
    rewrite Hd. cbn [EmailSubscription.status unsubscriptionDate unsubscriptionReason
                     preferences withLifecycle]. unfold d1. cbn [preferences withLifecycle].
    split_and!; try reflexivity;
      apply (mergePreferences_keeps (preferences sub) (default ∅ (body_preferences sreq))).
Qed.

(** C2 as amended. When the insert of the new document is rejected by the
    unique index on the address, [subscribeEmail] answers with the generic
    500 failure and leaves the collection as it was. The insert is reached
    when [findOne] found no record, or one that is neither active nor
    unsubscribed; [found] needs not be what the collection holds at the time
    of the insert. *)
Theorem subscribe_duplicate_key (now : Z) (req : SubscribeReq)
    (found : option (nat * t)) (db : list t) :
  (found = None ∨
   ∃ i sub, found = Some (i, sub) ∧ EmailSubscription.status sub ≠ active ∧
            EmailSubscription.status sub ≠ unsubscribed) ->
  saveNew now
    (newSubscription now (freshId db) (body_email req)
       (default website_footer (body_source req))
       (default ∅ (body_preferences req))
       (clientAddress (ip req) (remoteAddress req))
       (userAgentHeader req) (refererHeader req)) db = inl DuplicateKey ->
  subscribeAfterFind now req found db =
    (Failure 500 "Failed to subscribe. Please try again later." [], db) ∧
  (errors req = [] -> found = findOne (body_email req) db ->
   subscribeEmail now req db =
     (Failure 500 "Failed to subscribe. Please try again later." [], db)).
Proof.
  intros Hfound Hsave.
  assert (Hafter : subscribeAfterFind now req found db =
            (Failure 500 "Failed to subscribe. Please try again later." [], db)).
  { unfold subscribeAfterFind.
    destruct Hfound as [->|(i & sub & -> & Hna & Hnu)].
    - by rewrite Hsave.
    - rewrite (bool_decide_eq_false_2 _ Hna), (bool_decide_eq_false_2 _ Hnu).
      by rewrite Hsave. }
  split; [exact Hafter|].
  intros Herr ->. unfold subscribeEmail. rewrite Herr. exact Hafter.
Qed.

End Lifecycle.

(** ** Contact creation *)

Section ContactCreation.
Context `{Externals}.
Import ContactController.

(** The pre-save middleware adds one note to a new document and none to a
    loaded one. *)
Lemma preSave_notes (now : Z) (isNew : bool) (c : Contact.t) :
  Contact.notes (Contact.preSave now isNew c) =
  if isNew then
    Contact.notes c ++
    [{| Contact.note := "Contact form submitted from " +:+ Contact.source c;
        Contact.addedBy := "system";
        Contact.addedAt := now |}]
  else Contact.notes c.
Proof. by destruct isNew. Qed.

(** C8. [createContact] either answers with a failure and leaves the
    collection as it was, or answers 201 and appends one contact, which
    carries exactly one note, by 'system', whose text is 'Contact form
    submitted from ' followed by the contact's source; it does create the
    contact when the request passed validation, no contact with the address
    is younger than 24 hours and the schema accepts the document. The other
    handler that saves a contact, [updateContact], creates none. *)
Theorem createContact_one_system_note (now : Z) (req : CreateReq) (db : list Contact.t) :
  match createContact now req db with
  | (Success code _ s, db') =>
      code = 201%nat ∧
      ∃ c, db' = db ++ [c] ∧
           Contact.notes c =
             [{| Contact.note := "Contact form submitted from " +:+ Contact.source c;
                 Contact.addedBy := "system";
                 Contact.addedAt := now |}] ∧
           Contact.source c = "website" ∧
           id s = Contact._id c
  | (Failure _ _ _, db') => db' = db
  end ∧
  (errors req = [] ->
   List.find (fun c => String.eqb (Contact.email c) (body_email req)
                       && (now - 24 * 60 * 60 * 1000 <=? Contact.createdAt c)) db = None ->
   contactValid (newContact now (freshId db) (body_name req) (body_email req)
                   (body_phone req) (body_description req)
                   (clientAddress (ip req) (remoteAddress req))
                   (userAgentHeader req) "website") = true ->
   ∃ s db', createContact now req db = (Success 201
              (Some "Contact request submitted successfully! We will get back to you soon.")
              s, db')) ∧
  (∀ ureq, length (updateContact now ureq db).2 = length db).
Proof.
  split_and!.
  - unfold createContact. case_bool_decide; [|done]. cbn [negb].
    destruct (List.find _ db); [done|].
    unfold saveNew. destruct (contactValid _); [|done].
    split; [done|]. eexists. split_and!; reflexivity.
  - intros Herr Hfind Hvalid. unfold createContact.
    rewrite Herr, Hfind. cbn [negb bool_decide decide_rel].
    rewrite bool_decide_eq_true_2 by done. cbn [negb].
    unfold saveNew. rewrite Hvalid. by eexists _, _.
  - intros ureq. unfold updateContact.
    destruct (list_find _ db) as [[i c]|]; [|done].
    destruct (applyUpdate now ureq c); [|done].
    cbn. by rewrite length_insert.
Qed.

End ContactCreation.

(** ** List queries *)

Section Paging.
Context {D : Type}.

Lemma sortDesc_length (key : D -> Z) (docs : list D) :
  length (Store.sortDesc key docs) = length docs.
Proof.
  unfold Store.sortDesc. apply Permutation_length, merge_sort_Permutation.
Qed.

Lemma sortDesc_sorted (key : D -> Z) (docs : list D) :
  Sorted (Store.descending key) (Store.sortDesc key docs).
Proof.
  unfold Store.sortDesc. apply Sorted_merge_sort.
  intros a b. unfold Store.descending. lia.
Qed.

Lemma sortDesc_Permutation (key : D -> Z) (docs : list D) :
  Store.sortDesc key docs ≡ₚ docs.
Proof. apply merge_sort_Permutation. Qed.

Lemma countDocuments_sorted (p : D -> bool) (key : D -> Z) (db : list D) :
  Store.countDocuments p db = Z.of_nat (length (Store.sortDesc key (List.filter p db))).
Proof. unfold Store.countDocuments. by rewrite sortDesc_length. Qed.

(** A query with a skip that is not negative and a positive limit. *)
Lemma findSorted_window (batch : Z -> nat) (p : D -> bool) (key : D -> Z)
    (n k : Z) (db : list D) :
  0 <= k -> 0 < n ->
  Store.findSorted batch p key n k db =
  Some (take (Z.to_nat n) (drop (Z.to_nat k) (Store.sortDesc key (List.filter p db)))).
Proof.
  intros Hk Hn. unfold Store.findSorted, Store.applyLimit.
  destruct (Z.ltb_spec k 0); [lia|]. destruct (Z.ltb_spec 0 n); [done|lia].
Qed.

(** What a successful query returns, whatever the limit. *)
Lemma findSorted_Some (batch : Z -> nat) (p : D -> bool) (key : D -> Z)
    (n k : Z) (db : list D) (docs : list D) :
  n ≠ 0 ->
  Store.findSorted batch p key n k db = Some docs ->
  0 <= k ∧
  ∃ m, docs = take m (drop (Z.to_nat k) (Store.sortDesc key (List.filter p db))) ∧
       (0 < n -> m = Z.to_nat n).
Proof.
  intros Hn. unfold Store.findSorted, Store.applyLimit.
  destruct (Z.ltb_spec k 0); [done|]. intros [= <-]. split; [done|].
  destruct (Z.ltb_spec 0 n).
  - by eexists.
  - destruct (Z.eqb_spec n 0); [done|]. eexists. split; [done|lia].
Qed.

(** The page of a list: its length, and the pages past the last one. *)
Lemma window_length (docs : list D) (page limit : Z) :
  1 <= page -> 1 <= limit ->
  Z.of_nat (length (take (Z.to_nat limit) (drop (Z.to_nat ((page - 1) * limit)) docs))) =
  Z.min limit (Z.max 0 (Z.of_nat (length docs) - (page - 1) * limit)).
Proof.
  intros Hp Hl. rewrite length_take, length_drop. nia.
Qed.

End Paging.

(** [Math.ceil(total / limit)] is the least number of pages of [limit]
    documents that hold [total] documents. *)
Lemma ceilDiv_least (total limit : Z) :
  0 < limit ->
  (JS.ceilDiv total limit - 1) * limit < total <= JS.ceilDiv total limit * limit.
Proof.
  intros Hl. unfold JS.ceilDiv.
  pose proof (Z.div_mod (- total) limit ltac:(lia)) as Hdm.
  pose proof (Z.mod_pos_bound (- total) limit Hl) as Hm.
  nia.
Qed.

Lemma ceilDiv_zero (limit : Z) : JS.ceilDiv 0 limit = 0.
Proof. unfold JS.ceilDiv. by destruct limit. Qed.

Lemma ceilDiv_ceiling (total limit : Z) :
  limit ≠ 0 -> Spec.isCeiling total limit (JS.ceilDiv total limit).
Proof.
  intros Hl. unfold Spec.isCeiling, JS.ceilDiv.
  pose proof (Z.div_mod (- total) limit Hl) as Hdm.
  destruct (Z.ltb_spec 0 limit).
  - pose proof (Z.mod_pos_bound (- total) limit ltac:(lia)) as Hm. nia.
  - pose proof (Z.mod_neg_bound (- total) limit ltac:(lia)) as Hm. nia.
Qed.

Lemma pageOf_nonzero (query : gmap string string) : pageOf query ≠ 0.
Proof.
  unfold pageOf, JS.parseIntOr.
  destruct (query !! "page") as [s|]; [|done].
  destruct (JS.parseInt s) as [v|]; [|done].
  destruct (Z.eqb_spec v 0); done.
Qed.

Lemma limitOf_nonzero (query : gmap string string) : limitOf query ≠ 0.
Proof.
  unfold limitOf, JS.parseIntOr.
  destruct (query !! "limit") as [s|]; [|done].
  destruct (JS.parseInt s) as [v|]; [|done].
  destruct (Z.eqb_spec v 0); done.
Qed.

Section ListQueries.
Context `{Externals} {U : Type}.

(** C6. Whenever a list query answers, [total] is the number of matching
    documents and [pages] is [ceil(total / limit)], which is 0 when [total]
    is 0. For a page of at least 1 and a page size of at least 1 the query
    answers, unless the store rejects the search term, with the page: the
    documents of the sorted match set after the first [(page - 1) * limit],
    [limit] of them at most; [pages] is then the least number of pages that
    hold the matching documents; a page past the last one is empty; and with
    25 matching documents and a page size of 10, page 3 has 5 documents and
    [pages] is 3. The same holds of contacts and of subscriptions. *)
Theorem list_pagination (users : gmap nat U) (query : gmap string string) :
  (∀ (db : list Contact.t) code msg pg,
     ContactController.getContacts users query db = Success code msg pg ->
     ∃ q, ContactController.contactFilter query = Some q ∧
          pagination pg =
            {| current := pageOf query;
               pages := JS.ceilDiv (Z.of_nat (length (List.filter q db))) (limitOf query);
               total := Z.of_nat (length (List.filter q db));
               limit := limitOf query |} ∧
          Spec.isCeiling (total (pagination pg)) (limit (pagination pg))
            (pages (pagination pg)) ∧
          (total (pagination pg) = 0 -> pages (pagination pg) = 0)) ∧
  (∀ (db : list EmailSubscription.t) code msg pg,
     EmailController.getSubscriptions query db = Success code msg pg ->
     ∃ q, EmailController.subscriptionFilter query = Some q ∧
          pagination pg =
            {| current := pageOf query;
               pages := JS.ceilDiv (Z.of_nat (length (List.filter q db))) (limitOf query);
               total := Z.of_nat (length (List.filter q db));
               limit := limitOf query |} ∧
          Spec.isCeiling (total (pagination pg)) (limit (pagination pg))
            (pages (pagination pg)) ∧
          (total (pagination pg) = 0 -> pages (pagination pg) = 0)) ∧
  (1 <= pageOf query -> 1 <= limitOf query ->
   (∀ (db : list Contact.t) (q : Contact.t -> bool),
      ContactController.contactFilter query = Some q ->
      ∃ pg,
        ContactController.getContacts users query db = Success 200 None pg ∧
        data pg =
          map (ContactController.populate users)
            (take (Z.to_nat (limitOf query))
               (drop (Z.to_nat ((pageOf query - 1) * limitOf query))
                  (Store.sortDesc Contact.createdAt (List.filter q db)))) ∧
        total (pagination pg) = Z.of_nat (length (List.filter q db)) ∧
        (pages (pagination pg) - 1) * limitOf query < total (pagination pg)
          <= pages (pagination pg) * limitOf query ∧
        Z.of_nat (length (data pg)) =
          Z.min (limitOf query)
            (Z.max 0 (total (pagination pg) - (pageOf query - 1) * limitOf query)) ∧
        (pages (pagination pg) < pageOf query -> data pg = []) ∧
        (total (pagination pg) = 25 -> limitOf query = 10 -> pageOf query = 3 ->
         length (data pg) = 5%nat ∧ pages (pagination pg) = 3)) ∧
   (∀ (db : list EmailSubscription.t) (q : EmailSubscription.t -> bool),
      EmailController.subscriptionFilter query = Some q ->
      ∃ pg,
        EmailController.getSubscriptions query db = Success 200 None pg ∧
        data pg =
          take (Z.to_nat (limitOf query))
            (drop (Z.to_nat ((pageOf query - 1) * limitOf query))
               (Store.sortDesc EmailSubscription.subscriptionDate (List.filter q db))) ∧
        total (pagination pg) = Z.of_nat (length (List.filter q db)) ∧
        (pages (pagination pg) - 1) * limitOf query < total (pagination pg)
          <= pages (pagination pg) * limitOf query ∧
        Z.of_nat (length (data pg)) =
          Z.min (limitOf query)
            (Z.max 0 (total (pagination pg) - (pageOf query - 1) * limitOf query)) ∧
        (pages (pagination pg) < pageOf query -> data pg = []) ∧
        (total (pagination pg) = 25 -> limitOf query = 10 -> pageOf query = 3 ->
         length (data pg) = 5%nat ∧ pages (pagination pg) = 3))).
Proof.
  split_and!.
  - intros db code msg pg. unfold ContactController.getContacts.
    destruct (ContactController.contactFilter query) as [q|]; [|done].
    destruct (Store.findSorted _ _ _ _ _ db) as [docs|]; [|done].
    intros [= _ _ <-]. exists q. cbn [data pagination current pages total limit].
    split_and!; [done|done| |].
    + apply ceilDiv_ceiling, limitOf_nonzero.
    + unfold Store.countDocuments. intros ->. apply ceilDiv_zero.
  - intros db code msg pg. unfold EmailController.getSubscriptions.
    destruct (EmailController.subscriptionFilter query) as [q|]; [|done].
    destruct (Store.findSorted _ _ _ _ _ db) as [docs|]; [|done].
    intros [= _ _ <-]. exists q. cbn [data pagination current pages total limit].
    split_and!; [done|done| |].
    + apply ceilDiv_ceiling, limitOf_nonzero.
    + unfold Store.countDocuments. intros ->. apply ceilDiv_zero.
  - intros Hp Hl.
    assert (Hfacts : ∀ (D : Type) (docs : list D) (n : nat),
              length docs = n ->
              let tot := Z.of_nat n in
              let win := take (Z.to_nat (limitOf query))
                           (drop (Z.to_nat ((pageOf query - 1) * limitOf query)) docs) in
              (JS.ceilDiv tot (limitOf query) - 1) * limitOf query < tot
                <= JS.ceilDiv tot (limitOf query) * limitOf query ∧
              Z.of_nat (length win) =
                Z.min (limitOf query) (Z.max 0 (tot - (pageOf query - 1) * limitOf query)) ∧
              (JS.ceilDiv tot (limitOf query) < pageOf query -> win = []) ∧
              (tot = 25 -> limitOf query = 10 -> pageOf query = 3 ->
               length win = 5%nat ∧ JS.ceilDiv tot (limitOf query) = 3)).
    { intros D docs n Hn tot win.
      pose proof (ceilDiv_least tot (limitOf query) ltac:(lia)) as Hceil.
      pose proof (window_length docs (pageOf query) (limitOf query) Hp Hl) as Hlen.
      fold win in Hlen. rewrite Hn in Hlen. fold tot in Hlen.
      split_and!.
      - apply Hceil.
      - apply Hceil.
      - exact Hlen.
      - intros Hpast. apply length_zero_iff_nil. nia.
      - intros Ht Hlim Hpg. rewrite Ht, Hlim, Hpg in *. split; [lia|reflexivity]. }
    split.
    + intros db q Hq. unfold ContactController.getContacts.
      rewrite Hq, Z.mul_1_r, findSorted_window by nia.
      eexists. split; [reflexivity|]. cbn [data pagination current pages total limit].
      rewrite length_map.
      rewrite (countDocuments_sorted q Contact.createdAt), sortDesc_length.
      destruct (Hfacts _ (Store.sortDesc Contact.createdAt (List.filter q db)) _
                  (sortDesc_length _ _)) as ([F0 F1] & F3 & F4 & F5).
      split_and!; try done.
      intros Hpast. by rewrite (F4 Hpast).
    + intros db q Hq. unfold EmailController.getSubscriptions.
      rewrite Hq, Z.mul_1_r, findSorted_window by nia.
      eexists. split; [reflexivity|]. cbn [data pagination current pages total limit].
      rewrite (countDocuments_sorted q EmailSubscription.subscriptionDate), sortDesc_length.
      destruct (Hfacts _ (Store.sortDesc EmailSubscription.subscriptionDate (List.filter q db)) _
                  (sortDesc_length _ _)) as ([F0 F1] & F3 & F4 & F5).
      split_and!; done.
Qed.

(** C10. A [page] parameter that is absent, or that [parseInt] reads as
    [NaN] or as 0, gives page 1, and a [limit] parameter of that kind gives
    10; any other value is the number [parseInt] reads. A list query that
    returns a page returns documents of the sorted match set from the one
    after the first [(page - 1) * limit] on, [limit] of them at most when
    [limit] is positive. The same holds of contacts and of subscriptions. *)
Theorem list_defaults (users : gmap nat U) (query : gmap string string) :
  ((query !! "page" = None ∨
    ∃ s, query !! "page" = Some s ∧ (JS.parseInt s = None ∨ JS.parseInt s = Some 0)) ->
   pageOf query = 1) ∧
  ((query !! "limit" = None ∨
    ∃ s, query !! "limit" = Some s ∧ (JS.parseInt s = None ∨ JS.parseInt s = Some 0)) ->
   limitOf query = 10) ∧
  (∀ s v, query !! "page" = Some s -> JS.parseInt s = Some v -> v ≠ 0 ->
          pageOf query = v) ∧
  (∀ s v, query !! "limit" = Some s -> JS.parseInt s = Some v -> v ≠ 0 ->
          limitOf query = v) ∧
  (∀ (db : list Contact.t) code msg pg,
     ContactController.getContacts users query db = Success code msg pg ->
     ∃ q, ContactController.contactFilter query = Some q ∧
          0 <= (pageOf query - 1) * limitOf query ∧
          ∃ n, data pg =
                 map (ContactController.populate users)
                   (take n
                      (drop (Z.to_nat ((pageOf query - 1) * limitOf query))
                         (Store.sortDesc Contact.createdAt (List.filter q db)))) ∧
               (0 < limitOf query -> n = Z.to_nat (limitOf query))) ∧
  (∀ (db : list EmailSubscription.t) code msg pg,
     EmailController.getSubscriptions query db = Success code msg pg ->
     ∃ q, EmailController.subscriptionFilter query = Some q ∧
          0 <= (pageOf query - 1) * limitOf query ∧
          ∃ n, data pg =
                 take n
                   (drop (Z.to_nat ((pageOf query - 1) * limitOf query))
                      (Store.sortDesc EmailSubscription.subscriptionDate
                         (List.filter q db))) ∧
               (0 < limitOf query -> n = Z.to_nat (limitOf query))).
Proof.
  split_and!.
  - unfold pageOf, JS.parseIntOr.
    intros [->|(s & -> & [->| ->])]; done.
  - unfold limitOf, JS.parseIntOr.
    intros [->|(s & -> & [->| ->])]; done.
  - unfold pageOf, JS.parseIntOr. intros s v -> -> Hv.
    by destruct (Z.eqb_spec v 0).
  - unfold limitOf, JS.parseIntOr. intros s v -> -> Hv.
    by destruct (Z.eqb_spec v 0).
  - intros db code msg pg. unfold ContactController.getContacts.
    destruct (ContactController.contactFilter query) as [q|]; [|done].
    rewrite Z.mul_1_r.
    destruct (Store.findSorted _ _ _ _ _ db) as [docs|] eqn:Hfind; [|done].
    intros [= _ _ <-].
    apply findSorted_Some in Hfind as (Hk & n & -> & Hn); [|apply limitOf_nonzero].
    exists q. split_and!; [done|done|]. by exists n.
  - intros db code msg pg. unfold EmailController.getSubscriptions.
    destruct (EmailController.subscriptionFilter query) as [q|]; [|done].
    rewrite Z.mul_1_r.
    destruct (Store.findSorted _ _ _ _ _ db) as [docs|] eqn:Hfind; [|done].
    intros [= _ _ <-].
    apply findSorted_Some in Hfind as (Hk & n & -> & Hn); [|apply limitOf_nonzero].
    exists q. split_and!; [done|done|]. by exists n.
Qed.

(** The search term is the pattern: the filter of a list query with a search
    term is built from the term as the store compiles it, and there is no
    filter, hence a 500 failure, when the store rejects the term. *)
Lemma search_term_is_pattern (query : gmap string string) (term : string) :
  query !! "search" = Some term -> term ≠ "" ->
  ContactController.contactFilter query =
    match regexCompile term with
    | Some test =>
        Some (fun c => ContactController.eqStatus query c
                       && ContactController.eqPriority query c
                       && (test (Contact.name c) || test (Contact.email c)
                           || test (Contact.phone c)))
    | None => None
    end ∧
  EmailController.subscriptionFilter query =
    match regexCompile term with
    | Some test =>
        Some (fun d => EmailController.eqStatus query d
                       && EmailController.eqSource query d
                       && test (EmailSubscription.email d))
    | None => None
    end.
Proof.
  intros Hq Hne.
  unfold ContactController.contactFilter, EmailController.subscriptionFilter.
  rewrite Hq. destruct term; [done|]. done.
Qed.

(** A list query whose filter is [qc] (contacts) and [qs] (subscriptions)
    selects with them. *)
Lemma filters_select (users : gmap nat U) (query : gmap string string)
    (qc : Contact.t -> bool) (qs : EmailSubscription.t -> bool) :
  ContactController.contactFilter query = Some qc ->
  EmailController.subscriptionFilter query = Some qs ->
  selects users query qc qs.
Proof.
  intros Hqc Hqs. unfold selects. split_and!.
  - intros db code msg pg. unfold ContactController.getContacts.
    rewrite Hqc, Z.mul_1_r.
    destruct (Store.findSorted _ _ _ _ _ db) as [docs|] eqn:Hfind; [|done].
    intros [= _ _ <-]. split; [reflexivity|].
    apply findSorted_Some in Hfind as (Hk & n & -> & Hn); [|apply limitOf_nonzero].
    by exists n.
  - intros db code msg pg. unfold EmailController.getSubscriptions.
    rewrite Hqs, Z.mul_1_r.
    destruct (Store.findSorted _ _ _ _ _ db) as [docs|] eqn:Hfind; [|done].
    intros [= _ _ <-]. split; [reflexivity|].
    apply findSorted_Some in Hfind as (Hk & n & -> & Hn); [|apply limitOf_nonzero].
    by exists n.
  - intros Hp Hl. split; intros db.
    + unfold ContactController.getContacts. rewrite Hqc, Z.mul_1_r.
      rewrite findSorted_window by nia. by eexists.
    + unfold EmailController.getSubscriptions. rewrite Hqs, Z.mul_1_r.
      rewrite findSorted_window by nia. by eexists.
Qed.

(** Two tests that agree on every document select the same documents. *)
Lemma selects_ext (users : gmap nat U) (query : gmap string string)
    (qc qc' : Contact.t -> bool) (qs qs' : EmailSubscription.t -> bool) :
  (∀ c, qc c = qc' c) -> (∀ d, qs d = qs' d) ->
  selects users query qc qs -> selects users query qc' qs'.
Proof.
  intros Hc Hs (Hcontacts & Hsubs & Hruns).
  unfold selects, Store.countDocuments in *. split_and!.
  - intros db code msg pg Hrun. rewrite <- (List.filter_ext qc qc' Hc db).
    by apply (Hcontacts db code msg).
  - intros db code msg pg Hrun. rewrite <- (List.filter_ext qs qs' Hs db).
    by apply (Hsubs db code msg).
  - exact Hruns.
Qed.

(** C4 as amended. The search term of a list query is handed to the store,
    not escaped, as a case-insensitive regular expression over [name],
    [email] and [phone] (contacts) or [email] (subscriptions). When the store
    rejects the term as a pattern, both list handlers answer 500. When the
    store compiles it to a test, the handlers count and list the documents
    that pass the equality filters and whose field, one of them, passes the
    test: the filter is the one the store compiles from the term itself. With
    an engine that reads a term without metacharacters as the search for
    that text up to case, a query with such a term counts and lists the
    documents that pass the equality filters and hold the term, up to case,
    in one of those fields. *)
Theorem search_is_regex (users : gmap nat U) (query : gmap string string)
    (term : string) :
  query !! "search" = Some term -> term ≠ "" ->
  (ContactController.contactFilter query =
     match regexCompile term with
     | Some test =>
         Some (fun c => ContactController.eqStatus query c
                        && ContactController.eqPriority query c
                        && (test (Contact.name c) || test (Contact.email c)
                            || test (Contact.phone c)))
     | None => None
     end ∧
   EmailController.subscriptionFilter query =
     match regexCompile term with
     | Some test =>
         Some (fun d => EmailController.eqStatus query d
                        && EmailController.eqSource query d
                        && test (EmailSubscription.email d))
     | None => None
     end) ∧
  (regexCompile term = None ->
   (∀ db, ContactController.getContacts users query db =
            Failure 500 "Failed to fetch contacts" []) ∧
   (∀ db, EmailController.getSubscriptions query db =
            Failure 500 "Failed to fetch subscriptions" [])) ∧
  (∀ test, regexCompile term = Some test ->
     selects users query
       (fun c => ContactController.eqStatus query c
                 && ContactController.eqPriority query c
                 && (test (Contact.name c) || test (Contact.email c)
                     || test (Contact.phone c)))
       (fun d => EmailController.eqStatus query d
                 && EmailController.eqSource query d
                 && test (EmailSubscription.email d))) ∧
  ((∀ t, RegexLite.plain t = true ->
         ∃ test, regexCompile t = Some test ∧ ∀ s, test s = Spec.containsCI t s) ->
   RegexLite.plain term = true ->
   (∃ q, ContactController.contactFilter query = Some q ∧
         ∀ c, q c = ContactController.eqStatus query c
                    && ContactController.eqPriority query c
                    && (Spec.containsCI term (Contact.name c)
                        || Spec.containsCI term (Contact.email c)
                        || Spec.containsCI term (Contact.phone c))) ∧
   (∃ q, EmailController.subscriptionFilter query = Some q ∧
         ∀ d, q d = EmailController.eqStatus query d
                    && EmailController.eqSource query d
                    && Spec.containsCI term (EmailSubscription.email d)) ∧
   selects users query
     (fun c => ContactController.eqStatus query c
               && ContactController.eqPriority query c
               && (Spec.containsCI term (Contact.name c)
                   || Spec.containsCI term (Contact.email c)
                   || Spec.containsCI term (Contact.phone c)))
     (fun d => EmailController.eqStatus query d
               && EmailController.eqSource query d
               && Spec.containsCI term (EmailSubscription.email d))).
Proof.
  intros Hq Hne.
  pose proof (search_term_is_pattern query term Hq Hne) as Hpat.
  split; [exact Hpat|]. destruct Hpat as [Hc Hs]. split_and!.
  - intros Hrej. rewrite Hrej in Hc, Hs. split; intros db.
    + unfold ContactController.getContacts. by rewrite Hc.
    + unfold EmailController.getSubscriptions. by rewrite Hs.
  - intros test Hcomp. rewrite Hcomp in Hc, Hs. by apply filters_select.
  - intros Hengine Hplain.
    destruct (Hengine term Hplain) as (test & Hcomp & Htest).
    rewrite Hcomp in Hc, Hs. split_and!.
    + eexists. split; [exact Hc|]. intros c. cbn beta. by rewrite !Htest.
    + eexists. split; [exact Hs|]. intros d. cbn beta. by rewrite !Htest.
    + eapply selects_ext; [| |by apply filters_select].
      * intros c. cbn beta. by rewrite !Htest.
      * intros d. cbn beta. by rewrite !Htest.
Qed.

End ListQueries.

(** ** The fragment engine *)

Lemma plain_cons (c : ascii) (t : string) :
  RegexLite.plain (String c t) = true ->
  RegexLite.isMeta c = false ∧ Ascii.eqb c "." = false ∧ RegexLite.plain t = true.
Proof.
  unfold RegexLite.plain. cbn [RegexLite.anyChar].
  destruct (RegexLite.isMeta c), (Ascii.eqb c "."); cbn; try done.
Qed.

Lemma plain_no_meta (t : string) :
  RegexLite.plain t = true -> RegexLite.anyChar RegexLite.isMeta t = false.
Proof.
  induction t as [|c t IH]; [done|].
  intros (Hm & _ & Ht)%plain_cons. cbn [RegexLite.anyChar]. by rewrite Hm, IH.
Qed.

Lemma matchHere_plain (t s : string) :
  RegexLite.plain t = true -> RegexLite.matchHere t s = Spec.prefixCI t s.
Proof.
  revert s. induction t as [|c t IH]; intros s Hplain; [done|].
  apply plain_cons in Hplain as (_ & Hdot & Ht).
  destruct s as [|a s]; [done|].
  cbn [RegexLite.matchHere Spec.prefixCI]. unfold RegexLite.atom.
  by rewrite Hdot, IH.
Qed.

Lemma search_plain (t s : string) :
  RegexLite.plain t = true -> RegexLite.search t s = Spec.containsCI t s.
Proof.
  intros Hplain. induction s as [|a s IH].
  - cbn [RegexLite.search Spec.containsCI]. by rewrite matchHere_plain.
  - cbn [RegexLite.search Spec.containsCI]. by rewrite matchHere_plain, IH.
Qed.

(** The fragment engine reads a term without metacharacters as the search
    for that text up to case. *)
Lemma lite_engine_plain (t : string) :
  RegexLite.plain t = true ->
  ∃ test, regexCompile (Externals := liteExternals) t = Some test ∧
          ∀ s, test s = Spec.containsCI t s.
Proof.
  intros Hplain. exists (RegexLite.search t). split.
  - cbn. unfold RegexLite.compile. by rewrite plain_no_meta.
  - intros s. by apply search_plain.
Qed.

(** ** The theorems at sample inputs *)

(** C1 fails as stated: for a record with status bounced, which is not
    active, subscribe does not reactivate; it tries to insert a second
    document with the address, the unique index rejects it, and the call
    answers 500 with the record as it was. *)
Lemma subscribe_bounced_not_reactivated :
  let sub := Examples.subscription 1 "a@example.com" EmailSubscription.bounced 0 0 0 in
  let req := Examples.subscribeReq "a@example.com" None in
  EmailSubscription.status sub ≠ EmailSubscription.active ∧
  EmailController.findOne (EmailController.body_email req) [sub] = Some (0%nat, sub) ∧
  EmailController.subscribeEmail (H := liteExternals) 5000 req [sub] =
    (Failure 500 "Failed to subscribe. Please try again later." [], [sub]).
Proof. cbn zeta. split_and!; [done|reflexivity|reflexivity]. Qed.

Lemma reactivation_witness :
  let sub := Examples.subscription 1 "a@example.com" EmailSubscription.unsubscribed 0 0 0 in
  let req := Examples.subscribeReq "a@example.com" (Some {["events" := false]}) in
  ∃ d, EmailController.subscribeEmail (H := liteExternals) 5000 req [sub] =
         (Success 200 (Some "Welcome back! Your email subscription has been reactivated.")
            (EmailController.summary d), [d]) ∧
       EmailSubscription.status d = EmailSubscription.active ∧
       EmailSubscription.preferences d =
         {| EmailSubscription.newsletters := true;
            EmailSubscription.promotions := false;
            EmailSubscription.updates := true;
            EmailSubscription.events := false |}.
Proof.
  intros sub req.
  destruct (proj1 (reactivation (H := liteExternals)) 5000 req [sub] 0%nat sub
              eq_refl eq_refl eq_refl)
    as (d & Hrun & Hst & _ & _ & _ & _ & _ & Hprefs & _).
  exists d. split_and!; [exact Hrun|exact Hst|exact Hprefs].
Defined.

(** A record with status bounced is one the handlers produce: subscribe,
    then an administrator's update of the status, then subscribe again. *)
Example bounced_record_trace :
  let req := Examples.subscribeReq "a@example.com" None in
  let '(r1, db1) := EmailController.subscribeEmail (H := liteExternals) 1000 req [] in
  let '(r2, db2) :=
    EmailController.updateSubscription 2000
      {| EmailController.params_id := 1;
         EmailController.upd_status := Some "bounced";
         EmailController.upd_preferences := None;
         EmailController.upd_tags := None |} db1 in
  let '(r3, db3) := EmailController.subscribeEmail (H := liteExternals) 3000 req db2 in
  (∃ s, r1 = Success 201
               (Some "Thank you for subscribing! You will receive our latest updates and offers.") s) ∧
  EmailSubscription.status <$> db2 = [EmailSubscription.bounced] ∧
  r3 = Failure 500 "Failed to subscribe. Please try again later." [] ∧
  db3 = db2.
Proof. vm_compute. split_and!; [by eexists|done|done|done]. Qed.

(** C2 fails as stated: the second of two racing subscribe calls found no
    record, its insert is rejected by the unique index, and the answer is the
    generic 500 failure, not the 409 conflict; the same happens, without a
    race, for an address whose record is complained. *)
Lemma duplicate_key_not_conflict :
  let req := Examples.subscribeReq "a@example.com" None in
  let winner := Examples.subscription 1 "a@example.com" EmailSubscription.active 0 0 0 in
  let old := Examples.subscription 1 "a@example.com" EmailSubscription.complained 0 0 0 in
  EmailController.saveNew (H := liteExternals) 5000
    (EmailController.newSubscription 5000 2 "a@example.com"
       EmailSubscription.website_popup ∅ (Some "10.0.0.2") (Some "curl") None)
    [winner] = inl DuplicateKey ∧
  EmailController.subscribeAfterFind (H := liteExternals) 5000 req None [winner] =
    (Failure 500 "Failed to subscribe. Please try again later." [], [winner]) ∧
  EmailController.subscribeEmail (H := liteExternals) 5000 req [old] =
    (Failure 500 "Failed to subscribe. Please try again later." [], [old]) ∧
  (EmailController.subscribeAfterFind (H := liteExternals) 5000 req None [winner]).1 ≠
    Failure 409 "This email is already subscribed to our newsletter" [].
Proof. cbn zeta. split_and!; [reflexivity|reflexivity|reflexivity|done]. Qed.

Lemma subscribe_duplicate_key_witness :
  let req := Examples.subscribeReq "a@example.com" None in
  let winner := Examples.subscription 1 "a@example.com" EmailSubscription.active 0 0 0 in
  EmailController.subscribeAfterFind (H := liteExternals) 5000 req None [winner] =
    (Failure 500 "Failed to subscribe. Please try again later." [], [winner]).
Proof.
  intros req winner.
  exact (proj1 (subscribe_duplicate_key (H := liteExternals) 5000 req None [winner]
                  (or_introl eq_refl) eq_refl)).
Defined.

Lemma subscribe_active_conflict_witness :
  let sub := Examples.subscription 1 "a@example.com" EmailSubscription.active 50 10 2 in
  let req := Examples.subscribeReq "a@example.com" None in
  (EmailController.subscribeEmail (H := liteExternals) 5000 req [sub]).2 = [sub] ∧
  (EmailController.subscribeEmail (H := liteExternals) 5000 req [sub]).1 =
    Failure 409 "This email is already subscribed to our newsletter" [].
Proof.
  intros sub req.
  destruct (subscribe_active_conflict (H := liteExternals) 5000 req [sub] 0%nat sub
              eq_refl eq_refl) as (Hdb & _ & Hresp).
  split; [exact Hdb|exact (Hresp eq_refl)].
Defined.

(** C9 fails as stated: a request with the empty string as its reason gives
    a reason, and the stored reason is 'User requested'. *)
Lemma unsubscribe_empty_reason :
  let sub := Examples.subscription 1 "a@example.com" EmailSubscription.active 0 0 0 in
  let req := {| EmailController.unsub_email := "a@example.com";
                EmailController.unsub_reason := Some "" |} in
  EmailSubscription.unsubscriptionReason <$> (EmailController.unsubscribeEmail 5000 req [sub]).2
    = [Some "User requested"] ∧
  EmailController.unsub_reason req ≠ Some "User requested" ∧
  EmailController.unsub_reason req ≠ None.
Proof. cbn zeta. split_and!; [reflexivity|done|done]. Qed.

Lemma unsubscribe_outcomes_witness :
  let sub := Examples.subscription 1 "a@example.com" EmailSubscription.active 0 0 0 in
  let req := {| EmailController.unsub_email := "a@example.com";
                EmailController.unsub_reason := Some "too many e-mails" |} in
  ∃ d, EmailController.unsubscribeEmail 5000 req [sub] =
         (Success 200
            (Some "You have been successfully unsubscribed from our mailing list") tt,
          [d]) ∧
       EmailSubscription.status d = EmailSubscription.unsubscribed ∧
       EmailSubscription.unsubscriptionDate d = Some 5000 ∧
       EmailSubscription.unsubscriptionReason d = Some "too many e-mails".
Proof.
  intros sub req.
  destruct (unsubscribe_outcomes 5000 req [sub]) as (_ & _ & Hthird).
  destruct (Hthird 0%nat sub eq_refl ltac:(discriminate))
    as (d & reason & Hrun & _ & Hst & Hdate & Hreason & ->).
  exists d. split_and!; [exact Hrun|exact Hst|exact Hdate|exact Hreason].
Defined.

(** C4 fails as stated: the term [a.c] selects a contact named [abc], in
    which the text [a.c] does not occur: the dot acts as a pattern. *)
Lemma search_dot_is_wildcard :
  let abc := Examples.contact 1 "abc" "guest@example.com" "0123456789" 1000 in
  let query : gmap string string := {["search" := "a.c"]} in
  (∃ pg, ContactController.getContacts (H := liteExternals) (∅ : gmap nat unit) query [abc]
           = Success 200 None pg ∧
         data pg = [(abc, None)]) ∧
  Spec.containsCI "a.c" (Contact.name abc) = false ∧
  Spec.containsCI "a.c" (Contact.email abc) = false ∧
  Spec.containsCI "a.c" (Contact.phone abc) = false.
Proof.
  cbn zeta. split_and!; [|reflexivity..].
  eexists. split; [vm_compute; reflexivity|reflexivity].
Qed.

Lemma search_is_regex_witness :
  let query : gmap string string := {["search" := "GUEST"]} in
  let rejected : gmap string string := {["search" := "gue(st"]} in
  ContactController.getContacts (H := liteExternals) (∅ : gmap nat unit) rejected
    Examples.contacts25 = Failure 500 "Failed to fetch contacts" [] ∧
  ∃ pg, ContactController.getContacts (H := liteExternals) (∅ : gmap nat unit) query
          Examples.contacts25 = Success 200 None pg ∧
        total (pagination pg) = 25 ∧
        length (data pg) = 10%nat.
Proof.
  intros query rejected. split.
  - destruct (search_is_regex (H := liteExternals) (∅ : gmap nat unit) rejected "gue(st"
                eq_refl ltac:(discriminate)) as (_ & Hrej & _).
    exact (proj1 (Hrej eq_refl) Examples.contacts25).
  - destruct (search_is_regex (H := liteExternals) (∅ : gmap nat unit) query "GUEST"
                eq_refl ltac:(discriminate)) as (_ & _ & _ & Hplain).
    destruct (Hplain lite_engine_plain eq_refl) as (_ & _ & Hsel & _ & Hruns).
    assert (Hp : 1 <= pageOf query) by (vm_compute; discriminate).
    assert (Hl : 1 <= limitOf query) by (vm_compute; discriminate).
    destruct (proj1 (Hruns Hp Hl) Examples.contacts25) as [pg Hrun].
    destruct (Hsel Examples.contacts25 _ _ _ Hrun) as (Htotal & n & Hdata & Hn).
    exists pg. split_and!; [exact Hrun|rewrite Htotal; reflexivity|].
    rewrite Hdata, (Hn ltac:(lia)). reflexivity.
Defined.

Lemma list_pagination_witness :
  let query : gmap string string := {["page" := "3"; "limit" := "10"]} in
  ∃ pg, ContactController.getContacts (H := liteExternals) (∅ : gmap nat unit) query
          Examples.contacts25 = Success 200 None pg ∧
        length (data pg) = 5%nat ∧
        pages (pagination pg) = 3 ∧
        total (pagination pg) = 25.
Proof.
  intros query.
  assert (Hp : 1 <= pageOf query) by (vm_compute; discriminate).
  assert (Hl : 1 <= limitOf query) by (vm_compute; discriminate).
  destruct (list_pagination (H := liteExternals) (∅ : gmap nat unit) query)
    as (_ & _ & Hpages).
  destruct (proj1 (Hpages Hp Hl) Examples.contacts25 _ eq_refl)
    as (pg & Hrun & _ & Htotal & _ & _ & _ & H25).
  exists pg. split; [exact Hrun|].
  assert (Ht : total (pagination pg) = 25) by (rewrite Htotal; reflexivity).
  destruct (H25 Ht eq_refl eq_refl) as [Hlen Hpages3].
  split_and!; [exact Hlen|exact Hpages3|exact Ht].
Defined.

Lemma list_defaults_witness :
  let query : gmap string string := {["page" := "abc"; "limit" := "0"]} in
  pageOf query = 1 ∧ limitOf query = 10.
Proof.
  intros query.
  destruct (list_defaults (H := liteExternals) (∅ : gmap nat unit) query)
    as (Hpage & Hlimit & _).
  split.
  - apply Hpage. right. exists "abc". split; [reflexivity|]. left. reflexivity.
  - apply Hlimit. right. exists "0". split; [reflexivity|]. right. reflexivity.
Defined.

Lemma createContact_one_system_note_witness :
  ∃ s db', ContactController.createContact (H := liteExternals) 5000 Examples.createReq []
             = (Success 201
                  (Some "Contact request submitted successfully! We will get back to you soon.")
                  s, db').
Proof.
  destruct (createContact_one_system_note (H := liteExternals) 5000 Examples.createReq [])
    as (_ & Hcreates & _).
  exact (Hcreates eq_refl eq_refl eq_refl).
Defined.

Lemma stats_grouped_counts_witness :
  ∃ st, ContactController.getContactStats 5000 0 0 Examples.contacts25 = Success 200 None st ∧
        (Contact.new, 25%nat) ∈ ContactController.byStatus st ∧
        ContactController.total st = 25.
Proof.
  destruct (stats_grouped_counts 5000 0 0 Examples.contacts25 [])
    as ((st & Hrun & Hstatus & _ & _ & _ & _ & Htotal) & _).
  exists st. split_and!; [exact Hrun| |exact Htotal].
  apply Hstatus. split; [reflexivity|]. apply Nat.lt_0_succ.
Defined.

(** ** The helpers at sample inputs *)

Example parseInt_decimal : JS.parseInt "10" = Some 10.
Proof. reflexivity. Qed.

Example parseInt_not_a_number : JS.parseInt "abc" = None.
Proof. reflexivity. Qed.

Example parseInt_prefix : JS.parseInt " 42px" = Some 42.
Proof. reflexivity. Qed.

Example parseInt_negative : JS.parseInt "-3" = Some (-3).
Proof. reflexivity. Qed.

Example parseInt_hexadecimal : JS.parseInt "0x1f" = Some 31.
Proof. reflexivity. Qed.

Example parseInt_empty : JS.parseInt "" = None.
Proof. reflexivity. Qed.

Example ceilDiv_25_10 : JS.ceilDiv 25 10 = 3.
Proof. reflexivity. Qed.

(** A page number below 1 makes the skip negative, which the store refuses:
    the query fails. *)
Example negative_page_fails :
  ContactController.getContacts (H := liteExternals) (∅ : gmap nat unit)
    {["page" := "-1"]} Examples.contacts25 = Failure 500 "Failed to fetch contacts" [].
Proof. vm_compute. reflexivity. Qed.

(** A page past the last one is empty. *)
Example page_past_the_last :
  ∃ pgn, ContactController.getContacts (H := liteExternals) (∅ : gmap nat unit)
           {["page" := "4"]} Examples.contacts25 =
         Success 200 None {| data := []; pagination := pgn |}.
Proof. vm_compute. by eexists. Qed.

(** * Further properties *)

(** ** Subscriptions: creation and what the collection keeps *)

Section SubscriptionStore.
Context `{Externals}.
Import EmailSubscription EmailController.

Lemma preSave_untouched (now : Z) (a b : bool) (d : t) :
  EmailSubscription.email (preSave now a b d) = EmailSubscription.email d ∧
  _id (preSave now a b d) = _id d ∧
  EmailSubscription.status (preSave now a b d) = EmailSubscription.status d ∧
  isVerified (preSave now a b d) = isVerified d.
Proof.
  unfold preSave.
  destruct (a && isVerified d && _); destruct (b && _ && _); done.
Qed.

(** A new document comes out of the pre-save middleware as it went in. *)
Lemma preSave_newSubscription (now : Z) (oid : nat) (e : string) (src : Source)
    (p : gmap string bool) (ipAddress userAgent referrer : option string) :
  preSave now true false (newSubscription now oid e src p ipAddress userAgent referrer) =
  newSubscription now oid e src p ipAddress userAgent referrer.
Proof. reflexivity. Qed.

Lemma saveNew_inr (now : Z) (d d' : t) (db db' : list t) :
  saveNew now d db = inr (d', db') ->
  d' = preSave now true false d ∧ db' = db ++ [d'] ∧
  subscriptionValid d = true ∧
  ¬ Exists (fun x => EmailSubscription.email x = EmailSubscription.email d') db.
Proof.
  unfold saveNew. destruct (subscriptionValid d); [|done].
  case_bool_decide as Hdup; [done|]. intros [= <- <-]. done.
Qed.

(** The answer and the store after a subscribe call for a free address. *)
Lemma subscribeEmail_fresh (now : Z) (req : SubscribeReq) (db : list t) :
  let d := newSubscription now (freshId db) (body_email req)
             (default website_footer (body_source req)) (default ∅ (body_preferences req))
             (clientAddress (ip req) (remoteAddress req))
             (userAgentHeader req) (refererHeader req) in
  errors req = [] ->
  findOne (body_email req) db = None ->
  subscriptionValid d = true ->
  ¬ Exists (fun x => EmailSubscription.email x = JS.toLowerCase (JS.trim (body_email req))) db ->
  subscribeEmail now req db =
    (Success 201
       (Some "Thank you for subscribing! You will receive our latest updates and offers.")
       (summary d), db ++ [d]).
Proof.
  intros d Herr Hfind Hvalid Hfree. subst d.
  unfold subscribeEmail, subscribeAfterFind. rewrite Herr, Hfind.
  rewrite bool_decide_eq_true_2 by done. cbn [negb].
  unfold saveNew. rewrite Hvalid, preSave_newSubscription.
  by rewrite bool_decide_eq_false_2 by exact Hfree.
Qed.

(** X1. A subscribe call that passed validation, for an address that no
    record has, with a document the schema accepts: the call answers 201 and
    appends the new subscription, which is active, verified at the time of
    the call, with the address trimmed and in lower case, no e-mail sent, and
    each preference flag true unless the request says otherwise. *)
Theorem subscribe_creates (now : Z) (req : SubscribeReq) (db : list t) :
  errors req = [] ->
  findOne (body_email req) db = None ->
  subscriptionValid
    (newSubscription now (freshId db) (body_email req)
       (default website_footer (body_source req)) (default ∅ (body_preferences req))
       (clientAddress (ip req) (remoteAddress req))
       (userAgentHeader req) (refererHeader req)) = true ->
  ¬ Exists (fun x => EmailSubscription.email x = JS.toLowerCase (JS.trim (body_email req))) db ->
  ∃ d,
    subscribeEmail now req db =
      (Success 201
         (Some "Thank you for subscribing! You will receive our latest updates and offers.")
         (summary d), db ++ [d]) ∧
    EmailSubscription.email d = JS.toLowerCase (JS.trim (body_email req)) ∧
    EmailSubscription.status d = active ∧
    isVerified d = true ∧ verifiedAt d = Some now ∧
    EmailSubscription.subscriptionDate d = now ∧
    unsubscriptionDate d = None ∧
    source d = default website_footer (body_source req) ∧
    (emailsSent d, emailsOpened d, emailsClicked d) = (0, 0, 0) ∧
    (∀ b, newsletters (preferences d) = b <->
          default true (default ∅ (body_preferences req) !! "newsletters") = b) ∧
    (∀ b, promotions (preferences d) = b <->
          default true (default ∅ (body_preferences req) !! "promotions") = b) ∧
    (∀ b, updates (preferences d) = b <->
          default true (default ∅ (body_preferences req) !! "updates") = b) ∧
    (∀ b, events (preferences d) = b <->
          default true (default ∅ (body_preferences req) !! "events") = b).
Proof.
  intros Herr Hfind Hvalid Hfree.
  eexists. split.
  - exact (subscribeEmail_fresh now req db Herr Hfind Hvalid Hfree).
  - split_and!; reflexivity.
Qed.

(** A save of a loaded document whose address was not written leaves the
    addresses of the collection as they were. *)
Lemma saveLoaded_emails (now : Z) (i : nat) (old d : t) (db : list t) :
  db !! i = Some old ->
  EmailSubscription.email d = EmailSubscription.email old ->
  EmailSubscription.email <$> (saveLoaded now i old d db).2 = EmailSubscription.email <$> db.
Proof.
  intros Hi He. unfold saveLoaded. cbn [snd].
  rewrite list_fmap_insert. apply list_insert_id.
  rewrite list_lookup_fmap, Hi. cbn. f_equal.
  destruct (preSave_untouched now
              (negb (bool_decide (isVerified d = isVerified old)))
              (negb (bool_decide (EmailSubscription.status d = EmailSubscription.status old)))
              (if bool_decide (d = old) then d else set_updatedAt now d)) as (-> & _).
  by case_bool_decide.
Qed.

Lemma saveLoaded_ids (now : Z) (i : nat) (old d : t) (db : list t) :
  db !! i = Some old ->
  _id d = _id old ->
  _id <$> (saveLoaded now i old d db).2 = _id <$> db.
Proof.
  intros Hi He. unfold saveLoaded. cbn [snd].
  rewrite list_fmap_insert. apply list_insert_id.
  rewrite list_lookup_fmap, Hi. cbn. f_equal.
  destruct (preSave_untouched now
              (negb (bool_decide (isVerified d = isVerified old)))
              (negb (bool_decide (EmailSubscription.status d = EmailSubscription.status old)))
              (if bool_decide (d = old) then d else set_updatedAt now d)) as (_ & -> & _).
  by case_bool_decide.
Qed.

(** What the assignments of [updateSubscription] leave as it was, and the
    status they write. *)
Lemma applyUpdate_fields (req : UpdateReq) (sub s3 : t) :
  applyUpdate req sub = Some s3 ->
  EmailSubscription.email s3 = EmailSubscription.email sub ∧ _id s3 = _id sub ∧
  isVerified s3 = isVerified sub ∧ verifiedAt s3 = verifiedAt sub ∧
  unsubscriptionDate s3 = unsubscriptionDate sub ∧
  unsubscriptionReason s3 = unsubscriptionReason sub ∧
  match JS.truthy (upd_status req) with
  | Some s => statusOfName s = Some (EmailSubscription.status s3)
  | None => EmailSubscription.status s3 = EmailSubscription.status sub
  end ∧
  EmailSubscription.subscriptionDate s3 = EmailSubscription.subscriptionDate sub ∧
  (emailsSent s3, emailsOpened s3, emailsClicked s3) =
    (emailsSent sub, emailsOpened sub, emailsClicked sub).
Proof.
  unfold applyUpdate. intros Happ.
  destruct (JS.truthy (upd_status req)) as [s|];
    [destruct (statusOfName s) as [st|]; [|done]|];
    (destruct (upd_preferences req) as [p|];
       [destruct (castPreferences p) as [flags|]; [|done]|]);
    destruct (upd_tags req); injection Happ as <-; done.
Qed.

(** X2. The handlers keep the addresses of the subscriptions distinct:
    subscribe, unsubscribe, the administrator's update and delete take a
    collection without two records of one address to such a collection. *)
Theorem emails_stay_unique (now : Z) (db : list t) :
  Invariant.uniqueEmails db ->
  (∀ req, Invariant.uniqueEmails (subscribeEmail now req db).2) ∧
  (∀ req, Invariant.uniqueEmails (unsubscribeEmail now req db).2) ∧
  (∀ req, Invariant.uniqueEmails (updateSubscription now req db).2) ∧
  (∀ oid, Invariant.uniqueEmails (deleteSubscription oid db).2).
Proof.
  unfold Invariant.uniqueEmails. intros Hnd. split_and!.
  - intros req. unfold subscribeEmail. case_bool_decide; cbn [negb]; [|done].
    unfold subscribeAfterFind.
    assert (Hcreate : ∀ d, NoDup (EmailSubscription.email <$>
              (match saveNew now d db with
               | inr (d', db') =>
                   (Success 201
                      (Some "Thank you for subscribing! You will receive our latest updates and offers.")
                      (summary d'), db')
               | inl _ => (Failure 500 "Failed to subscribe. Please try again later." [], db)
               end).2)).
    { intros d. destruct (saveNew now d db) as [?|[d' db']] eqn:Hsave; [done|].
      apply saveNew_inr in Hsave as (_ & -> & _ & Hfree). cbn [snd].
      rewrite fmap_app. apply NoDup_app. split_and!; [done| |apply NoDup_singleton].
      intros e He ->%list_elem_of_singleton.
      apply Hfree, Exists_exists.
      apply list_elem_of_fmap in He as (x & Hx & Hin). eauto. }
    destruct (findOne (body_email req) db) as [[i sub]|] eqn:Hfind; [|apply Hcreate].
    case_bool_decide; [done|]. case_bool_decide as Hun; [|apply Hcreate].
    apply list_find_Some in Hfind as (Hi & _).
    destruct (saveLoaded _ _ _ _ _) as [d db'] eqn:Hsave. cbn [snd].
    replace db' with (saveLoaded now i sub
      (reactivate now (default website_footer (body_source req))
         (default ∅ (body_preferences req)) (clientAddress (ip req) (remoteAddress req))
         (userAgentHeader req) (refererHeader req) sub) db).2 by (by rewrite Hsave).
    rewrite saveLoaded_emails; [done|done|].
    unfold reactivate. by case_bool_decide.
  - intros req. unfold unsubscribeEmail.
    destruct (findOne (unsub_email req) db) as [[i sub]|] eqn:Hfind; [|done].
    case_bool_decide; [done|].
    apply list_find_Some in Hfind as (Hi & _).
    destruct (saveLoaded _ _ _ _ _) as [d db'] eqn:Hsave. cbn [snd].
    replace db' with (saveLoaded now i sub
      (set_unsubscriptionReason (Some (JS.orElse (unsub_reason req) "User requested"))
         (set_unsubscriptionDate (Some now) (set_status unsubscribed sub))) db).2
      by (by rewrite Hsave).
    by rewrite saveLoaded_emails.
  - intros req. unfold updateSubscription.
    destruct (list_find _ db) as [[i sub]|] eqn:Hfind; [|done].
    apply list_find_Some in Hfind as (Hi & _).
    destruct (applyUpdate req sub) as [s3|] eqn:Happ; [|done].
    destruct (saveLoaded _ _ _ _ _) as [d db'] eqn:Hsave. cbn [snd].
    match type of Hsave with saveLoaded _ _ _ ?x _ = _ =>
      replace db' with (saveLoaded now i sub x db).2 by (by rewrite Hsave) end.
    rewrite saveLoaded_emails; [done|done|].
    apply (applyUpdate_fields req sub s3 Happ).
  - intros oid. unfold deleteSubscription.
    destruct (list_find _ db) as [[i sub]|]; [|done]. cbn [snd].
    rewrite list_fmap_delete. eapply sublist_NoDup; [exact Hnd|]. apply sublist_delete.
Qed.

(** What [save] stores for a loaded document whose [isVerified] was not
    written: the document as written, with [unsubscriptionDate] set by the
    middleware when the status moved to unsubscribed and no date was there,
    and [updatedAt] moved when something was written. *)
Lemma saveLoaded_result (now : Z) (i : nat) (old d : t) (db : list t) :
  isVerified d = isVerified old ->
  saveLoaded now i old d db =
  (let d' :=
     withLifecycle (EmailSubscription.status d) (source d)
       (EmailSubscription.subscriptionDate d)
       (if negb (bool_decide (EmailSubscription.status d = EmailSubscription.status old))
           && bool_decide (EmailSubscription.status d = unsubscribed)
           && negb (bool_decide (is_Some (unsubscriptionDate d)))
        then Some now else unsubscriptionDate d)
       (unsubscriptionReason d) (preferences d) (metadata d) (verifiedAt d)
       (if bool_decide (d = old) then updatedAt d else now) d in
   (d', <[i := d']> db)).
Proof.
  intros Hver. unfold saveLoaded.
  rewrite (bool_decide_eq_true_2 _ Hver). cbn [negb].
  assert (Hd : preSave now false
                 (negb (bool_decide (EmailSubscription.status d = EmailSubscription.status old)))
                 (if bool_decide (d = old) then d else set_updatedAt now d) =
               withLifecycle (EmailSubscription.status d) (source d)
                 (EmailSubscription.subscriptionDate d)
                 (if negb (bool_decide (EmailSubscription.status d = EmailSubscription.status old))
                     && bool_decide (EmailSubscription.status d = unsubscribed)
                     && negb (bool_decide (is_Some (unsubscriptionDate d)))
                  then Some now else unsubscriptionDate d)
                 (unsubscriptionReason d) (preferences d) (metadata d) (verifiedAt d)
                 (if bool_decide (d = old) then updatedAt d else now) d).
  { unfold preSave. cbn [andb].
    destruct (bool_decide (d = old)); cbn;
      destruct (negb _ && _ && _); by destruct d. }
  by rewrite Hd.
Qed.

Lemma saveLoaded_stamped (now : Z) (i : nat) (old d : t) (db : list t) :
  Invariant.stamped old ->
  isVerified d = isVerified old -> verifiedAt d = verifiedAt old ->
  (EmailSubscription.status d = EmailSubscription.status old ->
   unsubscriptionDate d = unsubscriptionDate old) ->
  Invariant.stamped (saveLoaded now i old d db).1.
Proof.
  intros [Hold1 Hold2] Hver Hat Hdate. rewrite saveLoaded_result by done.
  cbn [fst]. split; cbn.
  - intros Hst. rewrite (bool_decide_eq_true_2 _ Hst).
    destruct (decide (EmailSubscription.status d = EmailSubscription.status old)) as [Heq|Hne].
    + rewrite (bool_decide_eq_true_2 _ Heq). cbn. rewrite Hdate by done.
      apply Hold1. congruence.
    + rewrite (bool_decide_eq_false_2 _ Hne). cbn.
      destruct (unsubscriptionDate d); cbn; eauto.
  - rewrite Hver, Hat. exact Hold2.
Qed.

(** X3. The handlers keep the stamps of the pre-save middleware: when every
    record that is unsubscribed has its [unsubscriptionDate] and every record
    that is verified has its [verifiedAt], the same holds after subscribe,
    unsubscribe, the administrator's update and delete. *)
Theorem stamps_are_kept (now : Z) (db : list t) :
  Forall Invariant.stamped db ->
  (∀ req, Forall Invariant.stamped (subscribeEmail now req db).2) ∧
  (∀ req, Forall Invariant.stamped (unsubscribeEmail now req db).2) ∧
  (∀ req, Forall Invariant.stamped (updateSubscription now req db).2) ∧
  (∀ oid, Forall Invariant.stamped (deleteSubscription oid db).2).
Proof.
  intros Hall.
  assert (Hat : ∀ i sub, db !! i = Some sub -> Invariant.stamped sub).
  { intros i sub Hi. by eapply Forall_lookup_1. }
  assert (Hsaved : ∀ i old d,
            db !! i = Some old ->
            isVerified d = isVerified old -> verifiedAt d = verifiedAt old ->
            (EmailSubscription.status d = EmailSubscription.status old ->
             unsubscriptionDate d = unsubscriptionDate old) ->
            Forall Invariant.stamped (saveLoaded now i old d db).2).
  { intros i old d Hi Hver Hvat Hdate.
    pose proof (saveLoaded_stamped now i old d db (Hat i old Hi) Hver Hvat Hdate) as Hst.
    unfold saveLoaded in *. cbn [fst snd] in *. by apply Forall_insert. }
  split_and!.
  - intros req. unfold subscribeEmail. case_bool_decide; cbn [negb]; [|done].
    unfold subscribeAfterFind.
    assert (Hcreate : ∀ oid e src p a b c,
              Forall Invariant.stamped
                (match saveNew now (newSubscription now oid e src p a b c) db with
                 | inr (d', db') =>
                     (Success 201
                        (Some "Thank you for subscribing! You will receive our latest updates and offers.")
                        (summary d'), db')
                 | inl _ => (Failure 500 "Failed to subscribe. Please try again later." [], db)
                 end).2).
    { intros oid e src p a b c.
      destruct (saveNew now _ db) as [?|[d' db']] eqn:Hsave; [done|].
      apply saveNew_inr in Hsave as (-> & -> & _). cbn [snd].
      apply Forall_app. split; [done|]. apply Forall_singleton.
      rewrite preSave_newSubscription. split; cbn; [done|eauto]. }
    destruct (findOne (body_email req) db) as [[i sub]|] eqn:Hfind; [|apply Hcreate].
    case_bool_decide; [done|]. case_bool_decide as Hun; [|apply Hcreate].
    apply list_find_Some in Hfind as (Hi & _).
    destruct (saveLoaded _ _ _ _ _) as [d db'] eqn:Hsave. cbn [snd].
    match type of Hsave with saveLoaded _ _ _ ?x _ = _ =>
      replace db' with (saveLoaded now i sub x db).2 by (by rewrite Hsave) end.
    apply Hsaved; [done|..]; unfold reactivate; case_bool_decide; try done;
      cbn; rewrite Hun; done.
  - intros req. unfold unsubscribeEmail.
    destruct (findOne (unsub_email req) db) as [[i sub]|] eqn:Hfind; [|done].
    case_bool_decide as Hun; [done|].
    apply list_find_Some in Hfind as (Hi & _).
    destruct (saveLoaded _ _ _ _ _) as [d db'] eqn:Hsave. cbn [snd].
    match type of Hsave with saveLoaded _ _ _ ?x _ = _ =>
      replace db' with (saveLoaded now i sub x db).2 by (by rewrite Hsave) end.
    apply Hsaved; [done|done|done|]. cbn. congruence.
  - intros req. unfold updateSubscription.
    destruct (list_find _ db) as [[i sub]|] eqn:Hfind; [|done].
    apply list_find_Some in Hfind as (Hi & _).
    destruct (applyUpdate req sub) as [s3|] eqn:Happ; [|done].
    destruct (saveLoaded _ _ _ _ _) as [d db'] eqn:Hsave. cbn [snd].
    match type of Hsave with saveLoaded _ _ _ ?x _ = _ =>
      replace db' with (saveLoaded now i sub x db).2 by (by rewrite Hsave) end.
    destruct (applyUpdate_fields req sub s3 Happ) as (_ & _ & Hv & Hvat & Hdate & _).
    apply Hsaved; [done|exact Hv|exact Hvat|]. intros _. exact Hdate.
  - intros oid. unfold deleteSubscription.
    destruct (list_find _ db) as [[i sub]|]; [|done]. cbn [snd].
    by apply Forall_delete.
Qed.

Lemma findOne_None_free (e : string) (db : list t) :
  findOne e db = None -> ¬ Exists (fun x => EmailSubscription.email x = e) db.
Proof.
  unfold findOne. intros Hnone%list_find_None Hex.
  apply Exists_exists in Hex as (x & Hin & Hx).
  by apply (proj1 (Forall_forall _ _) Hnone x).
Qed.

Lemma findOne_snoc (e : string) (db : list t) (d : t) :
  findOne e db = None -> EmailSubscription.email d = e ->
  findOne e (db ++ [d]) = Some (length db, d).
Proof.
  unfold findOne. intros Hnone%list_find_None He.
  apply list_find_Some. split_and!.
  - by rewrite lookup_app_r, Nat.sub_diag.
  - done.
  - intros j y Hj Hlt. rewrite lookup_app_l in Hj by done.
    apply (proj1 (Forall_forall _ _) Hnone y). by eapply list_elem_of_lookup_2.
Qed.

(** X4. Subscribing the same address twice: after a subscribe call that
    created the record of an address the setters leave as it is, any later
    subscribe call for the address that passed validation answers the 409
    conflict and changes nothing, whatever its source and preferences. *)
Theorem subscribe_twice_conflicts (now1 now2 : Z) (req1 req2 : SubscribeReq) (db : list t) :
  errors req1 = [] -> errors req2 = [] ->
  body_email req2 = body_email req1 ->
  Invariant.normalised (body_email req1) ->
  findOne (body_email req1) db = None ->
  subscriptionValid
    (newSubscription now1 (freshId db) (body_email req1)
       (default website_footer (body_source req1)) (default ∅ (body_preferences req1))
       (clientAddress (ip req1) (remoteAddress req1))
       (userAgentHeader req1) (refererHeader req1)) = true ->
  ∃ d, subscribeEmail now1 req1 db =
         (Success 201
            (Some "Thank you for subscribing! You will receive our latest updates and offers.")
            (summary d), db ++ [d]) ∧
       subscribeEmail now2 req2 (db ++ [d]) =
         (Failure 409 "This email is already subscribed to our newsletter" [], db ++ [d]).
Proof.
  intros Herr1 Herr2 He Hnorm Hfind Hvalid.
  assert (Hfree : ¬ Exists (fun x => EmailSubscription.email x =
                                     JS.toLowerCase (JS.trim (body_email req1))) db).
  { rewrite Hnorm. by apply findOne_None_free. }
  pose proof (subscribeEmail_fresh now1 req1 db Herr1 Hfind Hvalid Hfree) as Hrun.
  cbv zeta in Hrun. eexists. split; [exact Hrun|].
  match goal with |- context [db ++ [?x]] => set (d := x) end.
  assert (Hmail : EmailSubscription.email d = JS.toLowerCase (JS.trim (body_email req1)))
    by reflexivity.
  assert (Hst : EmailSubscription.status d = active) by reflexivity.
  unfold subscribeEmail, subscribeAfterFind. rewrite Herr2, He.
  rewrite bool_decide_eq_true_2 by done. cbn [negb].
  rewrite (findOne_snoc _ db d Hfind) by (by rewrite Hmail).
  by rewrite (bool_decide_eq_true_2 _ Hst).
Qed.

Lemma elem_of_findActiveSubscribers (d : t) (db : list t) :
  d ∈ findActiveSubscribers db <->
  d ∈ db ∧ EmailSubscription.status d = active ∧ isVerified d = true.
Proof.
  unfold findActiveSubscribers. rewrite !list_elem_of_In, filter_In.
  rewrite andb_true_iff, bool_decide_eq_true. tauto.
Qed.

(** X5. The active subscribers are the records that are active and verified.
    A subscription that subscribe has just created is among them; once
    unsubscribe has answered 200 for an address, no active subscriber has
    the address, provided the addresses of the collection are distinct. *)
Theorem active_subscribers (now : Z) (db : list t) :
  (∀ d, d ∈ findActiveSubscribers db <->
        d ∈ db ∧ EmailSubscription.status d = active ∧ isVerified d = true) ∧
  (∀ req code msg s db',
     subscribeEmail now req db = (Success code msg s, db') -> code = 201%nat ->
     ∃ d, d ∈ findActiveSubscribers db' ∧ summary d = s ∧ db' = db ++ [d]) ∧
  (∀ req msg db',
     Invariant.uniqueEmails db ->
     unsubscribeEmail now req db = (Success 200 msg tt, db') ->
     ∀ d, d ∈ findActiveSubscribers db' -> EmailSubscription.email d ≠ unsub_email req).
Proof.
  split_and!.
  - intros d. apply elem_of_findActiveSubscribers.
  - intros req code msg s db'. unfold subscribeEmail.
    case_bool_decide; cbn [negb]; [|done]. unfold subscribeAfterFind.
    assert (Hcreate : ∀ oid e src p a b c,
              match saveNew now (newSubscription now oid e src p a b c) db with
              | inr (d', db'') =>
                  (Success 201
                     (Some "Thank you for subscribing! You will receive our latest updates and offers.")
                     (summary d'), db'')
              | inl _ => (Failure 500 "Failed to subscribe. Please try again later." [], db)
              end = (Success code msg s, db') ->
              ∃ d, d ∈ findActiveSubscribers db' ∧ summary d = s ∧ db' = db ++ [d]).
    { intros oid e src p a b c.
      destruct (saveNew now _ db) as [?|[d' db'']] eqn:Hsave; [done|].
      apply saveNew_inr in Hsave as (-> & -> & _). intros [= _ _ <- <-].
      eexists. split_and!; [|reflexivity|reflexivity].
      apply elem_of_findActiveSubscribers. rewrite preSave_newSubscription.
      split_and!; [|done|done]. apply elem_of_app. right. by apply list_elem_of_singleton. }
    destruct (findOne (body_email req) db) as [[i sub]|]; [|by intros; eapply Hcreate].
    case_bool_decide; [done|]. case_bool_decide; [|by intros; eapply Hcreate].
    destruct (saveLoaded _ _ _ _ _). intros [= <- _ _ _]. done.
  - intros req msg db' Hnd Hrun d Hd He.
    apply elem_of_findActiveSubscribers in Hd as (Hin & Hst & _).
    unfold unsubscribeEmail in Hrun.
    destruct (findOne (unsub_email req) db) as [[i sub]|] eqn:Hfind; [|done].
    case_bool_decide as Hun; [done|].
    rewrite saveLoaded_unsubscribe in Hrun by done. cbn zeta in Hrun.
    injection Hrun as _ <-.
    pose proof Hfind as (Hi & Hmail & _)%list_find_Some.
    apply list_elem_of_lookup in Hin as (j & Hj).
    destruct (decide (j = i)) as [->|Hne].
    + rewrite list_lookup_insert_eq in Hj by (by eapply lookup_lt_Some).
      injection Hj as <-. done.
    + rewrite list_lookup_insert_ne in Hj by done.
      unfold Invariant.uniqueEmails in Hnd.
      apply Hne. apply (NoDup_lookup _ j i (unsub_email req) Hnd);
        rewrite list_lookup_fmap; [rewrite Hj|rewrite Hi]; cbn; congruence.
Qed.

Lemma subscription_statusOfName (s : string) (st : Status) :
  statusOfName s = Some st <-> statusName st = s.
Proof.
  split.
  - unfold statusOfName. intros Hs.
    repeat match type of Hs with
           | context [String.eqb s ?x] =>
               destruct (String.eqb_spec s x) as [->|?]; [by injection Hs as <-|]
           end.
    done.
  - intros <-. by destruct st.
Qed.

Lemma castPreferences_Some (p : gmap string (option bool)) :
  (∀ k, k ∈ flagNames -> p !! k ≠ Some None) ->
  castPreferences p = Some (omap (fun v => v) p).
Proof.
  intros Hp. unfold castPreferences. rewrite bool_decide_eq_false_2; [done|].
  intros (k & Hk & Hnone)%Exists_exists. by apply (Hp k).
Qed.

Lemma castPreferences_None (p : gmap string (option bool)) (k : string) :
  k ∈ flagNames -> p !! k = Some None -> castPreferences p = None.
Proof.
  intros Hk Hnone. unfold castPreferences. rewrite bool_decide_eq_true_2; [done|].
  apply Exists_exists. by exists k.
Qed.

(** X6. The administrator's update of a subscription. The handler does not
    look at the result of the route's validators. An id that no record has
    gives 404 and no change. For a record that is found, a status outside the
    enumeration or a preference flag that does not cast to a Boolean makes
    [save] throw: the answer is 500 and nothing changes. Otherwise the answer
    is 200 and the record is stored with the status of the request (or its
    own), each preference flag of the request written over its own, and the
    tags of the request trimmed. A status moved to unsubscribed is stamped
    with the time of the call when the record had no [unsubscriptionDate]; no
    other update touches that date, and none touches the reason, the address,
    the subscription date, the verification or the counters: moving a record
    back to active here, unlike subscribe, leaves the unsubscription date and
    reason in place. *)
Theorem updateSubscription_outcomes (now : Z) (req : UpdateReq) (db : list t) :
  (list_find (fun d => _id d = params_id req) db = None ->
   updateSubscription now req db = (Failure 404 "Subscription not found" [], db)) ∧
  (∀ i sub, list_find (fun d => _id d = params_id req) db = Some (i, sub) ->
     ((∃ s, JS.truthy (upd_status req) = Some s ∧ ∀ st, statusName st ≠ s) ∨
      (∃ p k, upd_preferences req = Some p ∧ k ∈ flagNames ∧ p !! k = Some None) ->
      updateSubscription now req db =
        (Failure 500 "Failed to update subscription" [], db)) ∧
     (∀ st,
        match JS.truthy (upd_status req) with
        | Some s => statusName st = s
        | None => st = EmailSubscription.status sub
        end ->
        (∀ p k, upd_preferences req = Some p -> k ∈ flagNames -> p !! k ≠ Some None) ->
        let flag (k : string) (old : bool) : bool :=
          match upd_preferences req ≫= (.!! k) with
          | Some (Some b) => b
          | _ => old
          end in
        ∃ d, updateSubscription now req db =
               (Success 200 (Some "Subscription updated successfully") d, <[i := d]> db) ∧
             EmailSubscription.status d = st ∧
             preferences d =
               {| newsletters := flag "newsletters" (newsletters (preferences sub));
                  promotions := flag "promotions" (promotions (preferences sub));
                  updates := flag "updates" (updates (preferences sub));
                  events := flag "events" (events (preferences sub)) |} ∧
             tags d = match upd_tags req with
                      | Some ts => map JS.trim ts
                      | None => tags sub
                      end ∧
             unsubscriptionDate d =
               (if decide (EmailSubscription.status sub ≠ unsubscribed ∧
                           st = unsubscribed ∧
                           unsubscriptionDate sub = None)
                then Some now else unsubscriptionDate sub) ∧
             unsubscriptionReason d = unsubscriptionReason sub ∧
             (_id d, EmailSubscription.email d, EmailSubscription.subscriptionDate d,
              isVerified d, verifiedAt d, source d, metadata d) =
             (_id sub, EmailSubscription.email sub, EmailSubscription.subscriptionDate sub,
              isVerified sub, verifiedAt sub, source sub, metadata sub) ∧
             (emailsSent d, emailsOpened d, emailsClicked d) =
             (emailsSent sub, emailsOpened sub, emailsClicked sub))).
Proof.
  unfold updateSubscription. split; [by intros ->|].
  intros i sub ->. split.
  - intros Hbad.
    assert (Hnone : applyUpdate req sub = None); [|by rewrite Hnone].
    unfold applyUpdate. destruct Hbad as [(s & -> & Hs)|(p & k & -> & Hk & Hnone)].
    + destruct (statusOfName s) as [st|] eqn:Hst; [|done].
      apply subscription_statusOfName in Hst. by destruct (Hs st).
    + rewrite (castPreferences_None p k Hk Hnone).
      by destruct (match JS.truthy (upd_status req) with Some _ => _ | None => _ end).
  - intros st Hst Hprefs.
    assert (Happ : applyUpdate req sub =
              Some (let s1 := set_status st sub in
                    let s2 := match upd_preferences req with
                              | Some p => set_preferences
                                            (mergePreferences (preferences s1)
                                               (omap (fun v => v) p)) s1
                              | None => s1
                              end in
                    match upd_tags req with
                    | Some ts => set_tags (map JS.trim ts) s2
                    | None => s2
                    end)).
    { unfold applyUpdate.
      assert (Hs1 : match JS.truthy (upd_status req) with
                    | Some s => (fun st => set_status st sub) <$> statusOfName s
                    | None => Some sub
                    end = Some (set_status st sub)).
      { destruct (JS.truthy (upd_status req)) as [s|].
        - apply subscription_statusOfName in Hst. by rewrite Hst.
        - subst st. by destruct sub. }
      rewrite Hs1. cbn [mbind option_bind].
      destruct (upd_preferences req) as [p|] eqn:Hp; [|done].
      rewrite castPreferences_Some by (intros k Hk; by apply Hprefs). done. }
    rewrite Happ. clear Happ. cbn zeta.
    match goal with |- context [saveLoaded now i sub ?x db] => set (s3 := x) end.
    assert (Hf : isVerified s3 = isVerified sub ∧
                 EmailSubscription.status s3 = st ∧
                 unsubscriptionDate s3 = unsubscriptionDate sub).
    { subst s3. by destruct (upd_preferences req), (upd_tags req). }
    destruct Hf as (Hv & Hs3 & Hdate).
    rewrite saveLoaded_result by exact Hv.
    cbn zeta. eexists. split; [reflexivity|].
    cbn [EmailSubscription.status preferences tags unsubscriptionDate
         unsubscriptionReason _id EmailSubscription.email
         EmailSubscription.subscriptionDate isVerified verifiedAt source metadata
         emailsSent emailsOpened emailsClicked withLifecycle].
    rewrite Hs3, Hdate.
    split_and!.
    + reflexivity.
    + subst s3. destruct (upd_preferences req) as [p|]; destruct (upd_tags req);
        cbn; try (by destruct (preferences sub));
        unfold mergePreferences; rewrite !lookup_omap;
        by destruct (p !! "newsletters") as [[]|], (p !! "promotions") as [[]|],
                    (p !! "updates") as [[]|], (p !! "events") as [[]|].
    + subst s3. by destruct (upd_preferences req), (upd_tags req).
    + destruct st, (EmailSubscription.status sub), (unsubscriptionDate sub); reflexivity.
    + subst s3. by destruct (upd_preferences req), (upd_tags req).
    + subst s3. by destruct (upd_preferences req), (upd_tags req).
    + subst s3. by destruct (upd_preferences req), (upd_tags req).
Qed.

End SubscriptionStore.

(** ** Lookup by id, deletion and fresh ids *)

Section ById.
Context {D : Type} (key : D -> nat).
Implicit Types (db : list D) (d : D).

Lemma fresh_above db d :
  d ∈ db -> (key d < S (foldr Nat.max 0%nat (map key db)))%nat.
Proof.
  induction db as [|x db IH]; [by intros ?%elem_of_nil|].
  intros [->|Hin]%elem_of_cons; cbn; [lia|]. specialize (IH Hin). cbn in IH. lia.
Qed.

Lemma fresh_NoDup db d :
  key d = S (foldr Nat.max 0%nat (map key db)) ->
  NoDup (key <$> db) -> NoDup (key <$> (db ++ [d])).
Proof.
  intros Hd Hnd. rewrite fmap_app. apply NoDup_app. split_and!; [done| |apply NoDup_singleton].
  intros k (x & Hk & Hin)%list_elem_of_fmap Hkd%list_elem_of_singleton.
  cbn in Hkd. pose proof (fresh_above db x Hin). lia.
Qed.

Lemma list_find_fresh db d :
  key d = S (foldr Nat.max 0%nat (map key db)) ->
  list_find (fun x => key x = key d) (db ++ [d]) = Some (length db, d).
Proof.
  intros Hd. apply list_find_Some. split_and!.
  - by rewrite lookup_app_r, Nat.sub_diag.
  - done.
  - intros j y Hj Hlt. rewrite lookup_app_l in Hj by done.
    apply list_elem_of_lookup_2 in Hj. pose proof (fresh_above db y Hj). lia.
Qed.

End ById.

Section ByKey.
Context {D K : Type} `{EqDecision K} (key : D -> K).
Implicit Types (db : list D) (d : D).

(** Deleting a document does not change what a search for another key
    finds. *)
Lemma list_find_delete_other db (i : nat) (x : D) (k : K) :
  db !! i = Some x -> key x ≠ k ->
  snd <$> list_find (fun y => key y = k) (delete i db) =
  snd <$> list_find (fun y => key y = k) db.
Proof.
  revert i. induction db as [|y db IH]; intros i Hi Hx; [done|].
  destruct i as [|i]; cbn in Hi.
  - injection Hi as ->. cbn. rewrite decide_False by done.
    rewrite <- option_fmap_compose. by destruct (list_find _ db) as [[??]|].
  - cbn. case_decide; [done|].
    rewrite <- !option_fmap_compose.
    specialize (IH i Hi Hx).
    destruct (list_find _ (delete i db)) as [[??]|], (list_find _ db) as [[??]|];
      cbn in *; congruence.
Qed.

(** With distinct keys, the key of a deleted document is found no more. *)
Lemma list_find_delete_same db (i : nat) (x : D) :
  NoDup (key <$> db) -> db !! i = Some x ->
  list_find (fun y => key y = key x) (delete i db) = None.
Proof.
  intros Hnd Hi. apply list_find_None, Forall_forall. intros y Hy Hk.
  apply list_elem_of_lookup in Hy as (j & Hj).
  destruct (decide (j < i)%nat).
  - rewrite list_lookup_delete_lt in Hj by done.
    assert (j = i); [|lia].
    apply (NoDup_lookup _ j i (key x) Hnd); rewrite list_lookup_fmap;
      [rewrite Hj|rewrite Hi]; cbn; congruence.
  - rewrite list_lookup_delete_ge in Hj by lia.
    assert (S j = i); [|lia].
    apply (NoDup_lookup _ (S j) i (key x) Hnd); rewrite list_lookup_fmap;
      [rewrite Hj|rewrite Hi]; cbn; congruence.
Qed.

End ByKey.

(** ** Contacts: the 24-hour window, updates, lookup and deletion *)

Section ContactStore.
Context `{Externals} {U : Type}.
Import ContactController.

Lemma createContact_Success (now : Z) (req : CreateReq) (db : list Contact.t)
    code msg s db' :
  createContact now req db = (Success code msg s, db') ->
  let c := Contact.preSave now true
             (newContact now (freshId db) (body_name req) (body_email req)
                (body_phone req) (body_description req)
                (clientAddress (ip req) (remoteAddress req))
                (userAgentHeader req) "website") in
  errors req = [] ∧ db' = db ++ [c] ∧ id s = Contact._id c ∧
  (∀ x, x ∈ db -> Contact.email x = body_email req ->
        Contact.createdAt x < now - 24 * 60 * 60 * 1000).
Proof.
  unfold createContact. case_bool_decide as Herr; cbn [negb]; [|done].
  destruct (List.find _ db) eqn:Hfind; [done|].
  unfold saveNew. destruct (contactValid _); [|done].
  intros [= _ _ <- <-]. split_and!; [done|done|done|].
  intros x Hx Hmail. apply list_elem_of_In in Hx.
  pose proof (find_none _ _ Hfind x Hx) as Hf. cbn in Hf.
  rewrite Hmail, String.eqb_refl in Hf. cbn in Hf. lia.
Qed.


Lemma contact_statusOfName (s : string) (st : Contact.Status) :
  Contact.statusOfName s = Some st <-> Contact.statusName st = s.
Proof.
  split.
  - unfold Contact.statusOfName. intros Hs.
    repeat match type of Hs with
           | context [String.eqb s ?x] =>
               destruct (String.eqb_spec s x) as [->|?]; [by injection Hs as <-|]
           end.
    done.
  - intros <-. by destruct st.
Qed.

Lemma contact_priorityOfName (s : string) (pr : Contact.Priority) :
  Contact.priorityOfName s = Some pr <-> Contact.priorityName pr = s.
Proof.
  split.
  - unfold Contact.priorityOfName. intros Hs.
    repeat match type of Hs with
           | context [String.eqb s ?x] =>
               destruct (String.eqb_spec s x) as [->|?]; [by injection Hs as <-|]
           end.
    done.
  - intros <-. by destruct pr.
Qed.

(** A value written to a path with an enumeration passes exactly when it
    names a value of the enumeration. *)
Lemma written_Some {A : Type} (parse : string -> option A) (nameOf : A -> string)
    (x : option string) (old v : A) :
  (∀ s a, parse s = Some a <-> nameOf a = s) ->
  written parse x old = Some v <->
  match JS.truthy x with
  | Some s => nameOf v = s
  | None => v = old
  end.
Proof.
  intros Hparse. unfold written. destruct (JS.truthy x) as [s|].
  - apply Hparse.
  - split; [by intros [= ->]|by intros ->].
Qed.

(** What the assignments of [updateContact] leave as it was. *)
Lemma contact_applyUpdate_id (now : Z) (req : UpdateReq) (c u : Contact.t) :
  applyUpdate now req c = Some u -> Contact._id u = Contact._id c.
Proof.
  unfold applyUpdate. intros Happ.
  destruct (written Contact.statusOfName _ _); [|done].
  destruct (written Contact.priorityOfName _ _); [|done].
  destruct (body_assignedTo req) as [[v|]|]; [|done|]; by injection Happ as <-.
Qed.

(** X8. The administrator's update of a contact. The handler does not look
    at the result of the route's validators. An id that no contact has gives
    404 and no change. For a contact that is found, a status or a priority
    outside its enumeration, or an assignee that does not cast to an
    [ObjectId], makes [save] throw: the answer is 500 and nothing changes.
    Otherwise the answer is 200 and the contact is stored with the status,
    priority and assignee of the request (or its own), and its notes only
    grow: a note of the request is appended, signed with the name of the
    user or 'admin', and no note is removed, changed or added otherwise.
    What the visitor submitted ([name], [email], [phone], [description]),
    the source and [createdAt] stay as they were; [updatedAt] moves to the
    time of the call when the update changed something. *)
Theorem updateContact_outcomes (now : Z) (req : UpdateReq) (db : list Contact.t) :
  (list_find (fun c => Contact._id c = params_id req) db = None ->
   updateContact now req db = (Failure 404 "Contact not found" [], db)) ∧
  (∀ i c, list_find (fun c => Contact._id c = params_id req) db = Some (i, c) ->
     ((∃ s, JS.truthy (body_status req) = Some s ∧ ∀ st, Contact.statusName st ≠ s) ∨
      (∃ p, JS.truthy (body_priority req) = Some p ∧ ∀ pr, Contact.priorityName pr ≠ p) ∨
      body_assignedTo req = Some NotAnId ->
      updateContact now req db = (Failure 500 "Failed to update contact" [], db)) ∧
     (∀ st pr,
        match JS.truthy (body_status req) with
        | Some s => Contact.statusName st = s
        | None => st = Contact.status c
        end ->
        match JS.truthy (body_priority req) with
        | Some p => Contact.priorityName pr = p
        | None => pr = Contact.priority c
        end ->
        body_assignedTo req ≠ Some NotAnId ->
        ∃ c', updateContact now req db =
                (Success 200 (Some "Contact updated successfully") c', <[i := c']> db) ∧
              Contact.notes c' =
                Contact.notes c ++
                match JS.truthy (body_notes req) with
                | Some text =>
                    [{| Contact.note := text;
                        Contact.addedBy := JS.orElse (user_name req) "admin";
                        Contact.addedAt := now |}]
                | None => []
                end ∧
              Contact.notes c `prefix_of` Contact.notes c' ∧
              Contact.status c' = st ∧
              Contact.priority c' = pr ∧
              Contact.assignedTo c' =
                match body_assignedTo req with
                | Some (ObjectId u) => Some u
                | _ => Contact.assignedTo c
                end ∧
              (Contact._id c', Contact.name c', Contact.email c', Contact.phone c',
               Contact.description c', Contact.source c', Contact.createdAt c') =
              (Contact._id c, Contact.name c, Contact.email c, Contact.phone c,
               Contact.description c, Contact.source c, Contact.createdAt c) ∧
              Contact.updatedAt c' =
                (if decide (st = Contact.status c ∧ pr = Contact.priority c ∧
                            Contact.assignedTo c' = Contact.assignedTo c ∧
                            JS.truthy (body_notes req) = None)
                 then Contact.updatedAt c else now))).
Proof.
  unfold updateContact. split; [by intros ->|].
  intros i c ->. split.
  - intros Hbad.
    assert (Hnone : applyUpdate now req c = None); [|by rewrite Hnone].
    unfold applyUpdate.
    destruct (written Contact.statusOfName (body_status req) (Contact.status c))
      as [st|] eqn:Hst; [|done].
    destruct (written Contact.priorityOfName (body_priority req) (Contact.priority c))
      as [pr|] eqn:Hpr; [|done].
    apply (written_Some _ Contact.statusName) in Hst; [|apply contact_statusOfName].
    apply (written_Some _ Contact.priorityName) in Hpr; [|apply contact_priorityOfName].
    destruct Hbad as [(s & Hs & Hno)|[(p & Hp & Hno)| ->]].
    + rewrite Hs in Hst. by destruct (Hno st).
    + rewrite Hp in Hpr. by destruct (Hno pr).
    + done.
  - intros st pr Hst Hpr Hasg.
    apply (written_Some Contact.statusOfName Contact.statusName (body_status req)
             (Contact.status c) st contact_statusOfName) in Hst.
    apply (written_Some Contact.priorityOfName Contact.priorityName (body_priority req)
             (Contact.priority c) pr contact_priorityOfName) in Hpr.
    unfold applyUpdate. rewrite Hst, Hpr. cbn [mbind option_bind].
    set (asg := match body_assignedTo req with
                | Some (ObjectId u) => Some u
                | _ => Contact.assignedTo c
                end).
    assert (Hasg' : match body_assignedTo req with
                    | Some (ObjectId u) => Some (Some u)
                    | Some NotAnId => None
                    | None => Some (Contact.assignedTo c)
                    end = Some asg).
    { subst asg. by destruct (body_assignedTo req) as [[u|]|]. }
    rewrite Hasg'. cbn [mbind option_bind].
    match goal with |- context [saveLoaded now i c ?x db] => set (u := x) end.
    assert (Hnotes : Contact.notes u =
              Contact.notes c ++
              match JS.truthy (body_notes req) with
              | Some text =>
                  [{| Contact.note := text;
                      Contact.addedBy := JS.orElse (user_name req) "admin";
                      Contact.addedAt := now |}]
              | None => []
              end).
    { subst u. cbn. destruct (JS.truthy (body_notes req)); [done|by rewrite app_nil_r]. }
    assert (Hsame : u = c <->
              st = Contact.status c ∧ pr = Contact.priority c ∧
              asg = Contact.assignedTo c ∧ JS.truthy (body_notes req) = None).
    { split.
      - intros Heq. split_and!.
        + by rewrite <- Heq.
        + by rewrite <- Heq.
        + by rewrite <- Heq.
        + rewrite Heq in Hnotes. destruct (JS.truthy (body_notes req)); [|done].
          apply (f_equal length) in Hnotes. rewrite length_app in Hnotes.
          cbn in Hnotes. lia.
      - intros (-> & -> & Ha & Hn). subst u. rewrite Ha, Hn. by destruct c. }
    unfold saveLoaded. cbn zeta. eexists. split; [reflexivity|].
    unfold Contact.preSave.
    destruct (decide (u = c)) as [Heq|Hne].
    + rewrite (bool_decide_eq_true_2 _ Heq). rewrite Hnotes.
      rewrite decide_True by (by apply Hsame).
      split_and!; try reflexivity. by eexists.
    + rewrite (bool_decide_eq_false_2 _ Hne).
      cbn [Contact.set_updatedAt Contact.notes Contact.status Contact.priority
           Contact.assignedTo Contact._id Contact.name Contact.email Contact.phone
           Contact.description Contact.source Contact.createdAt Contact.updatedAt].
      rewrite Hnotes.
      rewrite decide_False by (intros Hc; by apply Hne, Hsame).
      split_and!; try reflexivity. by eexists.
Qed.

Lemma createContact_ids (now : Z) (req : CreateReq) (db : list Contact.t) :
  Invariant.uniqueContactIds db -> Invariant.uniqueContactIds (createContact now req db).2.
Proof.
  unfold Invariant.uniqueContactIds. intros Hnd.
  destruct (createContact now req db) as [[code msg s|code msg errs] db'] eqn:Hrun.
  - apply createContact_Success in Hrun as (_ & -> & _). cbn [snd].
    by apply fresh_NoDup.
  - cbn [snd]. revert Hrun. unfold createContact.
    case_bool_decide; cbn [negb]; [|by intros [= _ _ _ <-]].
    destruct (List.find _ db); [by intros [= _ _ _ <-]|].
    destruct (saveNew now _ db) as [?|[??]]; [by intros [= _ _ _ <-]|done].
Qed.

(** X9. Ids stay distinct: [createContact], [updateContact] and
    [deleteContact] take a collection of contacts without two documents of
    one [_id] to such a collection, and so do subscribe, unsubscribe, the
    administrator's update and delete for the subscriptions. *)
Theorem ids_stay_unique (now : Z) (contacts : list Contact.t)
    (subscriptions : list EmailSubscription.t) :
  (Invariant.uniqueContactIds contacts ->
   (∀ req, Invariant.uniqueContactIds (createContact now req contacts).2) ∧
   (∀ req, Invariant.uniqueContactIds (updateContact now req contacts).2) ∧
   (∀ oid, Invariant.uniqueContactIds (deleteContact oid contacts).2)) ∧
  (Invariant.uniqueSubscriptionIds subscriptions ->
   (∀ req, Invariant.uniqueSubscriptionIds
             (EmailController.subscribeEmail now req subscriptions).2) ∧
   (∀ req, Invariant.uniqueSubscriptionIds
             (EmailController.unsubscribeEmail now req subscriptions).2) ∧
   (∀ req, Invariant.uniqueSubscriptionIds
             (EmailController.updateSubscription now req subscriptions).2) ∧
   (∀ oid, Invariant.uniqueSubscriptionIds
             (EmailController.deleteSubscription oid subscriptions).2)).
Proof.
  split.
  - intros Hnd. split_and!.
    + intros req. by apply createContact_ids.
    + intros req. unfold updateContact, Invariant.uniqueContactIds in *.
      destruct (list_find _ contacts) as [[i c]|] eqn:Hfind; [|done].
      apply list_find_Some in Hfind as (Hi & _).
      destruct (applyUpdate now req c) as [u|] eqn:Happ; [|done].
      apply contact_applyUpdate_id in Happ.
      unfold saveLoaded. cbn [snd]. rewrite list_fmap_insert, list_insert_id; [done|].
      rewrite list_lookup_fmap, Hi. cbn. f_equal. rewrite <- Happ.
      unfold Contact.preSave. by case_bool_decide.
    + intros oid. unfold deleteContact, Invariant.uniqueContactIds in *.
      destruct (list_find _ contacts) as [[i c]|]; [|done]. cbn [snd].
      rewrite list_fmap_delete. eapply sublist_NoDup; [exact Hnd|]. apply sublist_delete.
  - unfold Invariant.uniqueSubscriptionIds. intros Hnd. split_and!.
    + intros req. unfold EmailController.subscribeEmail.
      case_bool_decide; cbn [negb]; [|done]. unfold EmailController.subscribeAfterFind.
      assert (Hcreate : ∀ e src p a b c,
                NoDup (EmailSubscription._id <$>
                  (match EmailController.saveNew now
                           (EmailController.newSubscription now
                              (EmailController.freshId subscriptions) e src p a b c)
                           subscriptions with
                   | inr (d', db') =>
                       (Success 201
                          (Some "Thank you for subscribing! You will receive our latest updates and offers.")
                          (EmailController.summary d'), db')
                   | inl _ =>
                       (Failure 500 "Failed to subscribe. Please try again later." [],
                        subscriptions)
                   end).2)).
      { intros e src p a b c.
        destruct (EmailController.saveNew now _ subscriptions) as [?|[d' db']] eqn:Hsave;
          [done|].
        apply saveNew_inr in Hsave as (-> & -> & _). cbn [snd].
        rewrite preSave_newSubscription. by apply fresh_NoDup. }
      destruct (EmailController.findOne _ subscriptions) as [[i sub]|] eqn:Hfind;
        [|apply Hcreate].
      case_bool_decide; [done|]. case_bool_decide as Hun; [|apply Hcreate].
      apply list_find_Some in Hfind as (Hi & _).
      destruct (EmailController.saveLoaded _ _ _ _ _) as [d db'] eqn:Hsave. cbn [snd].
      match type of Hsave with EmailController.saveLoaded _ _ _ ?x _ = _ =>
        replace db' with (EmailController.saveLoaded now i sub x subscriptions).2
          by (by rewrite Hsave) end.
      rewrite saveLoaded_ids; [done|done|].
      unfold EmailController.reactivate. by case_bool_decide.
    + intros req. unfold EmailController.unsubscribeEmail.
      destruct (EmailController.findOne _ subscriptions) as [[i sub]|] eqn:Hfind; [|done].
      case_bool_decide; [done|].
      apply list_find_Some in Hfind as (Hi & _).
      destruct (EmailController.saveLoaded _ _ _ _ _) as [d db'] eqn:Hsave. cbn [snd].
      match type of Hsave with EmailController.saveLoaded _ _ _ ?x _ = _ =>
        replace db' with (EmailController.saveLoaded now i sub x subscriptions).2
          by (by rewrite Hsave) end.
      by rewrite saveLoaded_ids.
    + intros req. unfold EmailController.updateSubscription.
      destruct (list_find _ subscriptions) as [[i sub]|] eqn:Hfind; [|done].
      apply list_find_Some in Hfind as (Hi & _).
      destruct (EmailController.applyUpdate req sub) as [s3|] eqn:Happ; [|done].
      destruct (EmailController.saveLoaded _ _ _ _ _) as [d db'] eqn:Hsave. cbn [snd].
      match type of Hsave with EmailController.saveLoaded _ _ _ ?x _ = _ =>
        replace db' with (EmailController.saveLoaded now i sub x subscriptions).2
          by (by rewrite Hsave) end.
      rewrite saveLoaded_ids; [done|done|].
      apply (applyUpdate_fields req sub s3 Happ).
    + intros oid. unfold EmailController.deleteSubscription.
      destruct (list_find _ subscriptions) as [[i sub]|]; [|done]. cbn [snd].
      rewrite list_fmap_delete. eapply sublist_NoDup; [exact Hnd|]. apply sublist_delete.
Qed.

Lemma getContact_find (users : gmap nat U) (oid : nat) (db : list Contact.t) :
  getContact users oid db =
  match snd <$> list_find (fun c => Contact._id c = oid) db with
  | Some contact =>
      Success 200 None (contact, Contact.assignedTo contact ≫= fun u => users !! u)
  | None => Failure 404 "Contact not found" []
  end.
Proof. unfold getContact. by destruct (list_find _ db) as [[??]|]. Qed.

(** X10. [getContact] and [deleteContact] answer 404 for an id that no
    contact has, and then nothing changes. Deleting a contact removes that
    one document: the collection is one shorter, [getContact] answers for
    every other id as before, and, ids being distinct, a second
    [getContact] or [deleteContact] for the deleted id answers 404. *)
Theorem deleteContact_outcomes (users : gmap nat U) (oid : nat) (db : list Contact.t) :
  (list_find (fun c => Contact._id c = oid) db = None ->
   deleteContact oid db = (Failure 404 "Contact not found" [], db) ∧
   getContact users oid db = Failure 404 "Contact not found" []) ∧
  (∀ i c, list_find (fun c => Contact._id c = oid) db = Some (i, c) ->
     deleteContact oid db =
       (Success 200 (Some "Contact deleted successfully") tt, delete i db) ∧
     S (length (delete i db)) = length db ∧
     (∀ oid', oid' ≠ oid ->
        getContact users oid' (delete i db) = getContact users oid' db) ∧
     (Invariant.uniqueContactIds db ->
      getContact users oid (delete i db) = Failure 404 "Contact not found" [] ∧
      deleteContact oid (delete i db) =
        (Failure 404 "Contact not found" [], delete i db))).
Proof.
  split.
  - intros Hnone. unfold deleteContact, getContact. by rewrite Hnone.
  - intros i c Hfind. pose proof Hfind as (Hi & Hid & _)%list_find_Some.
    split_and!.
    + unfold deleteContact. by rewrite Hfind.
    + rewrite length_delete by (by eexists).
      apply lookup_lt_Some in Hi. lia.
    + intros oid' Hne. rewrite !getContact_find.
      rewrite (list_find_delete_other Contact._id db i c oid' Hi) by congruence. done.
    + intros Hnd.
      pose proof (list_find_delete_same Contact._id db i c Hnd Hi) as Hgone.
      rewrite Hid in Hgone. unfold getContact, deleteContact. by rewrite Hgone.
Qed.

(** X11. A contact that [createContact] has created is the one [getContact]
    returns for the id of the answer: with the name, phone and description
    trimmed, the address also in lower case, status new, priority medium,
    no assignee, source 'website', and the one note of its creation. *)
Theorem createContact_then_getContact (users : gmap nat U) (now : Z) (req : CreateReq)
    (db db' : list Contact.t) code msg s :
  createContact now req db = (Success code msg s, db') ->
  ∃ c, getContact users (id s) db' = Success 200 None (c, None) ∧
       c ∈ db' ∧
       Contact.name c = JS.trim (body_name req) ∧
       Contact.email c = JS.toLowerCase (JS.trim (body_email req)) ∧
       Contact.phone c = JS.trim (body_phone req) ∧
       Contact.description c = JS.trim (body_description req) ∧
       (Contact.status c, Contact.priority c, Contact.assignedTo c, Contact.source c) =
         (Contact.new, Contact.medium, None, "website") ∧
       Contact.ipAddress c = clientAddress (ip req) (remoteAddress req) ∧
       (Contact.createdAt c, Contact.updatedAt c) = (now, now) ∧
       Contact.notes c =
         [{| Contact.note := "Contact form submitted from website";
             Contact.addedBy := "system";
             Contact.addedAt := now |}] ∧
       (name s, email s, status s, createdAt s) =
         (Contact.name c, Contact.email c, Contact.status c, Contact.createdAt c).
Proof.
  intros Hrun. pose proof Hrun as Hs.
  apply createContact_Success in Hrun as (Herr & -> & Hid & _). cbn zeta in *.
  eexists. split_and!.
  - unfold getContact. rewrite Hid.
    match goal with |- context [list_find _ (db ++ [?c])] =>
      rewrite (list_find_fresh Contact._id db c eq_refl) end.
    reflexivity.
  - apply elem_of_app. right. by apply list_elem_of_singleton.
  - reflexivity.
  - reflexivity.
  - reflexivity.
  - reflexivity.
  - reflexivity.
  - reflexivity.
  - reflexivity.
  - reflexivity.
  - revert Hs. unfold createContact. rewrite Herr.
    rewrite bool_decide_eq_true_2 by done. cbn [negb].
    destruct (List.find _ db); [done|].
    unfold saveNew. destruct (contactValid _); [|done].
    by intros [= _ _ <-].
Qed.

End ContactStore.

(** ** Deleting a subscription *)

Section SubscriptionDelete.
Context `{Externals}.
Import EmailSubscription EmailController.

(** X12. [deleteSubscription] answers 404 for an id that no record has, and
    changes nothing; otherwise it removes that one record. The addresses
    being distinct, the address of the deleted record is free again: a
    subscribe call for it that passed validation creates a new record, with
    a 201 answer, when the address is one the setters leave as it is and the
    schema accepts the document. *)
Theorem deleteSubscription_outcomes (oid : nat) (db : list t) :
  (list_find (fun d => _id d = oid) db = None ->
   deleteSubscription oid db = (Failure 404 "Email subscription not found" [], db)) ∧
  (∀ i sub, list_find (fun d => _id d = oid) db = Some (i, sub) ->
     deleteSubscription oid db =
       (Success 200 (Some "Email subscription deleted successfully") tt, delete i db) ∧
     S (length (delete i db)) = length db ∧
     (∀ e, e ≠ EmailSubscription.email sub ->
        snd <$> findOne e (delete i db) = snd <$> findOne e db) ∧
     (Invariant.uniqueEmails db ->
      findOne (EmailSubscription.email sub) (delete i db) = None ∧
      ∀ now req,
        errors req = [] ->
        body_email req = EmailSubscription.email sub ->
        Invariant.normalised (body_email req) ->
        subscriptionValid
          (newSubscription now (freshId (delete i db)) (body_email req)
             (default website_footer (body_source req))
             (default ∅ (body_preferences req))
             (clientAddress (ip req) (remoteAddress req))
             (userAgentHeader req) (refererHeader req)) = true ->
        ∃ d, subscribeEmail now req (delete i db) =
               (Success 201
                  (Some "Thank you for subscribing! You will receive our latest updates and offers.")
                  (summary d), delete i db ++ [d]) ∧
             EmailSubscription.status d = active)).
Proof.
  split.
  - intros Hnone. unfold deleteSubscription. by rewrite Hnone.
  - intros i sub Hfind. pose proof Hfind as (Hi & Hid & _)%list_find_Some.
    split_and!.
    + unfold deleteSubscription. by rewrite Hfind.
    + rewrite length_delete by (by eexists).
      apply lookup_lt_Some in Hi. lia.
    + intros e He. unfold findOne.
      by rewrite (list_find_delete_other EmailSubscription.email db i sub e Hi).
    + intros Hnd.
      pose proof (list_find_delete_same EmailSubscription.email db i sub Hnd Hi) as Hgone.
      split; [exact Hgone|].
      intros now req Herr He Hnorm Hvalid.
      assert (Hfind' : findOne (body_email req) (delete i db) = None)
        by (by rewrite He).
      assert (Hfree : ¬ Exists (fun x => EmailSubscription.email x =
                                         JS.toLowerCase (JS.trim (body_email req)))
                                (delete i db)).
      { rewrite Hnorm. by apply findOne_None_free. }
      pose proof (subscribeEmail_fresh now req (delete i db) Herr Hfind' Hvalid Hfree)
        as Hrun.
      cbv zeta in Hrun. eexists. split; [exact Hrun|reflexivity].
Qed.

End SubscriptionDelete.

(** ** Windowed counts *)

Lemma countDocuments_bounds {D : Type} (p : D -> bool) (db : list D) :
  0 <= Store.countDocuments p db <= Store.countDocuments (fun _ => true) db.
Proof.
  unfold Store.countDocuments. split; [lia|]. apply inj_le.
  induction db as [|d db IH]; [done|]. cbn. destruct (p d); cbn; lia.
Qed.

Lemma countDocuments_mono {D : Type} (p q : D -> bool) (db : list D) :
  (∀ d, p d = true -> q d = true) ->
  Store.countDocuments p db <= Store.countDocuments q db.
Proof.
  intros Hpq. unfold Store.countDocuments. apply inj_le.
  induction db as [|d db IH]; [done|]. cbn.
  destruct (p d) eqn:Hp; [rewrite (Hpq d Hp); cbn; lia|].
  destruct (q d); cbn; lia.
Qed.

Lemma countDocuments_getCount {D K : Type} `{EqDecision K} (field : D -> K) (k : K)
    (db : list D) :
  Store.countDocuments (fun d => bool_decide (field d = k)) db =
  Z.of_nat (getCount k (Store.groupCount field db)).
Proof.
  destruct (groupCount_invariant field db) as (_ & _ & -> & _). done.
Qed.

(** X13. The counts of [getContactStats] and [getEmailStats]: no window
    counts more documents than [total], nor does [active]; [today] is at
    most [thisWeek] when the day began less than 7 days ago and at most
    [thisMonth] when the month began no later than the day; [active] is the
    count of the [byStatus] group of 'active', 0 when there is none; and the
    counts of [byPriority] and of [bySource] add up to [total] as well. *)
Theorem stats_windows (now startOfToday startOfMonth : Z)
    (contacts : list Contact.t) (subscriptions : list EmailSubscription.t) :
  (∃ st, ContactController.getContactStats now startOfToday startOfMonth contacts
           = Success 200 None st ∧
     0 <= ContactController.today st <= ContactController.total st ∧
     0 <= ContactController.thisWeek st <= ContactController.total st ∧
     0 <= ContactController.thisMonth st <= ContactController.total st ∧
     (now - 7 * 24 * 60 * 60 * 1000 <= startOfToday ->
      ContactController.today st <= ContactController.thisWeek st) ∧
     (startOfMonth <= startOfToday ->
      ContactController.today st <= ContactController.thisMonth st) ∧
     Z.of_nat (sumCounts (ContactController.byPriority st)) = ContactController.total st) ∧
  (∃ st, EmailController.getEmailStats now startOfToday startOfMonth subscriptions
           = Success 200 None st ∧
     0 <= EmailController.today st <= EmailController.total st ∧
     0 <= EmailController.thisWeek st <= EmailController.total st ∧
     0 <= EmailController.thisMonth st <= EmailController.total st ∧
     0 <= EmailController.active_ st <= EmailController.total st ∧
     (now - 7 * 24 * 60 * 60 * 1000 <= startOfToday ->
      EmailController.today st <= EmailController.thisWeek st) ∧
     (startOfMonth <= startOfToday ->
      EmailController.today st <= EmailController.thisMonth st) ∧
     EmailController.active_ st =
       Z.of_nat (getCount EmailSubscription.active (EmailController.byStatus st)) ∧
     Z.of_nat (sumCounts (EmailController.bySource st)) = EmailController.total st).
Proof.
  split; eexists; (split; [reflexivity|]); cbn.
  - split_and!; try apply countDocuments_bounds.
    + intros Hday. apply countDocuments_mono. intros d ?%Z.leb_le. apply Z.leb_le. lia.
    + intros Hday. apply countDocuments_mono. intros d ?%Z.leb_le. apply Z.leb_le. lia.
    + apply groupCount_total.
  - split_and!; try apply countDocuments_bounds.
    + intros Hday. apply countDocuments_mono. intros d ?%Z.leb_le. apply Z.leb_le. lia.
    + intros Hday. apply countDocuments_mono. intros d ?%Z.leb_le. apply Z.leb_le. lia.
    + apply countDocuments_getCount.
    + apply groupCount_total.
Qed.

(** ** The virtuals of the schemas *)

Lemma roundPercent_bounds (a b : Z) :
  0 <= a <= b -> 0 < b -> 0 <= JS.roundPercent a b <= 100.
Proof.
  intros [Ha Hab] Hb.
  destruct (Z.eq_dec a 0) as [->|Ha0]; [rewrite roundPercent_zero; lia|].
  unfold JS.roundPercent, JS.mathRound, JS.times, JS.divide.
  set (t := (inject_Z a / inject_Z b)%Q).
  assert (Hqa : (0 < inject_Z a)%Q) by (rewrite <- (Zlt_Qlt 0); lia).
  assert (Hqb : (0 < inject_Z b)%Q) by (rewrite <- (Zlt_Qlt 0); lia).
  assert (Hqab : (inject_Z a <= inject_Z b)%Q) by (by rewrite <- Zle_Qle).
  assert (Ht : (0 < t)%Q) by (unfold t; apply Qlt_shift_div_l; lra).
  assert (Ht1 : (t <= 1)%Q) by (unfold t; apply Qle_shift_div_r; lra).
  destruct (round53_error t Ht) as [Hx1 Hx2].
  set (x := JS.round53 t) in *.
  assert (Hx : (0 < x * inject_Z 100)%Q) by (change (inject_Z 100) with (100 # 1)%Q; lra).
  destruct (round53_error (x * inject_Z 100) Hx) as [Hy1 Hy2].
  set (y := JS.round53 (x * inject_Z 100)) in *.
  pose proof (Qfloor_le (y + (1 # 2))) as Hr1.
  pose proof (Qlt_floor (y + (1 # 2))) as Hr2.
  set (r := Qfloor (y + (1 # 2))) in *.
  rewrite inject_Z_plus in Hr2.
  change (inject_Z 100) with (100 # 1)%Q in *. change (inject_Z 1) with 1%Q in *.
  split.
  - cut (0 < r + 1); [lia|]. rewrite Zlt_Qlt, inject_Z_plus.
    change (inject_Z 0) with 0%Q. change (inject_Z 1) with 1%Q. lra.
  - cut (r < 101); [lia|]. rewrite Zlt_Qlt.
    change (inject_Z 101) with (101 # 1)%Q. lra.
Qed.

(** X14. The rates of a subscription. [engagementRate] is 0 when no e-mail
    was sent; otherwise, for fewer than 2^44 opened e-mails, it is an
    integer nearest to the percentage of opened among sent e-mails. Where
    the percentage is an integer and a half the rate is one of the two
    neighbours, not always the upper one, because the quotient and the
    product are rounded as doubles before [Math.round] is applied (57 for 23
    of 40). It is between 0 and 100 when the opened e-mails are among the
    sent ones. [clickRate] is the same for clicked among opened e-mails. *)
Theorem rates_are_percentages (d : EmailSubscription.t) :
  (EmailSubscription.emailsSent d = 0 -> EmailSubscription.engagementRate d = 0) ∧
  (0 < EmailSubscription.emailsSent d ->
   0 <= EmailSubscription.emailsOpened d < 2 ^ 44 ->
   2 * (100 * EmailSubscription.emailsOpened d) - EmailSubscription.emailsSent d
     <= 2 * EmailSubscription.emailsSent d * EmailSubscription.engagementRate d
     <= 2 * (100 * EmailSubscription.emailsOpened d) + EmailSubscription.emailsSent d) ∧
  (0 <= EmailSubscription.emailsOpened d <= EmailSubscription.emailsSent d ->
   0 <= EmailSubscription.engagementRate d <= 100) ∧
  (EmailSubscription.emailsOpened d = 0 -> EmailSubscription.clickRate d = 0) ∧
  (0 < EmailSubscription.emailsOpened d ->
   0 <= EmailSubscription.emailsClicked d < 2 ^ 44 ->
   2 * (100 * EmailSubscription.emailsClicked d) - EmailSubscription.emailsOpened d
     <= 2 * EmailSubscription.emailsOpened d * EmailSubscription.clickRate d
     <= 2 * (100 * EmailSubscription.emailsClicked d) + EmailSubscription.emailsOpened d) ∧
  (0 <= EmailSubscription.emailsClicked d <= EmailSubscription.emailsOpened d ->
   0 <= EmailSubscription.clickRate d <= 100).
Proof.
  unfold EmailSubscription.engagementRate, EmailSubscription.clickRate.
  split_and!.
  - by intros ->.
  - intros Hs Ho. destruct (Z.eqb_spec (EmailSubscription.emailsSent d) 0); [lia|].
    by apply roundPercent_nearest.
  - intros Hs. destruct (Z.eqb_spec (EmailSubscription.emailsSent d) 0); [lia|].
    apply roundPercent_bounds; lia.
  - by intros ->.
  - intros Hs Ho. destruct (Z.eqb_spec (EmailSubscription.emailsOpened d) 0); [lia|].
    by apply roundPercent_nearest.
  - intros Hs. destruct (Z.eqb_spec (EmailSubscription.emailsOpened d) 0); [lia|].
    apply roundPercent_bounds; lia.
Qed.

(** X15. The ages in whole days. [subscriptionDuration] runs to the
    unsubscription date when there is one, and then no longer depends on the
    clock, and to the time of the call otherwise; it is the number of
    complete days, so that [days] days and less than one more give [days].
    [contactAge] is the same from [createdAt] to the time of the call. *)
Theorem ages_in_days (now : Z) (d : EmailSubscription.t) (c : Contact.t) (days : Z) :
  (∀ u now', EmailSubscription.unsubscriptionDate d = Some u ->
     EmailSubscription.subscriptionDuration now d =
     EmailSubscription.subscriptionDuration now' d) ∧
  (∀ u, EmailSubscription.unsubscriptionDate d = Some u ->
     days * 86400000 <= u - EmailSubscription.subscriptionDate d < (days + 1) * 86400000 ->
     EmailSubscription.subscriptionDuration now d = days) ∧
  (EmailSubscription.unsubscriptionDate d = None ->
   days * 86400000 <= now - EmailSubscription.subscriptionDate d < (days + 1) * 86400000 ->
   EmailSubscription.subscriptionDuration now d = days) ∧
  (days * 86400000 <= now - Contact.createdAt c < (days + 1) * 86400000 ->
   Contact.contactAge now c = days).
Proof.
  unfold EmailSubscription.subscriptionDuration, Contact.contactAge.
  change (1000 * 60 * 60 * 24) with 86400000.
  split_and!.
  - by intros u now' ->.
  - intros u -> Hd. cbn [default]. unfold id. symmetry. apply (Z.div_unique _ _ _
      (u - EmailSubscription.subscriptionDate d - days * 86400000)); lia.
  - intros -> Hd. cbn [default]. symmetry. apply (Z.div_unique _ _ _
      (now - EmailSubscription.subscriptionDate d - days * 86400000)); lia.
  - intros Hd. symmetry. apply (Z.div_unique _ _ _
      (now - Contact.createdAt c - days * 86400000)); lia.
Qed.

(** ** What a list query returns *)

Section Results.
Context {D : Type}.
Implicit Types (docs db : list D).

Lemma StronglySorted_sublist (R : relation D) docs1 docs2 :
  docs1 `sublist_of` docs2 -> StronglySorted R docs2 -> StronglySorted R docs1.
Proof.
  induction 1 as [|x l1 l2 Hsub IH|x l1 l2 Hsub IH]; intros Hs.
  - constructor.
  - apply StronglySorted_inv in Hs as [Hs Hall]. constructor; [by apply IH|].
    apply Forall_forall. intros y Hy.
    apply (proj1 (Forall_forall _ _) Hall). by eapply elem_of_sublist.
  - apply StronglySorted_inv in Hs as [Hs _]. by apply IH.
Qed.

Lemma descending_transitive (key : D -> Z) : Transitive (Store.descending key).
Proof. intros a b c. unfold Store.descending. lia. Qed.

Lemma sortDesc_strongly_sorted (key : D -> Z) docs :
  StronglySorted (Store.descending key) (Store.sortDesc key docs).
Proof.
  apply Sorted_StronglySorted; [apply descending_transitive|apply sortDesc_sorted].
Qed.

Lemma applyLimit_sublist (batch : Z -> nat) (n : Z) docs :
  Store.applyLimit batch n docs `sublist_of` docs.
Proof.
  unfold Store.applyLimit. repeat case_match; try apply sublist_take. done.
Qed.

Lemma findSorted_sublist (batch : Z -> nat) (p : D -> bool) (key : D -> Z)
    (n k : Z) db docs :
  Store.findSorted batch p key n k db = Some docs ->
  docs `sublist_of` Store.sortDesc key (List.filter p db).
Proof.
  unfold Store.findSorted. case_match; [done|]. intros [= <-].
  etrans; [apply applyLimit_sublist|apply sublist_drop].
Qed.

(** The documents a query returns: sorted, taken from the collection, and
    passing the filter; none twice when the collection has none twice. *)
Lemma findSorted_sound (batch : Z -> nat) (p : D -> bool) (key : D -> Z)
    (n k : Z) db docs :
  Store.findSorted batch p key n k db = Some docs ->
  StronglySorted (Store.descending key) docs ∧
  (∀ d, d ∈ docs -> d ∈ db ∧ p d = true) ∧
  (length docs <= length (List.filter p db))%nat ∧
  (NoDup db -> NoDup docs).
Proof.
  intros Hsub%findSorted_sublist. split_and!.
  - eapply StronglySorted_sublist; [exact Hsub|apply sortDesc_strongly_sorted].
  - intros d Hd. eapply elem_of_sublist in Hd; [|exact Hsub].
    rewrite sortDesc_Permutation in Hd.
    apply list_elem_of_In, filter_In in Hd as [Hin Hp].
    split; [by apply list_elem_of_In|done].
  - etrans; [by apply sublist_length|]. by rewrite sortDesc_length.
  - intros Hnd. eapply sublist_NoDup; [|exact Hsub].
    rewrite sortDesc_Permutation. apply NoDup_ListNoDup, List.NoDup_filter.
    by apply NoDup_ListNoDup.
Qed.


End Results.

Section ListResults.
Context `{Externals} {U : Type}.

Lemma getContacts_Success (users : gmap nat U) (query : gmap string string)
    (db : list Contact.t) code msg pg :
  ContactController.getContacts users query db = Success code msg pg ->
  ∃ q docs,
    ContactController.contactFilter query = Some q ∧
    Store.findSorted singleBatch q Contact.createdAt (limitOf query)
      ((pageOf query - 1) * limitOf query) db = Some docs ∧
    data pg = map (ContactController.populate users) docs ∧
    total (pagination pg) = Z.of_nat (length (List.filter q db)) ∧
    pages (pagination pg) = JS.ceilDiv (total (pagination pg)) (limitOf query).
Proof.
  unfold ContactController.getContacts.
  destruct (ContactController.contactFilter query) as [q|]; [|done].
  rewrite Z.mul_1_r.
  destruct (Store.findSorted _ _ _ _ _ db) as [docs|] eqn:Hfind; [|done].
  intros [= _ _ <-]. by exists q, docs.
Qed.

Lemma getSubscriptions_Success (query : gmap string string)
    (db : list EmailSubscription.t) code msg pg :
  EmailController.getSubscriptions query db = Success code msg pg ->
  ∃ q,
    EmailController.subscriptionFilter query = Some q ∧
    Store.findSorted singleBatch q EmailSubscription.subscriptionDate (limitOf query)
      ((pageOf query - 1) * limitOf query) db = Some (data pg) ∧
    total (pagination pg) = Z.of_nat (length (List.filter q db)) ∧
    pages (pagination pg) = JS.ceilDiv (total (pagination pg)) (limitOf query).
Proof.
  unfold EmailController.getSubscriptions.
  destruct (EmailController.subscriptionFilter query) as [q|]; [|done].
  rewrite Z.mul_1_r.
  destruct (Store.findSorted _ _ _ _ _ db) as [docs|] eqn:Hfind; [|done].
  intros [= _ _ <-]. by exists q.
Qed.

Lemma fst_populate (users : gmap nat U) (docs : list Contact.t) :
  (map (ContactController.populate users) docs).*1 = docs.
Proof. induction docs as [|c docs IH]; [done|]. cbn. by rewrite IH. Qed.

(** X16. Whatever a list query returns is sorted newest first (by
    [createdAt] for contacts, by [subscriptionDate] for subscriptions), is
    made of documents of the collection that pass the filter of the query,
    has no more documents than [total], and holds no document twice when
    the collection holds none twice; each contact comes with the user its
    [assignedTo] names, or none. *)
Theorem list_results_sound (users : gmap nat U) (query : gmap string string) :
  (∀ (db : list Contact.t) code msg pg,
     ContactController.getContacts users query db = Success code msg pg ->
     ∃ q, ContactController.contactFilter query = Some q ∧
          StronglySorted (Store.descending Contact.createdAt) (data pg).*1 ∧
          (∀ c u, (c, u) ∈ data pg ->
             c ∈ db ∧ q c = true ∧ u = Contact.assignedTo c ≫= fun i => users !! i) ∧
          Z.of_nat (length (data pg)) <= total (pagination pg) ∧
          (NoDup db -> NoDup (data pg).*1)) ∧
  (∀ (db : list EmailSubscription.t) code msg pg,
     EmailController.getSubscriptions query db = Success code msg pg ->
     ∃ q, EmailController.subscriptionFilter query = Some q ∧
          StronglySorted (Store.descending EmailSubscription.subscriptionDate) (data pg) ∧
          (∀ d, d ∈ data pg -> d ∈ db ∧ q d = true) ∧
          Z.of_nat (length (data pg)) <= total (pagination pg) ∧
          (NoDup db -> NoDup (data pg))).
Proof.
  split.
  - intros db code msg pg (q & docs & Hq & Hfind & -> & -> & _)%getContacts_Success.
    apply findSorted_sound in Hfind as (Hsorted & Hin & Hlen & Hnd).
    exists q. rewrite fst_populate, length_map. split_and!; [done|done| |lia|done].
    intros c u (c' & [= -> ->] & Hc)%list_elem_of_fmap.
    destruct (Hin _ Hc). done.
  - intros db code msg pg (q & Hq & Hfind & -> & _)%getSubscriptions_Success.
    apply findSorted_sound in Hfind as (Hsorted & Hin & Hlen & Hnd).
    exists q. split_and!; [done|done|done|lia|done].
Qed.




End ListResults.

(** ** The analytics of the dashboard *)

Section TopTen.
Context {D K : Type} `{EqDecision K}.

(** The ten largest groups: at most ten, each one a group of the documents
    with its count, by falling counts, and no group left out is larger than
    one that is kept; all the groups when there are at most ten. *)
Lemma topTen_spec (field : D -> K) (docs : list D) :
  (length (Dashboard.topTen field docs) <= 10)%nat ∧
  StronglySorted (fun g g' => (g'.2 <= g.2)%nat) (Dashboard.topTen field docs) ∧
  NoDup (Dashboard.topTen field docs).*1 ∧
  (∀ k n, (k, n) ∈ Dashboard.topTen field docs ->
          n = Spec.countWith field k docs ∧ (0 < n)%nat) ∧
  (∀ k n, n = Spec.countWith field k docs -> (0 < n)%nat ->
          (k, n) ∉ Dashboard.topTen field docs ->
          length (Dashboard.topTen field docs) = 10%nat ∧
          ∀ k' n', (k', n') ∈ Dashboard.topTen field docs -> (n <= n')%nat).
Proof.
  unfold Dashboard.topTen.
  set (groups := Store.groupCount field docs).
  set (sorted := Store.sortDesc (fun g : K * nat => Z.of_nat g.2) groups).
  assert (Hperm : sorted ≡ₚ groups) by apply sortDesc_Permutation.
  assert (Hss : StronglySorted (Store.descending (fun g : K * nat => Z.of_nat g.2)) sorted)
    by apply sortDesc_strongly_sorted.
  split_and!.
  - rewrite length_take. lia.
  - eapply StronglySorted_sublist in Hss; [|apply (sublist_take _ 10)].
    clear -Hss. induction Hss as [|g l Hs IH Hall]; constructor; [done|].
    eapply Forall_impl; [exact Hall|]. unfold Store.descending. cbn. intros; lia.
  - rewrite fmap_take. eapply sublist_NoDup; [|apply sublist_take].
    rewrite Hperm. apply groupCount_keys_NoDup.
  - intros k n Hin. apply groupCount_spec. fold groups. rewrite <- Hperm.
    eapply elem_of_sublist; [exact Hin|apply sublist_take].
  - intros k n Hn Hpos Hout.
    assert (Hin : (k, n) ∈ sorted).
    { rewrite Hperm. by apply groupCount_spec. }
    rewrite <- (take_drop 10 sorted) in Hin, Hss.
    apply elem_of_app in Hin as [Hin|Hin]; [done|].
    split.
    + rewrite length_take. apply list_elem_of_lookup in Hin as (j & Hj).
      apply lookup_lt_Some in Hj. rewrite length_drop in Hj. lia.
    + intros k' n' Hin'.
      pose proof (StronglySorted_app_1_elem_of _ _ _ _ _ Hss Hin' Hin) as Hle.
      unfold Store.descending in Hle. cbn in Hle. lia.
Qed.

End TopTen.

(** X19. The analytics of the dashboard. The answer repeats the [period] of
    the request, '30d' when it has none, and the window starts 7, 30, 90 or
    365 days before the call, 30 days for any other period. The funnel has
    one group for each status that a contact of the window has, with the
    number of those contacts, and its counts add up to the number of
    contacts of the window. Each list of top sources has at most ten groups
    of the window, by falling counts, and no source left out has more
    documents than one that is listed. [totalSubscribers] is the number of
    active subscriptions of the window, and the sums are 0 when there is
    none. *)
Theorem analytics_spec (now : Z) (query : gmap string string)
    (contactsDb : list Contact.t) (subscriptionsDb : list EmailSubscription.t) :
  ∃ a, Dashboard.analytics now query contactsDb subscriptionsDb = Success 200 None a ∧
    Dashboard.period a = default "30d" (query !! "period") ∧
    Dashboard.dateRange a =
      now - (if decide (Dashboard.period a = "7d") then 7
             else if decide (Dashboard.period a = "90d") then 90
             else if decide (Dashboard.period a = "1y") then 365
             else 30) * 86400000 ∧
    let recent := List.filter (fun c => Dashboard.dateRange a <=? Contact.createdAt c)
                    contactsDb in
    let recentSubs :=
      List.filter (fun d => Dashboard.dateRange a <=? EmailSubscription.subscriptionDate d)
        subscriptionsDb in
    (∀ c, c ∈ recent <-> c ∈ contactsDb ∧ Dashboard.dateRange a <= Contact.createdAt c) ∧
    (∀ s n, (s, n) ∈ Dashboard.contactFunnel a <->
            n = Spec.countWith Contact.status s recent ∧ (0 < n)%nat) ∧
    sumCounts (Dashboard.contactFunnel a) = length recent ∧
    ((length (Dashboard.contacts (Dashboard.topSources a)) <= 10)%nat ∧
     StronglySorted (fun g g' => (g'.2 <= g.2)%nat)
       (Dashboard.contacts (Dashboard.topSources a)) ∧
     NoDup (Dashboard.contacts (Dashboard.topSources a)).*1 ∧
     (∀ k n, (k, n) ∈ Dashboard.contacts (Dashboard.topSources a) ->
             n = Spec.countWith Contact.source k recent ∧ (0 < n)%nat) ∧
     (∀ k n, n = Spec.countWith Contact.source k recent -> (0 < n)%nat ->
             (k, n) ∉ Dashboard.contacts (Dashboard.topSources a) ->
             length (Dashboard.contacts (Dashboard.topSources a)) = 10%nat ∧
             ∀ k' n', (k', n') ∈ Dashboard.contacts (Dashboard.topSources a) ->
                      (n <= n')%nat)) ∧
    ((length (Dashboard.emails (Dashboard.topSources a)) <= 10)%nat ∧
     StronglySorted (fun g g' => (g'.2 <= g.2)%nat)
       (Dashboard.emails (Dashboard.topSources a)) ∧
     NoDup (Dashboard.emails (Dashboard.topSources a)).*1 ∧
     (∀ k n, (k, n) ∈ Dashboard.emails (Dashboard.topSources a) ->
             n = Spec.countWith EmailSubscription.source k recentSubs ∧ (0 < n)%nat) ∧
     (∀ k n, n = Spec.countWith EmailSubscription.source k recentSubs -> (0 < n)%nat ->
             (k, n) ∉ Dashboard.emails (Dashboard.topSources a) ->
             length (Dashboard.emails (Dashboard.topSources a)) = 10%nat ∧
             ∀ k' n', (k', n') ∈ Dashboard.emails (Dashboard.topSources a) ->
                      (n <= n')%nat)) ∧
    Dashboard.totalSubscribers (Dashboard.emailEngagement a) =
      Z.of_nat (length (List.filter
                          (fun d => bool_decide (EmailSubscription.status d
                                                 = EmailSubscription.active))
                          recentSubs)) ∧
    (Dashboard.totalSubscribers (Dashboard.emailEngagement a) = 0 ->
     Dashboard.emailEngagement a =
       {| Dashboard.totalSubscribers := 0; Dashboard.totalEmailsSent := 0;
          Dashboard.totalEmailsOpened := 0; Dashboard.totalEmailsClicked := 0;
          Dashboard.avgEngagementRate := Some (Q2Qc 0) |}).
Proof.
  eexists. split; [reflexivity|].
  cbn [Dashboard.period Dashboard.dateRange Dashboard.contactFunnel
       Dashboard.topSources Dashboard.contacts Dashboard.emails
       Dashboard.emailEngagement].
  split; [reflexivity|]. split.
  { unfold Dashboard.dateRangeOf.
    repeat case_decide; subst;
      repeat match goal with
             | H : ?x = _ |- context [String.eqb ?x _] => rewrite H
             end; cbn; try lia;
      repeat match goal with
             | |- context [String.eqb ?x ?y] =>
                 destruct (String.eqb_spec x y); try done
             end; lia. }
  cbn zeta. refine (conj _ (conj _ (conj _ (conj _ (conj _ (conj _ _)))))).
  - intros c. rewrite !list_elem_of_In, filter_In, Z.leb_le. done.
  - intros s n. apply groupCount_spec.
  - apply groupCount_invariant.
  - apply topTen_spec.
  - apply topTen_spec.
  - assert (Hfilter : ∀ (f g : EmailSubscription.t -> bool) (l : list EmailSubscription.t),
              List.filter (fun d => f d && g d) l = List.filter g (List.filter f l)).
    { intros f g l. induction l as [|d l IH]; [done|]. cbn.
      destruct (f d); cbn; [destruct (g d); by rewrite IH|done]. }
    unfold Dashboard.emailEngagementStats. rewrite Hfilter.
    by destruct (List.filter _ (List.filter _ subscriptionsDb)).
  - unfold Dashboard.emailEngagementStats.
    destruct (List.filter _ subscriptionsDb); [done|]. cbn. lia.
Qed.

(** ** The setters of the schemas *)

Lemma isWhiteSpace_toLower (c : ascii) :
  JS.isWhiteSpace (JS.toLower c) = JS.isWhiteSpace c.
Proof. destruct c as [[] [] [] [] [] [] [] []]; reflexivity. Qed.

Lemma toLower_idemp (c : ascii) : JS.toLower (JS.toLower c) = JS.toLower c.
Proof. destruct c as [[] [] [] [] [] [] [] []]; reflexivity. Qed.

Lemma toLowerCase_idemp (s : string) :
  JS.toLowerCase (JS.toLowerCase s) = JS.toLowerCase s.
Proof. induction s as [|c s IH]; [done|]. cbn. by rewrite toLower_idemp, IH. Qed.

Lemma trimStart_toLowerCase (s : string) :
  JS.trimStart (JS.toLowerCase s) = JS.toLowerCase (JS.trimStart s).
Proof.
  induction s as [|c s IH]; [done|]. cbn. rewrite isWhiteSpace_toLower.
  by destruct (JS.isWhiteSpace c).
Qed.

Lemma trimEnd_toLowerCase (s : string) :
  JS.trimEnd (JS.toLowerCase s) = JS.toLowerCase (JS.trimEnd s).
Proof.
  induction s as [|c s IH]; [done|]. cbn. rewrite IH, isWhiteSpace_toLower.
  destruct (JS.trimEnd s); cbn; by destruct (JS.isWhiteSpace c).
Qed.

Lemma trimStart_idemp (s : string) : JS.trimStart (JS.trimStart s) = JS.trimStart s.
Proof.
  induction s as [|c s IH]; [done|]. cbn.
  destruct (JS.isWhiteSpace c) eqn:Hc; [done|]. cbn. by rewrite Hc.
Qed.

Lemma trimEnd_cons (c : ascii) (r : string) :
  JS.trimEnd (String c r) =
  match JS.trimEnd r with
  | EmptyString => if JS.isWhiteSpace c then EmptyString else String c EmptyString
  | r' => String c r'
  end.
Proof. reflexivity. Qed.

Lemma trimEnd_idemp (s : string) : JS.trimEnd (JS.trimEnd s) = JS.trimEnd s.
Proof.
  induction s as [|c s IH]; [done|]. rewrite trimEnd_cons.
  destruct (JS.trimEnd s) as [|c' s'] eqn:Hs.
  - destruct (JS.isWhiteSpace c) eqn:Hc; [done|].
    rewrite trimEnd_cons. cbn [JS.trimEnd]. by rewrite Hc.
  - rewrite (trimEnd_cons c (String c' s')). by rewrite IH.
Qed.

(** Trimming the end of a string that does not begin with white space gives
    a string that does not begin with white space. *)
Lemma trimStart_trimEnd (s : string) :
  JS.trimStart s = s -> JS.trimStart (JS.trimEnd s) = JS.trimEnd s.
Proof.
  destruct s as [|c s]; [done|]. cbn.
  destruct (JS.isWhiteSpace c) eqn:Hc.
  - intros Heq. exfalso.
    assert (Hlen : ∀ t, (String.length (JS.trimStart t) <= String.length t)%nat).
    { induction t as [|a t IH]; [done|]. cbn. destruct (JS.isWhiteSpace a); cbn; lia. }
    specialize (Hlen s). rewrite Heq in Hlen. cbn in Hlen. lia.
  - intros _. destruct (JS.trimEnd s); cbn; by rewrite Hc.
Qed.

Lemma trim_idemp (s : string) : JS.trim (JS.trim s) = JS.trim s.
Proof.
  unfold JS.trim.
  rewrite (trimStart_trimEnd (JS.trimStart s)) by apply trimStart_idemp.
  apply trimEnd_idemp.
Qed.

(** X20. The setters of the [email] paths ([trim], then [lowercase]) change
    nothing when applied a second time: the address that [subscribeEmail]
    or [createContact] stores is one the setters leave as it is, trimming
    and lower-casing commute, and a trimmed string neither begins nor ends
    with white space. *)
Theorem setters_idempotent (e : string) :
  Invariant.normalised (JS.toLowerCase (JS.trim e)) ∧
  JS.trim (JS.trim e) = JS.trim e ∧
  JS.trim (JS.toLowerCase e) = JS.toLowerCase (JS.trim e) ∧
  JS.trimStart (JS.trim e) = JS.trim e ∧
  JS.trimEnd (JS.trim e) = JS.trim e.
Proof.
  assert (Hcomm : ∀ s, JS.trim (JS.toLowerCase s) = JS.toLowerCase (JS.trim s)).
  { intros s. unfold JS.trim. by rewrite trimStart_toLowerCase, trimEnd_toLowerCase. }
  split_and!.
  - unfold Invariant.normalised. by rewrite Hcomm, trim_idemp, toLowerCase_idemp.
  - apply trim_idemp.
  - apply Hcomm.
  - unfold JS.trim. apply trimStart_trimEnd, trimStart_idemp.
  - unfold JS.trim. apply trimEnd_idemp.
Qed.

(** ** Unsubscribing twice *)

(** X21. After an unsubscribe call has answered 200, a second call for the
    same address answers 400 and changes nothing: the record keeps the date
    and the reason of the first call. *)
Theorem unsubscribe_twice (now1 now2 : Z) (req1 req2 : EmailController.UnsubscribeReq)
    (db db1 : list EmailSubscription.t) msg :
  EmailController.unsub_email req2 = EmailController.unsub_email req1 ->
  EmailController.unsubscribeEmail now1 req1 db = (Success 200 msg tt, db1) ->
  EmailController.unsubscribeEmail now2 req2 db1 =
    (Failure 400 "This email is already unsubscribed" [], db1) ∧
  ∃ i d, EmailController.findOne (EmailController.unsub_email req1) db1 = Some (i, d) ∧
         EmailSubscription.status d = EmailSubscription.unsubscribed ∧
         EmailSubscription.unsubscriptionDate d = Some now1 ∧
         EmailSubscription.unsubscriptionReason d =
           Some (JS.orElse (EmailController.unsub_reason req1) "User requested").
Proof.
  intros He Hrun.
  destruct (EmailController.findOne (EmailController.unsub_email req1) db)
    as [[i sub]|] eqn:Hfind.
  2:{ unfold EmailController.unsubscribeEmail in Hrun. by rewrite Hfind in Hrun. }
  destruct (decide (EmailSubscription.status sub = EmailSubscription.unsubscribed))
    as [Hst|Hst].
  { unfold EmailController.unsubscribeEmail in Hrun.
    by rewrite Hfind, (bool_decide_eq_true_2 _ Hst) in Hrun. }
  rewrite (unsubscribe_stores now1 req1 db i sub Hfind Hst) in Hrun.
  injection Hrun as _ <-.
  set (d := EmailSubscription.withLifecycle _ _ _ _ _ _ _ _ _ sub).
  assert (Hfind1 : EmailController.findOne (EmailController.unsub_email req1) (<[i := d]> db)
                   = Some (i, d)).
  { apply (findOne_insert _ _ _ sub); [done|].
    change (EmailSubscription.email sub = EmailController.unsub_email req1).
    by apply (findOne_email _ db i). }
  split.
  - unfold EmailController.unsubscribeEmail. rewrite He, Hfind1.
    by rewrite bool_decide_eq_true_2.
  - by exists i, d.
Qed.

(** ** The engagement summary of the analytics *)

(** X22. The engagement summary of the analytics counts and sums over the
    active subscriptions of the window; with none, its five fields are 0;
    with at least one, the reported average is [null], since the rate is
    computed by a getter of the model and no document stores it. *)
Theorem analytics_engagement (now : Z) (query : gmap string string)
    (contactsDb : list Contact.t) (subscriptionsDb : list EmailSubscription.t) :
  ∃ a, Dashboard.analytics now query contactsDb subscriptionsDb = Success 200 None a ∧
    let rows :=
      List.filter
        (fun d => (Dashboard.dateRange a <=? EmailSubscription.subscriptionDate d)
                  && bool_decide (EmailSubscription.status d = EmailSubscription.active))
        subscriptionsDb in
    Dashboard.totalSubscribers (Dashboard.emailEngagement a) = Z.of_nat (length rows) ∧
    Dashboard.totalEmailsSent (Dashboard.emailEngagement a)
      = foldr Z.add 0 (map EmailSubscription.emailsSent rows) ∧
    Dashboard.totalEmailsOpened (Dashboard.emailEngagement a)
      = foldr Z.add 0 (map EmailSubscription.emailsOpened rows) ∧
    Dashboard.totalEmailsClicked (Dashboard.emailEngagement a)
      = foldr Z.add 0 (map EmailSubscription.emailsClicked rows) ∧
    Dashboard.avgEngagementRate (Dashboard.emailEngagement a)
      = match rows with [] => Some (Q2Qc 0) | _ => None end.
Proof.
  eexists. split; [reflexivity|].
  cbn [Dashboard.dateRange Dashboard.emailEngagement].
  unfold Dashboard.emailEngagementStats.
  set (rows := List.filter _ subscriptionsDb).
  destruct rows as [|d rows']; [done|]. cbn [head default].
  cbn [Dashboard.totalSubscribers Dashboard.totalEmailsSent Dashboard.totalEmailsOpened
       Dashboard.totalEmailsClicked Dashboard.avgEngagementRate].
  split_and!.
  - reflexivity.
  - by apply accSum_stored.
  - by apply accSum_stored.
  - by apply accSum_stored.
  - apply accAvg_engagementRate.
Qed.

(** ** The further properties at sample inputs *)

Lemma subscribe_creates_witness :
  let req := Examples.subscribeReq "new@example.com" (Some {["events" := false]}) in
  let db := [Examples.subscription 1 "a@example.com" EmailSubscription.active 0 0 0] in
  ∃ d, EmailController.subscribeEmail (H := liteExternals) 5000 req db =
         (Success 201
            (Some "Thank you for subscribing! You will receive our latest updates and offers.")
            (EmailController.summary d), db ++ [d]) ∧
       EmailSubscription.status d = EmailSubscription.active ∧
       EmailSubscription.events (EmailSubscription.preferences d) = false.
Proof.
  intros req db.
  assert (Hfree : ¬ Exists (fun x => EmailSubscription.email x =
                              JS.toLowerCase (JS.trim (EmailController.body_email req))) db).
  { intros Hex. apply Exists_cons in Hex as [Heq|Hex]; [discriminate Heq|].
    by apply Exists_nil in Hex. }
  destruct (subscribe_creates (H := liteExternals) 5000 req db eq_refl eq_refl eq_refl Hfree)
    as (d & Hrun & _ & Hst & _ & _ & _ & _ & _ & _ & _ & _ & _ & Hev).
  exists d. split_and!; [exact Hrun|exact Hst|]. apply Hev. reflexivity.
Defined.

Lemma emails_stay_unique_witness :
  let db := [Examples.subscription 1 "a@example.com" EmailSubscription.active 0 0 0;
             Examples.subscription 2 "b@example.com" EmailSubscription.unsubscribed 0 0 0] in
  Invariant.uniqueEmails
    (EmailController.subscribeEmail (H := liteExternals) 5000
       (Examples.subscribeReq "b@example.com" None) db).2.
Proof.
  intros db.
  assert (Hnd : Invariant.uniqueEmails db).
  { unfold Invariant.uniqueEmails. cbn. apply NoDup_cons. split.
    - rewrite list_elem_of_singleton. discriminate.
    - apply NoDup_singleton. }
  apply (proj1 (emails_stay_unique (H := liteExternals) 5000 db Hnd)).
Defined.

Lemma stamps_are_kept_witness :
  let db := [Examples.subscription 1 "a@example.com" EmailSubscription.active 0 0 0] in
  let req := {| EmailController.unsub_email := "a@example.com";
                EmailController.unsub_reason := None |} in
  Forall Invariant.stamped (EmailController.unsubscribeEmail 5000 req db).2.
Proof.
  intros db req.
  assert (Hst : Forall Invariant.stamped db).
  { apply Forall_singleton. split; [discriminate|]. intros _. by eexists. }
  destruct (stamps_are_kept (H := liteExternals) 5000 db Hst) as (_ & Hunsub & _).
  apply Hunsub.
Defined.

Lemma subscribe_twice_conflicts_witness :
  let req1 := Examples.subscribeReq "new@example.com" None in
  let req2 := Examples.subscribeReq "new@example.com" (Some {["events" := false]}) in
  let db := [Examples.subscription 1 "a@example.com" EmailSubscription.active 0 0 0] in
  ∃ d, EmailController.subscribeEmail (H := liteExternals) 5000 req1 db =
         (Success 201
            (Some "Thank you for subscribing! You will receive our latest updates and offers.")
            (EmailController.summary d), db ++ [d]) ∧
       EmailController.subscribeEmail (H := liteExternals) 6000 req2 (db ++ [d]) =
         (Failure 409 "This email is already subscribed to our newsletter" [], db ++ [d]).
Proof.
  intros req1 req2 db.
  exact (subscribe_twice_conflicts (H := liteExternals) 5000 6000 req1 req2 db
           eq_refl eq_refl eq_refl eq_refl eq_refl eq_refl).
Defined.

Lemma active_subscribers_witness :
  let db := [Examples.subscription 1 "a@example.com" EmailSubscription.active 0 0 0;
             Examples.subscription 2 "b@example.com" EmailSubscription.active 0 0 0] in
  let req := {| EmailController.unsub_email := "a@example.com";
                EmailController.unsub_reason := None |} in
  Forall (fun d => EmailSubscription.email d ≠ "a@example.com")
    (EmailController.findActiveSubscribers
       (EmailController.unsubscribeEmail 5000 req db).2) ∧
  length (EmailController.findActiveSubscribers
            (EmailController.unsubscribeEmail 5000 req db).2) = 1%nat.
Proof.
  intros db req.
  assert (Hnd : Invariant.uniqueEmails db).
  { unfold Invariant.uniqueEmails. cbn. apply NoDup_cons. split.
    - rewrite list_elem_of_singleton. discriminate.
    - apply NoDup_singleton. }
  destruct (active_subscribers (H := liteExternals) 5000 db) as (_ & _ & Hgone).
  split; [|reflexivity]. apply Forall_forall.
  exact (Hgone req
           (Some "You have been successfully unsubscribed from our mailing list")
           (EmailController.unsubscribeEmail 5000 req db).2 Hnd eq_refl).
Defined.

Lemma updateSubscription_outcomes_witness :
  let db := [Examples.subscription 1 "a@example.com" EmailSubscription.active 0 0 0] in
  let req := {| EmailController.params_id := 1;
                EmailController.upd_status := Some "unsubscribed";
                EmailController.upd_preferences := Some {["events" := Some false]};
                EmailController.upd_tags := Some [" vip "] |} in
  let bad := {| EmailController.params_id := 1;
                EmailController.upd_status := Some "bogus";
                EmailController.upd_preferences := None;
                EmailController.upd_tags := None |} in
  EmailController.updateSubscription 5000 bad db =
    (Failure 500 "Failed to update subscription" [], db) ∧
  ∃ d, EmailController.updateSubscription 5000 req db =
         (Success 200 (Some "Subscription updated successfully") d, [d]) ∧
       EmailSubscription.status d = EmailSubscription.unsubscribed ∧
       EmailSubscription.unsubscriptionDate d = Some 5000 ∧
       EmailSubscription.tags d = ["vip"] ∧
       EmailSubscription.events (EmailSubscription.preferences d) = false.
Proof.
  intros db req bad. split.
  - apply (proj2 (updateSubscription_outcomes 5000 bad db) 0%nat _ eq_refl).
    left. exists "bogus". split; [reflexivity|]. intros []; discriminate.
  - assert (Hflags : ∀ p k, EmailController.upd_preferences req = Some p ->
                            k ∈ EmailController.flagNames -> p !! k ≠ Some None).
    { intros p k [= <-] Hk. unfold EmailController.flagNames in Hk.
      repeat (apply elem_of_cons in Hk as [->|Hk]; [vm_compute; discriminate|]).
      by apply elem_of_nil in Hk. }
    destruct (proj2 (proj2 (updateSubscription_outcomes 5000 req db) 0%nat _ eq_refl)
                EmailSubscription.unsubscribed eq_refl Hflags)
      as (d & Hrun & Hst & Hprefs & Htags & Hdate & _).
    exists d. split_and!; [exact Hrun|exact Hst|exact Hdate|exact Htags|].
    rewrite Hprefs. reflexivity.
Defined.


Lemma updateContact_outcomes_witness :
  let c := Examples.contact 1 "Ada" "ada@example.com" "0123456789" 1000 in
  let req := {| ContactController.params_id := 1;
                ContactController.body_status := Some "contacted";
                ContactController.body_priority := None;
                ContactController.body_assignedTo := None;
                ContactController.body_notes := Some "called back";
                ContactController.user_name := None |} in
  let bad := {| ContactController.params_id := 1;
                ContactController.body_status := None;
                ContactController.body_priority := Some "asap";
                ContactController.body_assignedTo := None;
                ContactController.body_notes := None;
                ContactController.user_name := None |} in
  ContactController.updateContact 5000 bad [c] =
    (Failure 500 "Failed to update contact" [], [c]) ∧
  ∃ c', ContactController.updateContact 5000 req [c] =
          (Success 200 (Some "Contact updated successfully") c', [c']) ∧
        Contact.notes c' =
          [{| Contact.note := "called back"; Contact.addedBy := "admin";
              Contact.addedAt := 5000 |}] ∧
        Contact.status c' = Contact.contacted ∧
        Contact.priority c' = Contact.medium ∧
        Contact.updatedAt c' = 5000.
Proof.
  intros c req bad. split.
  - apply (proj2 (updateContact_outcomes 5000 bad [c]) 0%nat c eq_refl).
    right. left. exists "asap". split; [reflexivity|]. intros []; discriminate.
  - destruct (proj2 (proj2 (updateContact_outcomes 5000 req [c]) 0%nat c eq_refl)
                Contact.contacted Contact.medium eq_refl eq_refl ltac:(discriminate))
      as (c' & Hrun & Hnotes & _ & Hst & Hpr & _ & _ & Hup).
    exists c'. split_and!; [exact Hrun|exact Hnotes|exact Hst|exact Hpr|].
    rewrite Hup. reflexivity.
Defined.

Lemma ids_stay_unique_witness :
  let db := [Examples.contact 1 "Ada" "ada@example.com" "0123456789" 1000;
             Examples.contact 7 "Bob" "bob@example.com" "0123456780" 2000] in
  Invariant.uniqueContactIds
    (ContactController.createContact (H := liteExternals) 5000 Examples.createReq db).2.
Proof.
  intros db.
  assert (Hnd : Invariant.uniqueContactIds db).
  { unfold Invariant.uniqueContactIds. cbn. apply NoDup_cons. split.
    - rewrite list_elem_of_singleton. discriminate.
    - apply NoDup_singleton. }
  destruct (proj1 (ids_stay_unique (H := liteExternals) 5000 db []) Hnd) as (Hcreate & _).
  apply Hcreate.
Defined.

Lemma deleteContact_outcomes_witness :
  let c1 := Examples.contact 1 "Ada" "ada@example.com" "0123456789" 1000 in
  let c2 := Examples.contact 2 "Bob" "bob@example.com" "0123456780" 2000 in
  ContactController.deleteContact 1 [c1; c2] =
    (Success 200 (Some "Contact deleted successfully") tt, [c2]) ∧
  ContactController.getContact (∅ : gmap nat unit) 1 [c2] =
    Failure 404 "Contact not found" [] ∧
  ContactController.getContact (∅ : gmap nat unit) 2 [c2] =
    ContactController.getContact (∅ : gmap nat unit) 2 [c1; c2].
Proof.
  intros c1 c2.
  assert (Hnd : Invariant.uniqueContactIds [c1; c2]).
  { unfold Invariant.uniqueContactIds. cbn. apply NoDup_cons. split.
    - rewrite list_elem_of_singleton. discriminate.
    - apply NoDup_singleton. }
  destruct (proj2 (deleteContact_outcomes (∅ : gmap nat unit) 1 [c1; c2]) 0%nat c1 eq_refl)
    as (Hrun & _ & Hother & Hgone).
  split_and!; [exact Hrun|exact (proj1 (Hgone Hnd))|].
  apply (Hother 2%nat). discriminate.
Defined.

Lemma createContact_then_getContact_witness :
  ∃ s db' c,
    ContactController.createContact (H := liteExternals) 5000 Examples.createReq [] =
      (Success 201
         (Some "Contact request submitted successfully! We will get back to you soon.")
         s, db') ∧
    ContactController.getContact (∅ : gmap nat unit) (ContactController.id s) db' =
      Success 200 None (c, None) ∧
    Contact.email c = "ada@example.com" ∧
    length (Contact.notes c) = 1%nat.
Proof.
  destruct (createContact_then_getContact (H := liteExternals) (∅ : gmap nat unit) 5000
              Examples.createReq [] _ _ _ _ eq_refl)
    as (c & Hget & _ & _ & Hmail & _ & _ & _ & _ & _ & Hnotes & _).
  eexists _, _, c. split_and!; [reflexivity|exact Hget|exact Hmail|by rewrite Hnotes].
Defined.

Lemma deleteSubscription_outcomes_witness :
  let sub := Examples.subscription 1 "a@example.com" EmailSubscription.bounced 9 0 0 in
  let req := Examples.subscribeReq "a@example.com" None in
  EmailController.deleteSubscription 1 [sub] =
    (Success 200 (Some "Email subscription deleted successfully") tt, []) ∧
  ∃ d, EmailController.subscribeEmail (H := liteExternals) 5000 req [] =
         (Success 201
            (Some "Thank you for subscribing! You will receive our latest updates and offers.")
            (EmailController.summary d), [d]) ∧
       EmailSubscription.status d = EmailSubscription.active.
Proof.
  intros sub req.
  destruct (proj2 (deleteSubscription_outcomes (H := liteExternals) 1 [sub]) 0%nat sub eq_refl)
    as (Hrun & _ & _ & Hfree).
  split; [exact Hrun|].
  assert (Hnd : Invariant.uniqueEmails [sub]) by apply NoDup_singleton.
  exact (proj2 (Hfree Hnd) 5000 req eq_refl eq_refl eq_refl eq_refl).
Defined.

Lemma stats_windows_witness :
  ∃ st, ContactController.getContactStats 5000 0 0 Examples.contacts25 = Success 200 None st ∧
        ContactController.today st <= ContactController.thisWeek st ∧
        ContactController.today st <= ContactController.thisMonth st.
Proof.
  destruct (stats_windows 5000 0 0 Examples.contacts25 [])
    as ((st & Hrun & _ & _ & _ & Hweek & Hmonth & _) & _).
  exists st. split_and!; [exact Hrun|apply Hweek; lia|apply Hmonth; lia].
Defined.

Lemma rates_are_percentages_witness :
  let d := Examples.subscription 1 "a@example.com" EmailSubscription.active 40 23 2 in
  2 * (100 * 23) - 40 <= 2 * 40 * EmailSubscription.engagementRate d
    <= 2 * (100 * 23) + 40 ∧
  0 <= EmailSubscription.engagementRate d <= 100 ∧
  0 <= EmailSubscription.clickRate d <= 100.
Proof.
  intros d.
  destruct (rates_are_percentages d) as (_ & Hnear & Hopen & _ & _ & Hclick).
  split; [apply Hnear; cbn; lia|].
  split; [apply Hopen|apply Hclick]; cbn; lia.
Defined.

Lemma ages_in_days_witness :
  let c := Examples.contact 1 "Ada" "ada@example.com" "0123456789" 1000 in
  Contact.contactAge (1000 + 3 * 86400000 + 5) c = 3.
Proof.
  intros c.
  destruct (ages_in_days (1000 + 3 * 86400000 + 5)
              (Examples.subscription 1 "a@example.com" EmailSubscription.active 0 0 0) c 3)
    as (_ & _ & _ & Hage).
  apply Hage. cbn. lia.
Defined.

Lemma list_results_sound_witness :
  let query : gmap string string := {["page" := "3"; "limit" := "10"]} in
  ∃ pg, ContactController.getContacts (H := liteExternals) (∅ : gmap nat unit) query
          Examples.contacts25 = Success 200 None pg ∧
        StronglySorted (Store.descending Contact.createdAt) (data pg).*1 ∧
        ∀ c u, (c, u) ∈ data pg -> c ∈ Examples.contacts25.
Proof.
  intros query.
  assert (Hrun : ∃ pg, ContactController.getContacts (H := liteExternals)
                         (∅ : gmap nat unit) query Examples.contacts25
                       = Success 200 None pg)
    by (vm_compute; eexists; reflexivity).
  destruct Hrun as [pg Hrun]. exists pg. split; [exact Hrun|].
  destruct (proj1 (list_results_sound (H := liteExternals) (∅ : gmap nat unit) query)
              Examples.contacts25 _ _ _ Hrun)
    as (q & _ & Hsorted & Hin & _).
  split; [exact Hsorted|]. intros c u Hcu. exact (proj1 (Hin c u Hcu)).
Defined.



Lemma analytics_spec_witness :
  ∃ a, Dashboard.analytics 5000 {["period" := "7d"]} Examples.contacts25 [] =
         Success 200 None a ∧
       Dashboard.dateRange a = 5000 - 7 * 86400000 ∧
       Dashboard.emailEngagement a =
         {| Dashboard.totalSubscribers := 0; Dashboard.totalEmailsSent := 0;
            Dashboard.totalEmailsOpened := 0; Dashboard.totalEmailsClicked := 0;
            Dashboard.avgEngagementRate := Some (Q2Qc 0) |}.
Proof.
  destruct (analytics_spec 5000 {["period" := "7d"]} Examples.contacts25 [])
    as (a & Hrun & Hperiod & Hrange & Hrest).
  cbv zeta in Hrest.
  destruct Hrest as (_ & _ & _ & _ & _ & Htotal & Hzero).
  exists a. split_and!; [exact Hrun| |apply Hzero; rewrite Htotal; reflexivity].
  rewrite Hrange, Hperiod. reflexivity.
Defined.

Lemma unsubscribe_twice_witness :
  let sub := Examples.subscription 1 "a@example.com" EmailSubscription.active 0 0 0 in
  let req1 := {| EmailController.unsub_email := "a@example.com";
                 EmailController.unsub_reason := Some "too many e-mails" |} in
  let req2 := {| EmailController.unsub_email := "a@example.com";
                 EmailController.unsub_reason := Some "again" |} in
  let db1 := (EmailController.unsubscribeEmail 5000 req1 [sub]).2 in
  EmailController.unsubscribeEmail 6000 req2 db1 =
    (Failure 400 "This email is already unsubscribed" [], db1) ∧
  ∃ i d, EmailController.findOne "a@example.com" db1 = Some (i, d) ∧
         EmailSubscription.unsubscriptionDate d = Some 5000 ∧
         EmailSubscription.unsubscriptionReason d = Some "too many e-mails".
Proof.
  intros sub req1 req2 db1.
  destruct (unsubscribe_twice 5000 6000 req1 req2 [sub] db1
              (Some "You have been successfully unsubscribed from our mailing list")
              eq_refl eq_refl)
    as (Hrun & i & d & Hfind & _ & Hdate & Hreason).
  split; [exact Hrun|]. exists i, d. split_and!; [exact Hfind|exact Hdate|exact Hreason].
Defined.
